(** * urdf_to_simox_xml: the URDF to Simox XML conversion engine

    A shallow embedding of [UrdfToSimoxXml] (urdf_to_simox_xml.cpp) and the
    properties of its specification that were checked against it.

    Conventions of the embedding:
    - [std::string] is [string]; positions are [nat], [std::string::npos] is
      [None];
    - [exit (EXIT_FAILURE)], a null dereference and an uncaught exception end
      the run: every function that can reach one returns a [result];
    - the [boost::property_tree::ptree] under construction is passed
      explicitly, each mutating call returns the new tree;
    - what the program obtains from outside its own code (the package
      resolver, the meshlabserver subprocess, the file system, [getRPY] of the
      urdf library, the signedness of [char]) is a [Variable] of the section
      the engine lives in. *)

From Stdlib Require Import List String Ascii Bool Arith ZArith NArith QArith Qabs Lia.
From Stdlib Require Import Permutation Sorting.Sorted.
From Stdlib Require Import Numbers.DecimalString Numbers.DecimalN Floats.SpecFloat.
Import ListNotations.

Local Close Scope Q_scope.
Local Open Scope nat_scope.
Local Open Scope list_scope.
Local Open Scope string_scope.

(* ================================================================== *)
(** * Fatal outcomes *)

(** The program reports a diagnostic and leaves through [exit]; the names are
    those of the specification's error taxonomy, one per exit site.  The last
    three are the ways the C++ itself can die ([NullDereference]: a null
    [shared_ptr] is dereferenced; [OutOfRange]: [std::string::at] throws) and
    the embedding's own [OutOfFuel]. *)
Inductive error : Type :=
| MalformedOutputName
| MalformedMeshReference
| MeshConversionFailed
| UnsupportedGeometry
| UnsupportedJointType
| EmptyModel
| NullDereference
| OutOfRange
| OutOfFuel.

Inductive result (A : Type) : Type :=
| Ok (a : A)
| Err (e : error).
Arguments Ok {A} a.
Arguments Err {A} e.

Definition bind {A B : Type} (r : result A) (k : A -> result B) : result B :=
  match r with
  | Ok a => k a
  | Err e => Err e
  end.

Notation "x <- r ;; k" := (bind r (fun x => k))
  (at level 61, r at next level, right associativity).

(** [BOOST_FOREACH] over a vector whose body updates the tree and may exit. *)
Fixpoint foreach {A S : Type} (body : S -> A -> result S) (l : list A) (s : S)
  : result S :=
  match l with
  | [] => Ok s
  | a :: l' => s' <- body s a ;; foreach body l' s'
  end.

(* ================================================================== *)
(** * std::string and boost string algorithms *)

Module Str.

(** [s.find(pat, 0)] *)
Definition find (s pat : string) : option nat := String.index 0 pat s.

(** [s.erase(pos, len)] *)
Definition erase (s : string) (pos len : nat) : string :=
  substring 0 pos s ++ substring (pos + len) (String.length s - (pos + len)) s.

(** [s.find_first_of(c)] *)
Fixpoint find_first_of (s : string) (c : ascii) : option nat :=
  match s with
  | EmptyString => None
  | String a r =>
      if Ascii.eqb a c then Some 0
      else option_map S (find_first_of r c)
  end.

(** [s.find_last_of(c)] *)
Fixpoint find_last_of (s : string) (c : ascii) : option nat :=
  match s with
  | EmptyString => None
  | String a r =>
      match find_last_of r c with
      | Some n => Some (S n)
      | None => if Ascii.eqb a c then Some 0 else None
      end
  end.

(** [s.substr(0, n)], where [n] may be [npos] *)
Definition substr0 (s : string) (n : option nat) : string :=
  match n with
  | Some k => substring 0 k s
  | None => s
  end.

(** [std::string(s.begin() + pos, s.end())] *)
Definition from (s : string) (pos : nat) : string :=
  substring pos (String.length s - pos) s.

(** [s.at(0)]: throws [std::out_of_range] on the empty string. *)
Definition at0 (s : string) : result ascii :=
  match s with
  | EmptyString => Err OutOfRange
  | String c _ => Ok c
  end.

(** [boost::iter_split(list, s, boost::first_finder(sep))] for the
    one-character separators the program uses: the segments between the
    occurrences of [sep], in order; one more segment than occurrences. *)
Fixpoint iter_split (sep : ascii) (s : string) : list string :=
  match s with
  | EmptyString => [EmptyString]
  | String a r =>
      if Ascii.eqb a sep then EmptyString :: iter_split sep r
      else match iter_split sep r with
           | seg :: segs => String a seg :: segs
           | [] => [String a EmptyString]
           end
  end.

Definition upper_char (c : ascii) : ascii :=
  let n := nat_of_ascii c in
  if (97 <=? n)%nat && (n <=? 122)%nat then ascii_of_nat (n - 32) else c.

Definition lower_char (c : ascii) : ascii :=
  let n := nat_of_ascii c in
  if (65 <=? n)%nat && (n <=? 90)%nat then ascii_of_nat (n + 32) else c.

Fixpoint map_chars (f : ascii -> ascii) (s : string) : string :=
  match s with
  | EmptyString => EmptyString
  | String a r => String (f a) (map_chars f r)
  end.

(** [boost::to_upper_copy], [boost::to_lower_copy] in the classic locale. *)
Definition to_upper_copy : string -> string := map_chars upper_char.
Definition to_lower_copy : string -> string := map_chars lower_char.

(** [s1 < s2] on [std::string]: lexicographic on the bytes as
    [unsigned char]. *)
Definition lt (s1 s2 : string) : bool := String.ltb s1 s2.

(** [sub] occurs in [s]. *)
Definition contains (s sub : string) : Prop :=
  exists pre post, s = pre ++ sub ++ post.

End Str.

(* ================================================================== *)
(** * double and its fixed-point rendering *)

(** A [double] is a binary64 datum: signed zeros, signed infinities, NaNs
    with their sign bit (the payload is never looked at), and
    [B754_finite s m e] of value [(-1)^s * m * 2^e].  The binary64 data are
    those whose image in the Standard Library's specification format
    [valid_binary 53 1024] accepts; what is proved below of finite doubles
    holds of every [B754_finite s m e]. *)
Inductive double : Type :=
| B754_zero (s : bool)
| B754_infinity (s : bool)
| B754_nan (s : bool)
| B754_finite (s : bool) (m : positive) (e : Z).

Definition to_spec_float (x : double) : spec_float :=
  match x with
  | B754_zero s => S754_zero s
  | B754_infinity s => S754_infinity s
  | B754_nan _ => S754_nan
  | B754_finite s m e => S754_finite s m e
  end.

Definition finite (x : double) : bool :=
  match x with
  | B754_zero _ | B754_finite _ _ _ => true
  | _ => false
  end.

(** The real number a finite double stands for. *)
Definition mag_Q (m : positive) (e : Z) : Q :=
  match e with
  | Z0 => Z.pos m # 1
  | Zpos p => (Z.pos m * Z.pow_pos 2 p) # 1
  | Zneg p => Z.pos m # (Pos.pow 2 p)
  end.

Definition value (x : double) : Q :=
  match x with
  | B754_finite s m e => if s then Qopp (mag_Q m e) else mag_Q m e
  | _ => 0%Q
  end.

(** The literals of the program and of the scenarios, as the compiler rounds
    them to binary64. *)
Definition d_0_0 : double := B754_zero false.
Definition d_1_0 : double := B754_finite false 4503599627370496 (-52).
Definition d_m0_01 : double := B754_finite true 5764607523034235 (-59).
Definition d_m0_035 : double := B754_finite true 5044031582654956 (-57).
Definition d_0_07 : double := B754_finite false 5044031582654956 (-56).
Definition d_1_57 : double := B754_finite false 7070651414971679 (-52).
Definition d_m1_57 : double := B754_finite true 7070651414971679 (-52).

(** [round_thousandths m e]: the integer nearest to [1000 * m * 2^e], ties to
    even: the digits the C library produces for precision 3 in the default
    rounding mode. *)
Definition round_thousandths (m : positive) (e : Z) : N :=
  match e with
  | Z0 => 1000 * N.pos m
  | Zpos p => 1000 * N.pos m * N.pos (Pos.pow 2 p)
  | Zneg p =>
      let d := N.pos (Pos.pow 2 p) in
      let q := N.div (1000 * N.pos m) d in
      let r := N.modulo (1000 * N.pos m) d in
      if N.ltb (2 * r) d then q
      else if N.ltb d (2 * r) then N.succ q
      else if N.even q then q else N.succ q
  end%N.

(** Decimal digits of [n], at least four of them (leading zeros). *)
Fixpoint pad_zeros (k : nat) (d : Decimal.uint) : Decimal.uint :=
  match k with
  | O => d
  | S k' => Decimal.D0 (pad_zeros k' d)
  end.

Definition digits4 (n : N) : string :=
  let d := N.to_uint n in
  let s := NilEmpty.string_of_uint d in
  NilEmpty.string_of_uint (pad_zeros (4 - String.length s) d).

(** [thousandths n]: [n / 1000] written with three fractional digits. *)
Definition thousandths (n : N) : string :=
  let s := digits4 n in
  let k := (String.length s - 3)%nat in
  substring 0 k s ++ "." ++ substring k 3 s.

Definition sign_string (s : bool) : string := if s then "-" else "".

(** [to_string_]: [ss << std::fixed << std::setprecision(3) << x].  An
    infinity and a NaN are written with their sign and without digits. *)
Definition to_string_ (x : double) : string :=
  match x with
  | B754_zero s => sign_string s ++ "0.000"
  | B754_finite s m e => sign_string s ++ thousandths (round_thousandths m e)
  | B754_infinity s => sign_string s ++ "inf"
  | B754_nan s => sign_string s ++ "nan"
  end.

(** Reading a fixed-point numeral back as an exact rational: an optional
    minus sign, digits, a point, digits. *)
Definition parse_number (s : string) : option Q :=
  let '(neg, body) :=
    match s with
    | String c r => if Ascii.eqb c "-" then (true, r) else (false, s)
    | EmptyString => (false, s)
    end in
  match Str.iter_split "." body with
  | [ip; fp] =>
      match ip, NilEmpty.uint_of_string (ip ++ fp) with
      | String _ _, Some d =>
          let q := Qmake (Z.of_N (N.of_uint d)) (Z.to_pos (10 ^ Z.of_nat (String.length fp))) in
          Some (if neg then Qopp q else q)
      | _, _ => None
      end
  | _ => None
  end.

(* ================================================================== *)
(** * boost::property_tree::ptree *)

(** A node holds its data and its children in insertion order; keys may
    repeat. *)
#[warnings="-register-all"]
Inductive ptree : Type :=
| PT (data : string) (children : list (string * ptree)).

Definition empty_ptree : ptree := PT "" [].

Definition data_of (t : ptree) : string := let 'PT d _ := t in d.
Definition children_of (t : ptree) : list (string * ptree) := let 'PT _ cs := t in cs.

(** Walk to the first child with key [k], creating it at the end when there
    is none, and change it by [f]. *)
Fixpoint force_child (k : string) (f : ptree -> ptree) (cs : list (string * ptree))
  : list (string * ptree) :=
  match cs with
  | [] => [(k, f empty_ptree)]
  | (k', c) :: r =>
      if String.eqb k' k then (k', f c) :: r
      else (k', c) :: force_child k f r
  end.

Fixpoint put_path (path : list string) (v : string) (t : ptree) : ptree :=
  match path with
  | [] => PT v (children_of t)
  | k :: ks => PT (data_of t) (force_child k (put_path ks v) (children_of t))
  end.

(** [t.put(path, v)]: the path is split at its dots; an existing node is
    overwritten. *)
Definition put (t : ptree) (path v : string) : ptree :=
  put_path (Str.iter_split "." path) v t.

(** [t.add_child(key, child)] for a one-component key: always a new child, at
    the end. *)
Definition add_child (t : ptree) (key : string) (child : ptree) : ptree :=
  PT (data_of t) (children_of t ++ [(key, child)])%list.

(** Reading the tree back. *)
Fixpoint get_child (k : string) (cs : list (string * ptree)) : option ptree :=
  match cs with
  | [] => None
  | (k', c) :: r => if String.eqb k' k then Some c else get_child k r
  end.

Definition attr (t : ptree) (a : string) : option string :=
  match get_child "<xmlattr>" (children_of t) with
  | Some attrs => option_map data_of (get_child a (children_of attrs))
  | None => None
  end.

(** All children with a given tag, in document order. *)
Definition children_tagged (tag : string) (t : ptree) : list ptree :=
  map snd (filter (fun kc => String.eqb (fst kc) tag) (children_of t)).

Definition has_child (tag : string) (t : ptree) : bool :=
  match get_child tag (children_of t) with
  | Some _ => true
  | None => false
  end.

(** The [name] attribute of a node, [""] when it has none. *)
Definition name_of (t : ptree) : string :=
  match attr t "name" with
  | Some n => n
  | None => ""
  end.

(* ================================================================== *)
(** * The urdf model, as the engine reads it *)

Record Vector3 : Type := { vx : double; vy : double; vz : double }.

Record Rotation : Type := { qx : double; qy : double; qz : double; qw : double }.

Record Pose : Type := { position : Vector3; rotation : Rotation }.

Inductive GeometryType : Type := SPHERE | BOX | CYLINDER | MESH.

(** [urdf::Geometry]; [filename] is the field of the [urdf::Mesh] subclass. *)
Record Geometry : Type := { gtype : GeometryType; filename : string }.

Record Visual : Type := { origin : Pose; geometry : Geometry }.

Record JointLimits : Type := { lower : double; upper : double }.

Inductive JointType : Type :=
  UNKNOWN | REVOLUTE | CONTINUOUS | PRISMATIC | FLOATING | PLANAR | FIXED.

(** [limits] and [visual] are [shared_ptr]s: [None] is the null pointer. *)
Record Joint : Type := {
  joint_name : string;
  joint_type : JointType;
  parent_to_joint_origin_transform : Pose;
  axis : Vector3;
  limits : option JointLimits;
  child_link_name : string
}.

Record Link : Type := {
  link_name : string;
  visual : option Visual;
  child_joints : list Joint
}.

(** [urdf::Model]: the links, in the order [getLinks] hands them out. *)
Record Model : Type := { model_links : list Link }.

Definition getLinks (m : Model) : list Link := model_links m.

(** [urdf_model_->getLink(name)]: [None] is the null pointer. *)
Definition getLink (m : Model) (name : string) : option Link :=
  find (fun l => String.eqb (link_name l) name) (model_links m).

Definition deref {A : Type} (p : option A) : result A :=
  match p with
  | Some a => Ok a
  | None => Err NullDereference
  end.

(** [compareUrdfJoint] *)
Definition compareUrdfJoint (j1 j2 : Joint) : bool :=
  Str.lt (joint_name j1) (joint_name j2).

(** [std::sort (joints_.begin(), joints_.end(), compareUrdfJoint)], as an
    insertion sort. *)
Fixpoint insert_joint (j : Joint) (l : list Joint) : list Joint :=
  match l with
  | [] => [j]
  | k :: r => if compareUrdfJoint k j then k :: insert_joint j r else j :: l
  end.

Fixpoint sort_joints (l : list Joint) : list Joint :=
  match l with
  | [] => []
  | j :: r => insert_joint j (sort_joints r)
  end.

(** The converter object after construction. *)
Record UrdfToSimoxXml : Type := {
  urdf_model_ : Model;
  output_dir_ : string;
  links_ : list Link;
  joints_ : list Joint
}.

(** The constructor, from the parsed model on. *)
Definition construct (model : Model) (output_dir : string) : result UrdfToSimoxXml :=
  let links := getLinks model in
  match links with
  | [] => Err EmptyModel
  | _ =>
      let joints := flat_map child_joints links in
      Ok {| urdf_model_ := model;
            output_dir_ := output_dir;
            links_ := links;
            joints_ := sort_joints joints |}
  end.

(** [std::map<int, bool>]: the entries in ascending key order, which is the
    order iteration visits them in. *)
Definition int_map : Type := list (Z * bool).

Fixpoint map_find (k : Z) (m : int_map) : option bool :=
  match m with
  | [] => None
  | (k', v) :: r => if Z.eqb k' k then Some v else map_find k r
  end.

(** [m[k] = v] *)
Fixpoint map_set (k : Z) (v : bool) (m : int_map) : int_map :=
  match m with
  | [] => [(k, v)]
  | (k', v') :: r =>
      if Z.ltb k k' then (k, v) :: m
      else if Z.eqb k k' then (k, v) :: r
      else (k', v') :: map_set k v r
  end.

Definition map_keys (m : int_map) : list Z := map fst m.

(** What the subprocess and the process itself do that the outside can see. *)
Inductive event : Type :=
| EvCreateDirectories (dir : string)
| EvPopen (command : string)
| EvPclose
| EvExit.

(* ================================================================== *)
(** * The engine *)

Section Engine.

(** Whether [char] is a signed type on the platform ([static_cast<int>] of
    a byte above 127 is then negative). *)
Variable char_signed : bool.

(** [ros::package::getPath] *)
Variable getPath : string -> string.

(** The meshlabserver subprocess: from the command line to the C strings
    [getline] hands over, one per line of its standard output, and the
    exit status [pclose] would report.  The same command line gets the same
    answer each time it is run. *)
Variable meshlabserver : string -> list string * Z.

(** [boost::filesystem::exists] *)
Variable fs_exists : string -> bool.

(** [urdf::Rotation::getRPY] *)
Variable getRPY : Rotation -> double * double * double.

(** ** Attribute setters *)

Definition set_joint_limits_node_ (Limits_node : ptree) (limits : option JointLimits)
  : result ptree :=
  let Limits_node := put Limits_node "<xmlattr>.unit" "radian" in
  l <- deref limits ;;
  let Limits_node := put Limits_node "<xmlattr>.lo" (to_string_ (lower l)) in
  let Limits_node := put Limits_node "<xmlattr>.hi" (to_string_ (upper l)) in
  Ok Limits_node.

Definition set_axis_node_xyz (Axis_node : ptree) (x y z : double) : ptree :=
  let Axis_node := put Axis_node "<xmlattr>.x" (to_string_ x) in
  let Axis_node := put Axis_node "<xmlattr>.y" (to_string_ y) in
  let Axis_node := put Axis_node "<xmlattr>.z" (to_string_ z) in
  Axis_node.

Definition set_axis_node_ (Axis_node : ptree) (axis : Vector3) : ptree :=
  set_axis_node_xyz Axis_node (vx axis) (vy axis) (vz axis).

Definition set_translation_node_xyz (Translation_node : ptree) (x y z : double) : ptree :=
  let Translation_node := put Translation_node "<xmlattr>.x" (to_string_ x) in
  let Translation_node := put Translation_node "<xmlattr>.y" (to_string_ y) in
  let Translation_node := put Translation_node "<xmlattr>.z" (to_string_ z) in
  let Translation_node := put Translation_node "<xmlattr>.unitsLength" "m" in
  Translation_node.

Definition set_translation_node_ (Translation_node : ptree) (position : Vector3) : ptree :=
  set_translation_node_xyz Translation_node (vx position) (vy position) (vz position).

Definition set_rollpitchyaw_node_rpy (Translation_node : ptree) (roll pitch yaw : double)
  : ptree :=
  let Translation_node := put Translation_node "<xmlattr>.roll" (to_string_ roll) in
  let Translation_node := put Translation_node "<xmlattr>.pitch" (to_string_ pitch) in
  let Translation_node := put Translation_node "<xmlattr>.yaw" (to_string_ yaw) in
  let Translation_node := put Translation_node "<xmlattr>.unitsAngle" "radian" in
  Translation_node.

Definition set_rollpitchyaw_node_ (Translation_node : ptree) (rotation : Rotation) : ptree :=
  let '(roll, pitch, yaw) := getRPY rotation in
  set_rollpitchyaw_node_rpy Translation_node roll pitch yaw.

(** ** The mesh delegate *)

Definition packagePrefix : string := "package://".

Definition failure_signature : string := "loaded has 0 vn".

(** The [while (getline ...)] loop: leaves at the first line with the
    signature. *)
Fixpoint scan_output (lines : list string) : result unit :=
  match lines with
  | [] => Ok tt
  | str :: rest =>
      match Str.find str failure_signature with
      | Some _ => Err MeshConversionFailed
      | None => scan_output rest
      end
  end.

(** One round of the loop that builds [original_filename]: [n] is the
    [unsigned short] counter, which starts again at 0 after 65535. *)
Definition original_filename_step (state : Z * string) (token : string) : Z * string :=
  let '(n, original_filename) := state in
  (((n + 1) mod 65536)%Z,
   if (n =? 0)%Z then original_filename else original_filename ++ ("/" ++ token)).

(** [original_filename]: the package directory, then ["/" + token] for each
    token at which the counter is not 0. *)
Definition original_filename_of (stringList : list string) : string :=
  let package_name := hd "" stringList in
  snd (fold_left original_filename_step stringList (0%Z, getPath package_name)).

(** [simox_filename] before the mesh directory is put in front. *)
Definition simox_basename (urdf_filename : string) : string :=
  let simox_filename :=
    match Str.find_first_of urdf_filename "/" with
    | Some _ =>
        match Str.find_last_of urdf_filename "/" with
        | Some sp => Str.from urdf_filename (sp + 1)
        | None => ""
        end
    | None => ""
    end in
  let simox_filename :=
    Str.substr0 simox_filename (Str.find_first_of simox_filename ".") in
  simox_filename ++ ".wrl".

Definition mesh_dir_of (output_dir : string) : string := output_dir ++ "/meshes".

(** The value [convert_mesh_] returns when it returns. *)
Definition simox_filename_of (output_dir urdf_filename : string) : string :=
  mesh_dir_of output_dir ++ "/" ++ simox_basename urdf_filename.

Definition command_of (output_dir urdf_filename : string) (stringList : list string)
  : string :=
  "meshlabserver -i " ++ original_filename_of stringList ++ " -o "
    ++ simox_filename_of output_dir urdf_filename.

(** [convert_mesh_], with the events of the run next to its outcome.  The
    calls of [create_directories] and of [popen] are taken to succeed. *)
Definition convert_mesh_run (output_dir : string) (urdf_filename : string)
  : list event * result string :=
  match Str.find urdf_filename packagePrefix with
  | None => ([EvExit], Err MalformedMeshReference)
  | Some pos1 =>
      let repLen := String.length packagePrefix in
      let urdf_filename_copy := Str.erase urdf_filename pos1 repLen in
      let stringList := Str.iter_split "/" urdf_filename_copy in
      if (List.length stringList <? 2)%nat then ([EvExit], Err MalformedMeshReference)
      else
        let mesh_dir := mesh_dir_of output_dir in
        let mk := if fs_exists mesh_dir then [] else [EvCreateDirectories mesh_dir] in
        let command := command_of output_dir urdf_filename stringList in
        let '(lines, _) := meshlabserver command in
        match scan_output lines with
        | Err e => (mk ++ [EvPopen command; EvExit], Err e)%list
        | Ok _ =>
            (mk ++ [EvPopen command; EvPclose],
             Ok (simox_filename_of output_dir urdf_filename))%list
        end
  end.

Definition convert_mesh_ (output_dir : string) (urdf_filename : string) : result string :=
  snd (convert_mesh_run output_dir urdf_filename).

(** ** The synthetic nodes *)

Definition add_hand_base_node_ (hand_node : ptree)
    (hand_base hand_tcp hand_gcp base_link : string) : ptree :=
  let hand_base_node := put empty_ptree "<xmlattr>.name" hand_base in
  let Child_node_1 := put empty_ptree "<xmlattr>.name" hand_tcp in
  let Child_node_2 := put empty_ptree "<xmlattr>.name" hand_gcp in
  let Child_node_3 := put empty_ptree "<xmlattr>.name" base_link in
  let hand_base_node := add_child hand_base_node "Child" Child_node_1 in
  let hand_base_node := add_child hand_base_node "Child" Child_node_2 in
  let hand_base_node := add_child hand_base_node "Child" Child_node_3 in
  add_child hand_node "RobotNode" hand_base_node.

Definition add_hand_tcp_node_ (hand_node : ptree) (hand_tcp : string) : ptree :=
  let hand_tcp_node := put empty_ptree "<xmlattr>.name" hand_tcp in
  let hand_tcp_node :=
    put hand_tcp_node "<xmlcomment>" "Translation values were set manually!" in
  let Translation_node :=
    set_translation_node_xyz empty_ptree d_m0_01 d_m0_035 d_0_07 in
  let Transform_node := add_child empty_ptree "Translation" Translation_node in
  let hand_tcp_node := add_child hand_tcp_node "Transform" Transform_node in
  add_child hand_node "RobotNode" hand_tcp_node.

Definition add_hand_gcp_node_ (hand_node : ptree) (hand_gcp : string) : ptree :=
  let hand_gcp_node := put empty_ptree "<xmlattr>.name" hand_gcp in
  let hand_gcp_node :=
    put hand_gcp_node "<xmlcomment>"
        "Translation and rollpitchyaw values were set manually!" in
  let Translation_node :=
    set_translation_node_xyz empty_ptree d_m0_01 d_m0_035 d_0_07 in
  let rollpitchyaw_node :=
    set_rollpitchyaw_node_rpy empty_ptree d_1_0 d_0_0 d_0_0 in
  let Transform_node := add_child empty_ptree "Translation" Translation_node in
  let Transform_node := add_child Transform_node "rollpitchyaw" rollpitchyaw_node in
  let hand_gcp_node := add_child hand_gcp_node "Transform" Transform_node in
  add_child hand_node "RobotNode" hand_gcp_node.

(** ** The tree emitter *)

(** [add_link_node_] up to, and without, [hand_node.add_child]: the node of
    one link. *)
Definition build_link_node (self : UrdfToSimoxXml) (link : Link) : result ptree :=
  let link_node := put empty_ptree "<xmlattr>.name" (link_name link) in
  visual <- deref (visual link) ;;
  let pose := origin visual in
  let Translation_node := set_translation_node_ empty_ptree (position pose) in
  let rollpitchyaw_node := set_rollpitchyaw_node_ empty_ptree (rotation pose) in
  let Transform_node := add_child empty_ptree "Translation" Translation_node in
  let Transform_node := add_child Transform_node "rollpitchyaw" rollpitchyaw_node in
  let link_node := add_child link_node "Transform" Transform_node in
  let geometry := geometry visual in
  match gtype geometry with
  | MESH =>
      let mesh := geometry in
      let Visualization_File_node := put empty_ptree "<xmlattr>.type" "Inventor" in
      file <- convert_mesh_ (output_dir_ self) (filename mesh) ;;
      let Visualization_File_node := put Visualization_File_node "<xmltext>" file in
      let Visualization_node := put empty_ptree "<xmlattr>.enable" "true" in
      let Visualization_node := add_child Visualization_node "File" Visualization_File_node in
      let link_node := add_child link_node "Visualization" Visualization_node in
      let CollisionModel_File_node := put empty_ptree "<xmlattr>.type" "Inventor" in
      file <- convert_mesh_ (output_dir_ self) (filename mesh) ;;
      let CollisionModel_File_node := put CollisionModel_File_node "<xmltext>" file in
      let CollisionModel_node := add_child empty_ptree "File" CollisionModel_File_node in
      let link_node := add_child link_node "CollisionModel" CollisionModel_node in
      let link_node :=
        fold_left
          (fun link_node child_joint =>
             let Child_node := put empty_ptree "<xmlattr>.name" (joint_name child_joint) in
             add_child link_node "Child" Child_node)
          (child_joints link) link_node in
      Ok link_node
  | _ => Err UnsupportedGeometry
  end.

(** [add_joint_node_] up to, and without, [hand_node.add_child]: the node of
    one joint, and the link [getLink] found for it. *)
Definition build_joint_node (self : UrdfToSimoxXml) (child_joint : Joint)
  : result (ptree * Link) :=
  let child_joint_node := put empty_ptree "<xmlattr>.name" (joint_name child_joint) in
  let pose := parent_to_joint_origin_transform child_joint in
  let Translation_node := set_translation_node_ empty_ptree (position pose) in
  let rollpitchyaw_node := set_rollpitchyaw_node_ empty_ptree (rotation pose) in
  let Transform_node := add_child empty_ptree "Translation" Translation_node in
  let Transform_node := add_child Transform_node "rollpitchyaw" rollpitchyaw_node in
  let child_joint_node := add_child child_joint_node "Transform" Transform_node in
  child_joint_node <-
    match joint_type child_joint with
    | REVOLUTE =>
        let Axis_node := set_axis_node_ empty_ptree (axis child_joint) in
        Limits_node <- set_joint_limits_node_ empty_ptree (limits child_joint) ;;
        let Joint_node := put empty_ptree "<xmlattr>.type" "revolute" in
        let Joint_node := add_child Joint_node "Axis" Axis_node in
        let Joint_node := add_child Joint_node "Limits" Limits_node in
        Ok (add_child child_joint_node "Joint" Joint_node)
    | FIXED =>
        let Joint_node := put empty_ptree "<xmlattr>.type" "fixed" in
        Ok (add_child child_joint_node "Joint" Joint_node)
    | _ => Err UnsupportedJointType
    end ;;
  child_link <- deref (getLink (urdf_model_ self) (child_link_name child_joint)) ;;
  let Child_node := put empty_ptree "<xmlattr>.name" (link_name child_link) in
  let child_joint_node := add_child child_joint_node "Child" Child_node in
  Ok (child_joint_node, child_link).

(** The two functions call each other along the model's name references;
    [fuel] bounds the depth of the calls. *)
Fixpoint add_link_node_ (fuel : nat) (self : UrdfToSimoxXml) (hand_node : ptree)
    (link : Link) {struct fuel} : result ptree :=
  match fuel with
  | O => Err OutOfFuel
  | S fuel' =>
      link_node <- build_link_node self link ;;
      let hand_node := add_child hand_node "RobotNode" link_node in
      foreach (fun hand_node child_joint =>
                 add_joint_node_ fuel' self hand_node child_joint)
              (child_joints link) hand_node
  end
with add_joint_node_ (fuel : nat) (self : UrdfToSimoxXml) (hand_node : ptree)
    (child_joint : Joint) {struct fuel} : result ptree :=
  match fuel with
  | O => Err OutOfFuel
  | S fuel' =>
      built <- build_joint_node self child_joint ;;
      let '(child_joint_node, child_link) := built in
      let hand_node := add_child hand_node "RobotNode" child_joint_node in
      add_link_node_ fuel' self hand_node child_link
  end.

(** ** The actor classifier *)

(** [static_cast<int>(c)] and [static_cast<char>(i)] *)
Definition char_to_int (c : ascii) : Z :=
  let n := Z.of_nat (nat_of_ascii c) in
  if char_signed && (128 <=? n)%Z then (n - 256)%Z else n.

Definition int_to_char (i : Z) : ascii :=
  ascii_of_nat (Z.to_nat (i mod 256)).

Definition get_actors (self : UrdfToSimoxXml) (actors : int_map) : result int_map :=
  let actors : int_map := [] in
  foreach (fun (actors : int_map) joint =>
             first_char <- Str.at0 (joint_name joint) ;;
             let first_int := char_to_int first_char in
             match map_find first_int actors with
             | None => Ok (map_set first_int true actors)
             | Some _ => Ok actors
             end)
          (joints_ self) actors.

(** ** The document assembler *)

Definition string_of_char (c : ascii) : string := String c EmptyString.

(** One [Actor] node: the links, then the joints, whose name starts with
    [actor_name]. *)
Definition build_actor_node (self : UrdfToSimoxXml) (actor_name : ascii) : result ptree :=
  let Actor_node := put empty_ptree "<xmlattr>.name" (string_of_char actor_name) in
  let Actor_node :=
    put Actor_node "<xmlcomment>" "This is just a template. Please set values manually!" in
  let Actor_node :=
    put Actor_node "<xmlcomment>" "Note that considerCollisions = None, Actors, or All!" in
  Actor_node <-
    foreach (fun Actor_node link =>
               first_char <- Str.at0 (link_name link) ;;
               if Ascii.eqb actor_name first_char then
                 let Node_node := put empty_ptree "<xmlattr>.name" (link_name link) in
                 let Node_node := put Node_node "<xmlattr>.considerCollisions" "None" in
                 Ok (add_child Actor_node "Node" Node_node)
               else Ok Actor_node)
            (links_ self) Actor_node ;;
  foreach (fun Actor_node joint =>
             first_char <- Str.at0 (joint_name joint) ;;
             if Ascii.eqb actor_name first_char then
               let Node_node := put empty_ptree "<xmlattr>.name" (joint_name joint) in
               let Node_node := put Node_node "<xmlattr>.considerCollisions" "None" in
               Ok (add_child Actor_node "Node" Node_node)
             else Ok Actor_node)
          (joints_ self) Actor_node.

Definition add_endeffector_node_ (self : UrdfToSimoxXml) (hand_node : ptree)
    (hand_name_upper hand_base hand_tcp hand_gcp base_link : string) : result ptree :=
  let Endeffector_node :=
    put empty_ptree "<xmlcomment>" "This node is for Simox (e.g., GraspPlanner in Simox)!" in
  let Endeffector_node := put Endeffector_node "<xmlattr>.name" hand_name_upper in
  let Endeffector_node := put Endeffector_node "<xmlattr>.base" hand_base in
  let Endeffector_node := put Endeffector_node "<xmlattr>.tcp" hand_tcp in
  let Endeffector_node := put Endeffector_node "<xmlattr>.gcp" hand_gcp in
  let Preshape_node := put empty_ptree "<xmlattr>.name" "Grasp Preshape" in
  let Preshape_node :=
    put Preshape_node "<xmlcomment>" "This is just a template. Please set values manually!" in
  let Preshape_node :=
    fold_left
      (fun Preshape_node joint =>
         let Node_node := put empty_ptree "<xmlattr>.name" (joint_name joint) in
         let Node_node := put Node_node "<xmlattr>.unit" "radian" in
         let Node_node := put Node_node "<xmlattr>.value" "0.0" in
         add_child Preshape_node "Node" Node_node)
      (joints_ self) Preshape_node in
  let Endeffector_node := add_child Endeffector_node "Preshape" Preshape_node in
  let Endeffector_node :=
    let Node_node := put empty_ptree "<xmlattr>.name" base_link in
    let Static_node := add_child empty_ptree "Node" Node_node in
    add_child Endeffector_node "Static" Static_node in
  actors <- get_actors self [] ;;
  Endeffector_node <-
    foreach (fun Endeffector_node (iter : Z * bool) =>
               let actor_name := int_to_char (fst iter) in
               Actor_node <- build_actor_node self actor_name ;;
               Ok (add_child Endeffector_node "Actor" Actor_node))
            actors Endeffector_node ;;
  Ok (add_child hand_node "Endeffector" Endeffector_node).

Definition add_hand_joints_node_ (self : UrdfToSimoxXml) (hand_node : ptree)
    (hand_name_upper : string) : ptree :=
  let hand_joints_node :=
    put empty_ptree "<xmlcomment>" "This node is for Simox (e.g., GraspPlanner in Simox)!" in
  let hand_joints_node :=
    put hand_joints_node "<xmlattr>.name" (hand_name_upper ++ " Joints") in
  let hand_joints_node :=
    fold_left
      (fun hand_joints_node joint =>
         let Node_node := put empty_ptree "<xmlattr>.name" (joint_name joint) in
         add_child hand_joints_node "Node" Node_node)
      (joints_ self) hand_joints_node in
  add_child hand_node "RobotNodeSet" hand_joints_node.

(** [write_xml]: the path of the file written and the tree written to it.
    [links_[0]] is read after the filename has been checked; the constructor
    has made sure that there is such a link. *)
Definition write_xml (fuel : nat) (self : UrdfToSimoxXml)
    (output_dir simox_xml_filename : string) : result (string * ptree) :=
  let stringList := Str.iter_split "." simox_xml_filename in
  if negb (List.length stringList =? 2)%nat then Err MalformedOutputName
  else
    let hand_name := hd "" stringList in
    let hand_name_upper := Str.to_upper_copy hand_name in
    let hand_name_lower := Str.to_lower_copy hand_name in
    let pt := empty_ptree in
    let hand_base := hand_name_lower ++ "_hand_base" in
    let hand_tcp := hand_name_lower ++ "_hand_tcp" in
    let hand_gcp := hand_name_lower ++ "_hand_gcp" in
    link0 <- deref (hd_error (links_ self)) ;;
    let base_link := link_name link0 in
    let hand_node := put empty_ptree "<xmlattr>.Type" hand_name_upper in
    let hand_node := put hand_node "<xmlattr>.RootNode" hand_base in
    let hand_node := add_hand_base_node_ hand_node hand_base hand_tcp hand_gcp base_link in
    let hand_node := add_hand_tcp_node_ hand_node hand_tcp in
    let hand_node := add_hand_gcp_node_ hand_node hand_gcp in
    hand_node <- add_link_node_ fuel self hand_node link0 ;;
    hand_node <- add_endeffector_node_ self hand_node hand_name_upper
                   hand_base hand_tcp hand_gcp base_link ;;
    let hand_node := add_hand_joints_node_ self hand_node hand_name_upper in
    let pt := add_child pt "Robot" hand_node in
    let simox_xml_file := output_dir ++ "/" ++ simox_xml_filename in
    Ok (simox_xml_file, pt).

End Engine.

(* ================================================================== *)
(** * Kinematic trees *)

(** The model unfolded from a link: the link, and under each of its child
    joints the tree of the link the joint leads to. *)
#[warnings="-register-all"]
Inductive KTree : Type :=
| KNode (link : Link) (branches : list (Joint * KTree)).

Definition root_link (t : KTree) : Link := let 'KNode l _ := t in l.

(** [t] is an unfolding of the model's relations: the branches of a node are
    the link's child joints, in their order, each over the link it names. *)
#[warnings="-register-all"]
Inductive tree_shaped : KTree -> Prop :=
| tree_shaped_node (l : Link) (bs : list (Joint * KTree)) :
    child_joints l = map fst bs ->
    Forall (fun b => child_link_name (fst b) = link_name (root_link (snd b))) bs ->
    Forall (fun b => tree_shaped (snd b)) bs ->
    tree_shaped (KNode l bs).

Fixpoint tree_links (t : KTree) : list Link :=
  match t with
  | KNode l bs => l :: flat_map (fun b => tree_links (snd b)) bs
  end.

Fixpoint tree_joints (t : KTree) : list Joint :=
  match t with
  | KNode l bs => flat_map (fun b => fst b :: tree_joints (snd b)) bs
  end.

(** The names the emitter defines for [t], in emission order: the link, then
    for each child joint the joint and what its link emits. *)
Fixpoint tree_names (t : KTree) : list string :=
  match t with
  | KNode l bs =>
      link_name l
        :: flat_map (fun b => joint_name (fst b) :: tree_names (snd b)) bs
  end.

Definition joint_names (js : list Joint) : list string := map joint_name js.
Definition link_names (ls : list Link) : list string := map link_name ls.

Definition nonempty_names (names : list string) : Prop :=
  Forall (fun n => n <> "") names.

Definition is_nonempty (name : string) : bool :=
  match name with
  | EmptyString => false
  | String _ _ => true
  end.

(** A well-formed kinematic tree: the links of the model, whose names are
    distinct, are those of a tree-shaped unfolding from a root, once each;
    joint names are distinct. *)
Definition well_formed (m : Model) (t : KTree) : Prop :=
  tree_shaped t /\
  Permutation (model_links m) (tree_links t) /\
  NoDup (map link_name (model_links m)) /\
  NoDup (map joint_name (tree_joints t)).

(** The subset the engine supports. *)
Definition supported_joint (j : Joint) : Prop :=
  joint_type j = FIXED \/ (joint_type j = REVOLUTE /\ limits j <> None).

(** A link the engine can emit: it has a visual, the visual's geometry is a
    mesh, and the mesh delegate returns for the mesh's reference. *)
Definition supported_link (getPath : string -> string)
    (meshlabserver : string -> list string * Z) (fs_exists : string -> bool)
    (output_dir : string) (l : Link) : Prop :=
  exists v file,
    visual l = Some v /\ gtype (geometry v) = MESH /\
    convert_mesh_ getPath meshlabserver fs_exists output_dir (filename (geometry v))
    = Ok file.


(* ================================================================== *)
(** * Reading the emitted document *)

Definition robot_of (pt : ptree) : ptree :=
  match get_child "Robot" (children_of pt) with
  | Some r => r
  | None => empty_ptree
  end.

(** The structural nodes, in document order. *)
Definition robot_nodes (pt : ptree) : list ptree :=
  children_tagged "RobotNode" (robot_of pt).

(** A link-node carries a [Visualization], a joint-node a [Joint]; the three
    synthetic nodes carry neither. *)
Definition is_link_node (n : ptree) : bool := has_child "Visualization" n.
Definition is_joint_node (n : ptree) : bool := has_child "Joint" n.
Definition is_synthetic_node (n : ptree) : bool :=
  negb (is_link_node n) && negb (is_joint_node n).

Definition child_refs (n : ptree) : list string :=
  map name_of (children_tagged "Child" n).

(** The first child with a tag, the empty tree when there is none. *)
Definition sub (n : ptree) (tag : string) : ptree :=
  match get_child tag (children_of n) with
  | Some c => c
  | None => empty_ptree
  end.

Definition axis_of (n : ptree) : ptree := sub (sub n "Joint") "Axis".
Definition limits_of (n : ptree) : ptree := sub (sub n "Joint") "Limits".

(** What one structural node says: its name, the names its [Child] entries
    refer to, whether it is a link-node, whether it is a joint-node, and the
    axis (x, y, z) and limit (lo, hi) attributes of its joint payload. *)
Record summary : Type := {
  s_name : string;
  s_refs : list string;
  s_link : bool;
  s_joint : bool;
  s_axis : list (option string);
  s_limits : list (option string)
}.

Definition summary_of (n : ptree) : summary :=
  {| s_name := name_of n;
     s_refs := child_refs n;
     s_link := is_link_node n;
     s_joint := is_joint_node n;
     s_axis := [attr (axis_of n) "x"; attr (axis_of n) "y"; attr (axis_of n) "z"];
     s_limits := [attr (limits_of n) "lo"; attr (limits_of n) "hi"] |}.

Definition link_summary (l : Link) : summary :=
  {| s_name := link_name l;
     s_refs := map joint_name (child_joints l);
     s_link := true;
     s_joint := false;
     s_axis := [None; None; None];
     s_limits := [None; None] |}.

Definition joint_summary (j : Joint) (child : string) : summary :=
  {| s_name := joint_name j;
     s_refs := [child];
     s_link := false;
     s_joint := true;
     s_axis :=
       match joint_type j with
       | REVOLUTE => [Some (to_string_ (vx (axis j)));
                      Some (to_string_ (vy (axis j)));
                      Some (to_string_ (vz (axis j)))]
       | _ => [None; None; None]
       end;
     s_limits :=
       match joint_type j, limits j with
       | REVOLUTE, Some lim => [Some (to_string_ (lower lim)); Some (to_string_ (upper lim))]
       | _, _ => [None; None]
       end |}.

(** What the three synthetic nodes say. *)
Definition synthetic_summary (name : string) (refs : list string) : summary :=
  {| s_name := name;
     s_refs := refs;
     s_link := false;
     s_joint := false;
     s_axis := [None; None; None];
     s_limits := [None; None] |}.

Fixpoint tree_summary (t : KTree) : list summary :=
  match t with
  | KNode l bs =>
      link_summary l
        :: flat_map (fun b =>
                       joint_summary (fst b) (link_name (root_link (snd b)))
                         :: tree_summary (snd b))
                    bs
  end.

Definition endeffector_nodes (pt : ptree) : list ptree :=
  children_tagged "Endeffector" (robot_of pt).

Definition node_set_nodes (pt : ptree) : list ptree :=
  children_tagged "RobotNodeSet" (robot_of pt).

(** The [Node] members of a grouping node. *)
Definition member_names (n : ptree) : list string :=
  map name_of (children_tagged "Node" n).

Definition attr_or_empty (n : ptree) (a : string) : string :=
  match attr n a with
  | Some v => v
  | None => ""
  end.

Definition actor_nodes (e : ptree) : list ptree := children_tagged "Actor" e.

(** The group keys of the end-effector node, in document order. *)
Definition actor_keys (e : ptree) : list string := map name_of (actor_nodes e).

Definition endeffector_refs (e : ptree) : list string :=
  ([attr_or_empty e "base"; attr_or_empty e "tcp"; attr_or_empty e "gcp"]
     ++ flat_map member_names (children_tagged "Preshape" e)
     ++ flat_map member_names (children_tagged "Static" e)
     ++ flat_map member_names (actor_nodes e))%list.

(** Every reference to a structural node by name in the document. *)
Definition references (pt : ptree) : list string :=
  (flat_map child_refs (robot_nodes pt)
     ++ flat_map endeffector_refs (endeffector_nodes pt)
     ++ flat_map member_names (node_set_nodes pt))%list.

(** The names the document defines, one per structural node. *)
Definition defined_names (pt : ptree) : list string :=
  map name_of (robot_nodes pt).

Definition defined_once (pt : ptree) (r : string) : Prop :=
  count_occ string_dec (defined_names pt) r = 1.


(* ================================================================== *)
(** * What the assembler derives and builds *)

(** The hand identity [write_xml] takes from the output filename. *)
Definition hand_lower (simox_xml_filename : string) : string :=
  Str.to_lower_copy (hd "" (Str.iter_split "." simox_xml_filename)).

Definition hand_upper (simox_xml_filename : string) : string :=
  Str.to_upper_copy (hd "" (Str.iter_split "." simox_xml_filename)).

Definition synthetic_names (simox_xml_filename : string) : list string :=
  [hand_lower simox_xml_filename ++ "_hand_base";
   hand_lower simox_xml_filename ++ "_hand_tcp";
   hand_lower simox_xml_filename ++ "_hand_gcp"].

(** The tree under [hand_node] after [ns] has been added to it. *)
Definition appended (hand_node : ptree) (ns : list (string * ptree)) : ptree :=
  PT (data_of hand_node) (children_of hand_node ++ ns)%list.

(** [name] starts with the character [c]; an empty name starts with none. *)
Definition starts_with (c : ascii) (name : string) : bool :=
  match name with
  | EmptyString => false
  | String c' _ => Ascii.eqb c c'
  end.

(** The member entries and the head of an actor group. *)
Definition link_member (link : Link) : ptree :=
  put (put empty_ptree "<xmlattr>.name" (link_name link))
      "<xmlattr>.considerCollisions" "None".

Definition joint_member (joint : Joint) : ptree :=
  put (put empty_ptree "<xmlattr>.name" (joint_name joint))
      "<xmlattr>.considerCollisions" "None".

Definition actor_head (actor_name : ascii) : list (string * ptree) :=
  [("<xmlattr>", PT "" [("name", PT (string_of_char actor_name) [])]);
   ("<xmlcomment>", PT "Note that considerCollisions = None, Actors, or All!" [])].


(* ================================================================== *)
(** * The classifier's keys and the order of first observation *)

(** The map [get_actors] builds from the keys it meets, in their order. *)
Definition classify_step (actors : int_map) (k : Z) : int_map :=
  match map_find k actors with
  | None => map_set k true actors
  | Some _ => actors
  end.

Definition classify (keys : list Z) : int_map := fold_left classify_step keys [].

(** The distinct elements of [l], each at the place of its first
    occurrence. *)
Fixpoint first_observed_from {A : Type} (eqb : A -> A -> bool) (seen l : list A) : list A :=
  match l with
  | [] => []
  | x :: r =>
      if existsb (eqb x) seen then first_observed_from eqb seen r
      else x :: first_observed_from eqb (x :: seen) r
  end.

Definition first_observed {A : Type} (eqb : A -> A -> bool) (l : list A) : list A :=
  first_observed_from eqb [] l.

(** First characters of names; [None] stands for the empty name. *)
Definition first_char (s : string) : option ascii :=
  match s with
  | EmptyString => None
  | String c _ => Some c
  end.

Fixpoint first_chars (names : list string) : list ascii :=
  match names with
  | [] => []
  | n :: r =>
      match first_char n with
      | Some c => c :: first_chars r
      | None => first_chars r
      end
  end.

(** A joint list in the order [std::sort] with [compareUrdfJoint] leaves: no
    name is smaller than the one before it. *)
Definition sorted_by_name (js : list Joint) : Prop :=
  Sorted (fun j1 j2 => compareUrdfJoint j2 j1 = false) js.

Definition is_ascii7 (c : ascii) : Prop := nat_of_ascii c < 128.


(* ================================================================== *)
(** * Characters and numerals *)

(** Occurrences of a character. *)
Fixpoint occurrences (c : ascii) (s : string) : nat :=
  match s with
  | EmptyString => 0
  | String a r => (if Ascii.eqb a c then 1 else 0) + occurrences c r
  end.

(** Decimal digits. *)
Definition is_digit (c : ascii) : bool :=
  let n := nat_of_ascii c in (48 <=? n)%nat && (n <=? 57)%nat.

Fixpoint all_digits (s : string) : bool :=
  match s with
  | EmptyString => true
  | String c r => is_digit c && all_digits r
  end.

Definition sign_of (x : double) : bool :=
  match x with
  | B754_zero s | B754_infinity s | B754_nan s | B754_finite s _ _ => s
  end.


(* ================================================================== *)
(** * Sample surroundings and inputs *)

Definition sample_getPath (package_name : string) : string :=
  "/opt/ros/share/" ++ package_name.

(** A meshlabserver run that reports nothing alarming, and one that reports
    a mesh without normals; both leave with status zero. *)
Definition quiet_meshlabserver (command : string) : list string * Z :=
  (["Loading Plugins:"; "Mesh base_link.STL loaded has 8 vn 12 fn"; "Mesh saved"], 0%Z).

Definition failing_meshlabserver (command : string) : list string * Z :=
  (["Loading Plugins:"; "Mesh base_link.STL loaded has 0 vn 0 fn"; "Mesh saved"], 0%Z).

Definition sample_fs_exists (path : string) : bool := true.

Definition sample_getRPY (r : Rotation) : double * double * double :=
  (d_0_0, d_0_0, d_0_0).

Definition sample_mesh_reference : string :=
  "package://dms_description/meshes/base_link.STL".

(** A reference that holds the scheme, but not at its start. *)
Definition misplaced_prefix_reference : string :=
  "xpackage://dms_description/meshes/base_link.STL".

(** A converter over a model without links: any access to [links_[0]] would
    end its run. *)
Definition empty_converter : UrdfToSimoxXml :=
  {| urdf_model_ := {| model_links := [] |};
     output_dir_ := "/out";
     links_ := [];
     joints_ := [] |}.


(* ================================================================== *)
(** * Sample models *)

(** Each model lists its links in name order, the order [getLinks] hands
    them out in. *)

Definition zero_vector : Vector3 := {| vx := d_0_0; vy := d_0_0; vz := d_0_0 |}.

Definition identity_rotation : Rotation :=
  {| qx := d_0_0; qy := d_0_0; qz := d_0_0; qw := d_1_0 |}.

Definition identity_pose : Pose :=
  {| position := zero_vector; rotation := identity_rotation |}.

(** A revolute joint about z with limits [-1.57, 1.57]. *)
Definition revolute_joint (name child : string) : Joint :=
  {| joint_name := name;
     joint_type := REVOLUTE;
     parent_to_joint_origin_transform := identity_pose;
     axis := {| vx := d_0_0; vy := d_0_0; vz := d_1_0 |};
     limits := Some {| lower := d_m1_57; upper := d_1_57 |};
     child_link_name := child |}.

Definition mesh_link (name : string) (joints : list Joint) : Link :=
  {| link_name := name;
     visual := Some {| origin := identity_pose;
                       geometry := {| gtype := MESH;
                                      filename := "package://dms_description/meshes/"
                                                    ++ name ++ ".STL" |} |};
     child_joints := joints |}.

(** The scenario: two links, one revolute joint about z within
    [-1.57, 1.57]. *)
Definition dms_model : Model :=
  {| model_links :=
       [mesh_link "base_link" [revolute_joint "finger_joint" "finger_link"];
        mesh_link "finger_link" []] |}.

Definition dms_tree : KTree :=
  KNode (mesh_link "base_link" [revolute_joint "finger_joint" "finger_link"])
        [(revolute_joint "finger_joint" "finger_link",
          KNode (mesh_link "finger_link" []) [])].

Definition dms_converter : UrdfToSimoxXml :=
  {| urdf_model_ := dms_model;
     output_dir_ := "/out";
     links_ := model_links dms_model;
     joints_ := sort_joints (flat_map child_joints (model_links dms_model)) |}.

Definition sample_write_xml (self : UrdfToSimoxXml) (simox_xml_filename : string)
  : result (string * ptree) :=
  write_xml true sample_getPath quiet_meshlabserver sample_fs_exists sample_getRPY
    4 self "/out" simox_xml_filename.

(** A palm with a thumb, a first finger and a middle finger, declared in
    that order. *)
Definition hand_base_link : Link :=
  mesh_link "base_link"
    [revolute_joint "t_joint" "t_link";
     revolute_joint "f_joint" "f_link";
     revolute_joint "m_joint" "m_link"].

Definition hand_model : Model :=
  {| model_links :=
       [hand_base_link; mesh_link "f_link" []; mesh_link "m_link" [];
        mesh_link "t_link" []] |}.

Definition hand_converter : UrdfToSimoxXml :=
  {| urdf_model_ := hand_model;
     output_dir_ := "/out";
     links_ := model_links hand_model;
     joints_ := sort_joints (flat_map child_joints (model_links hand_model)) |}.

(** The same joints in declaration order: not what the constructor leaves. *)
Definition unsorted_converter : UrdfToSimoxXml :=
  {| urdf_model_ := hand_model;
     output_dir_ := "/out";
     links_ := model_links hand_model;
     joints_ := flat_map child_joints (model_links hand_model) |}.

(** A model with a joint whose name starts with a byte above 127 (the first
    byte of a UTF-8 accented letter). *)
Definition accented_name : string :=
  String (ascii_of_nat 195) (String (ascii_of_nat 169) "paule").

Definition accented_model : Model :=
  {| model_links :=
       [mesh_link "base_link"
          [revolute_joint "coude" "c_link"; revolute_joint accented_name "e_link"];
        mesh_link "c_link" []; mesh_link "e_link" []] |}.

(** A model whose links [getLinks] hands out in name order, root last: the
    palm carries the finger. *)
Definition reversed_model : Model :=
  {| model_links :=
       [mesh_link "finger" [];
        mesh_link "palm" [revolute_joint "knuckle" "finger"]] |}.

Definition reversed_tree : KTree :=
  KNode (mesh_link "palm" [revolute_joint "knuckle" "finger"])
        [(revolute_joint "knuckle" "finger", KNode (mesh_link "finger" []) [])].

Definition reversed_converter : UrdfToSimoxXml :=
  {| urdf_model_ := reversed_model;
     output_dir_ := "/out";
     links_ := model_links reversed_model;
     joints_ := sort_joints (flat_map child_joints (model_links reversed_model)) |}.

(** A model in which a joint bears the name of the link it leads to. *)
Definition clashing_model : Model :=
  {| model_links :=
       [mesh_link "base_link" [revolute_joint "finger" "finger"];
        mesh_link "finger" []] |}.

Definition clashing_tree : KTree :=
  KNode (mesh_link "base_link" [revolute_joint "finger" "finger"])
        [(revolute_joint "finger" "finger", KNode (mesh_link "finger" []) [])].

Definition clashing_converter : UrdfToSimoxXml :=
  {| urdf_model_ := clashing_model;
     output_dir_ := "/out";
     links_ := model_links clashing_model;
     joints_ := sort_joints (flat_map child_joints (model_links clashing_model)) |}.


(* ================================================================== *)
(** * Proof automation for the sample models *)

Ltac solve_names :=
  repeat constructor; simpl; try discriminate; intuition discriminate.

Ltac solve_supported_links :=
  repeat (apply Forall_cons; [eexists; eexists; split; [reflexivity | split; reflexivity]|]);
  apply Forall_nil.

Ltac solve_supported_joints :=
  repeat (apply Forall_cons; [right; split; [reflexivity | discriminate]|]);
  apply Forall_nil.

Ltac solve_tree_shaped :=
  repeat (first [ apply tree_shaped_node; [reflexivity | |]
                | apply Forall_cons; [first [reflexivity | idtac]|]
                | apply Forall_nil ]).


(* ================================================================== *)
(** * Reading a structural node back *)

(** The text of an element. *)
Definition text_of (n : ptree) : string := data_of (sub n "<xmltext>").

Definition visualization_file (n : ptree) : string :=
  text_of (sub (sub n "Visualization") "File").

Definition collision_file (n : ptree) : string :=
  text_of (sub (sub n "CollisionModel") "File").

Definition translation_of (n : ptree) : ptree := sub (sub n "Transform") "Translation".
Definition rollpitchyaw_of (n : ptree) : ptree := sub (sub n "Transform") "rollpitchyaw".

(** The attributes of the [Transform] of a node: of its [Translation], then
    of its [rollpitchyaw]. *)
Definition transform_attrs (n : ptree) : list (option string) * list (option string) :=
  (map (attr (translation_of n)) ["x"; "y"; "z"; "unitsLength"],
   map (attr (rollpitchyaw_of n)) ["roll"; "pitch"; "yaw"; "unitsAngle"]).

(** A pose as the engine writes it. *)
Definition rendered_pose (getRPY : Rotation -> double * double * double) (pose : Pose)
  : list (option string) * list (option string) :=
  ([Some (to_string_ (vx (position pose))); Some (to_string_ (vy (position pose)));
    Some (to_string_ (vz (position pose))); Some "m"],
   let '(roll, pitch, yaw) := getRPY (rotation pose) in
   [Some (to_string_ roll); Some (to_string_ pitch); Some (to_string_ yaw); Some "radian"]).

(* ================================================================== *)
(** * What stops the emitter *)

(** What stops the emitter at one link, if anything does. *)
Definition link_error (getPath : string -> string)
    (meshlabserver : string -> list string * Z) (fs_exists : string -> bool)
    (output_dir : string) (l : Link) : option error :=
  match visual l with
  | None => Some NullDereference
  | Some v =>
      match gtype (geometry v) with
      | MESH =>
          match convert_mesh_ getPath meshlabserver fs_exists output_dir
                  (filename (geometry v)) with
          | Ok _ => None
          | Err e => Some e
          end
      | _ => Some UnsupportedGeometry
      end
  end.

(** What stops the emitter at one joint whose child link the model knows. *)
Definition joint_error (j : Joint) : option error :=
  match joint_type j with
  | REVOLUTE =>
      match limits j with
      | Some _ => None
      | None => Some NullDereference
      end
  | FIXED => None
  | _ => Some UnsupportedJointType
  end.

(** The first stop on a walk of the tree that visits a link, then for each
    of its joints in declaration order the joint and the tree below it. *)
Fixpoint first_error (link_err : Link -> option error) (t : KTree) : option error :=
  match t with
  | KNode l bs =>
      match link_err l with
      | Some e => Some e
      | None =>
          (fix branches (bs : list (Joint * KTree)) : option error :=
             match bs with
             | [] => None
             | b :: bs' =>
                 match joint_error (fst b) with
                 | Some e => Some e
                 | None =>
                     match first_error link_err (snd b) with
                     | Some e => Some e
                     | None => branches bs'
                     end
                 end
             end) bs
      end
  end.

(** The same walk over the branches of a node. *)
Fixpoint first_branch_error (link_err : Link -> option error)
    (bs : list (Joint * KTree)) : option error :=
  match bs with
  | [] => None
  | b :: bs' =>
      match joint_error (fst b) with
      | Some e => Some e
      | None =>
          match first_error link_err (snd b) with
          | Some e => Some e
          | None => first_branch_error link_err bs'
          end
      end
  end.

(* ================================================================== *)
(** * Further sample models *)

(** A slider: the palm carries the finger on a prismatic joint. *)
Definition prismatic_joint (name child : string) : Joint :=
  {| joint_name := name;
     joint_type := PRISMATIC;
     parent_to_joint_origin_transform := identity_pose;
     axis := {| vx := d_0_0; vy := d_0_0; vz := d_1_0 |};
     limits := Some {| lower := d_0_0; upper := d_0_07 |};
     child_link_name := child |}.

Definition slider_model : Model :=
  {| model_links :=
       [mesh_link "base_link" [revolute_joint "finger_joint" "finger_link"];
        mesh_link "finger_link" [prismatic_joint "tip_joint" "tip_link"];
        mesh_link "tip_link" []] |}.

Definition slider_tree : KTree :=
  KNode (mesh_link "base_link" [revolute_joint "finger_joint" "finger_link"])
        [(revolute_joint "finger_joint" "finger_link",
          KNode (mesh_link "finger_link" [prismatic_joint "tip_joint" "tip_link"])
                [(prismatic_joint "tip_joint" "tip_link",
                  KNode (mesh_link "tip_link" []) [])])].

Definition slider_converter : UrdfToSimoxXml :=
  {| urdf_model_ := slider_model;
     output_dir_ := "/out";
     links_ := model_links slider_model;
     joints_ := sort_joints (flat_map child_joints (model_links slider_model)) |}.

Definition hand_tree : KTree :=
  KNode hand_base_link
        [(revolute_joint "t_joint" "t_link", KNode (mesh_link "t_link" []) []);
         (revolute_joint "f_joint" "f_link", KNode (mesh_link "f_link" []) []);
         (revolute_joint "m_joint" "m_link", KNode (mesh_link "m_link" []) [])].

(* ================================================================== *)
(** * The parts of the document *)

(** [hand_node] in [write_xml] when the emitter is called: the two
    attributes and the three synthetic nodes. *)
Definition hand_trunk (simox_xml_filename base_link : string) : ptree :=
  let hand_base := hand_lower simox_xml_filename ++ "_hand_base" in
  let hand_tcp := hand_lower simox_xml_filename ++ "_hand_tcp" in
  let hand_gcp := hand_lower simox_xml_filename ++ "_hand_gcp" in
  let hand_node := put empty_ptree "<xmlattr>.Type" (hand_upper simox_xml_filename) in
  let hand_node := put hand_node "<xmlattr>.RootNode" hand_base in
  let hand_node := add_hand_base_node_ hand_node hand_base hand_tcp hand_gcp base_link in
  let hand_node := add_hand_tcp_node_ hand_node hand_tcp in
  add_hand_gcp_node_ hand_node hand_gcp.

(** The tags of the elements under a node, in document order. *)
Definition child_tags (n : ptree) : list string :=
  filter (fun k => negb (String.eqb k "<xmlattr>") && negb (String.eqb k "<xmlcomment>"))
         (map fst (children_of n)).

(** What an entry of the preshape says. *)
Definition preshape_entry (n : ptree) : string * option string * option string :=
  (name_of n, attr n "unit", attr n "value").

(** A palm without fingers whose only link has no name. *)
Definition nameless_model : Model :=
  {| model_links := [mesh_link "" []] |}.

Definition nameless_converter : UrdfToSimoxXml :=
  {| urdf_model_ := nameless_model;
     output_dir_ := "/out";
     links_ := model_links nameless_model;
     joints_ := [] |}.

(* ================================================================== *)
(** * The numeral as a number of thousandths *)

(** The signed number of thousandths [to_string_] writes for a finite
    double. *)
Definition thousandths_of (x : double) : Z :=
  match x with
  | B754_finite s m e =>
      if s then (- Z.of_N (round_thousandths m e))%Z else Z.of_N (round_thousandths m e)
  | _ => 0%Z
  end.

(* ================================================================== *)
(** * A model that is no tree *)

(** A model whose only joint leads back to the link that carries it. *)
Definition looping_model : Model :=
  {| model_links := [mesh_link "a_link" [revolute_joint "a_joint" "a_link"]] |}.

Definition looping_converter : UrdfToSimoxXml :=
  {| urdf_model_ := looping_model;
     output_dir_ := "/out";
     links_ := model_links looping_model;
     joints_ := sort_joints (flat_map child_joints (model_links looping_model)) |}.

(* ================================================================== *)
(** * A link and a joint that are not at the origin *)

(** A pose away from the origin, not rotated. *)
Definition offset_pose : Pose :=
  {| position := {| vx := d_m0_01; vy := d_m0_035; vz := d_0_07 |};
     rotation := identity_rotation |}.

Definition offset_joint (name child : string) : Joint :=
  {| joint_name := name;
     joint_type := REVOLUTE;
     parent_to_joint_origin_transform := offset_pose;
     axis := {| vx := d_0_0; vy := d_1_0; vz := d_0_0 |};
     limits := Some {| lower := d_m0_035; upper := d_1_57 |};
     child_link_name := child |}.

Definition offset_link : Link :=
  {| link_name := "base_link";
     visual := Some {| origin := offset_pose;
                       geometry := {| gtype := MESH;
                                      filename := "package://dms_description/meshes/palm.v2.STL" |} |};
     child_joints := [offset_joint "t_joint" "t_link"; revolute_joint "f_joint" "f_link"] |}.

(* ================================================================== *)
(** * Facts about strings *)

Module StrFacts.


Lemma append_assoc (a b c : string) : (a ++ b) ++ c = a ++ (b ++ c).
Proof. induction a as [|x a IH]; simpl; [reflexivity | now rewrite IH]. Qed.

Lemma length_append (a b : string) :
  String.length (a ++ b) = String.length a + String.length b.
Proof. induction a as [|x a IH]; simpl; [reflexivity | now rewrite IH]. Qed.

Lemma prefix_iff (s1 s2 : string) :
  prefix s1 s2 = true <-> exists r, s2 = s1 ++ r.
Proof.
  revert s2; induction s1 as [|a s1 IH]; intros s2.
  - destruct s2; simpl; split; eauto.
  - destruct s2 as [|b s2]; simpl.
    + split; [discriminate | intros [r Hr]; discriminate].
    + destruct (ascii_dec a b) as [->|Hne].
      * rewrite IH. split; intros [r Hr].
        -- exists r. now rewrite Hr.
        -- exists r. now injection Hr.
      * split; [discriminate|]. intros [r Hr]. injection Hr as Hab _.
        now elim Hne.
Qed.

(** [find] answers a position exactly when the pattern occurs. *)
Lemma find_Some_iff_contains (s sub : string) :
  (exists n, Str.find s sub = Some n) <-> Str.contains s sub.
Proof.
  unfold Str.find, Str.contains.
  induction s as [|b s IH].
  - simpl. destruct sub as [|a sub].
    + split; [intros _; now exists "", "" | intros _; now exists 0].
    + split; [intros [n Hn]; discriminate|].
      intros [pre [post H]]. destruct pre; discriminate.
  - cbn [index].
    destruct (prefix sub (String b s)) eqn:Hp.
    + split; [intros _ | intros _; now exists 0].
      apply prefix_iff in Hp. destruct Hp as [r Hr].
      exists "", r. exact Hr.
    + split.
      * intros [n Hn].
        destruct (index 0 sub s) as [k|] eqn:Hk; [|discriminate].
        destruct IH as [IH _]. destruct IH as [pre [post H]]; [now exists k|].
        exists (String b pre), post. simpl. now rewrite H.
      * intros [pre [post H]].
        destruct pre as [|c pre].
        -- simpl in H. assert (prefix sub (String b s) = true) as Hq
             by (apply prefix_iff; now exists post).
           congruence.
        -- simpl in H. injection H as _ H.
           destruct IH as [_ IH]. destruct IH as [k Hk]; [now exists pre, post|].
           rewrite Hk. now exists (S k).
Qed.

Lemma find_None_iff (s sub : string) :
  Str.find s sub = None <-> ~ Str.contains s sub.
Proof.
  rewrite <- find_Some_iff_contains. split.
  - intros H [n Hn]. congruence.
  - intros H. destruct (Str.find s sub) as [n|] eqn:E; [|reflexivity].
    elim H. now exists n.
Qed.

(** [iter_split] yields one segment more than there are separators. *)
Lemma iter_split_length (c : ascii) (s : string) :
  List.length (Str.iter_split c s) = S (occurrences c s).
Proof.
  induction s as [|a s IH]; [reflexivity|].
  simpl. destruct (Ascii.eqb a c); simpl.
  - now rewrite IH.
  - destruct (Str.iter_split c s) as [|seg segs]; simpl in *; [discriminate | exact IH].
Qed.

Lemma iter_split_no_sep (c : ascii) (s : string) :
  occurrences c s = 0 -> Str.iter_split c s = [s].
Proof.
  induction s as [|a s IH]; [reflexivity|].
  simpl. destruct (Ascii.eqb a c); simpl; [discriminate|].
  intros H. now rewrite (IH H).
Qed.

Lemma iter_split_one_sep (c : ascii) (s1 s2 : string) :
  occurrences c s1 = 0 -> occurrences c s2 = 0 ->
  Str.iter_split c (s1 ++ String c s2) = [s1; s2].
Proof.
  intros H1 H2. induction s1 as [|a s1 IH].
  - simpl. rewrite Ascii.eqb_refl. now rewrite (iter_split_no_sep _ _ H2).
  - simpl in *. destruct (Ascii.eqb a c); [discriminate|].
    now rewrite (IH H1).
Qed.

End StrFacts.

(* ================================================================== *)
(** * The mesh delegate *)

Section MeshDelegate.

Variable getPath : string -> string.
Variable meshlabserver : string -> list string * Z.
Variable fs_exists : string -> bool.
Variable output_dir : string.

Local Abbreviation run := (convert_mesh_run getPath meshlabserver fs_exists output_dir).

(** The scan fails exactly when some line holds the signature. *)
Lemma scan_output_Err (lines : list string) :
  Exists (fun str => Str.contains str failure_signature) lines ->
  scan_output lines = Err MeshConversionFailed.
Proof.
  induction lines as [|str rest IH]; intros H.
  - inversion H.
  - simpl. destruct (Str.find str failure_signature) as [n|] eqn:E; [reflexivity|].
    apply StrFacts.find_None_iff in E.
    inversion H; subst; [contradiction | now apply IH].
Qed.

Lemma scan_output_Ok (lines : list string) :
  ~ Exists (fun str => Str.contains str failure_signature) lines ->
  scan_output lines = Ok tt.
Proof.
  induction lines as [|str rest IH]; intros H; [reflexivity|].
  simpl. destruct (Str.find str failure_signature) as [n|] eqn:E.
  - elim H. left. apply StrFacts.find_Some_iff_contains. now exists n.
  - apply IH. intros H'. apply H. now right.
Qed.

(** A reference without the scheme anywhere is refused before any process
    is started. *)
Lemma convert_mesh_no_scheme (urdf_filename : string) :
  ~ Str.contains urdf_filename packagePrefix ->
  run urdf_filename = ([EvExit], Err MalformedMeshReference).
Proof.
  intros H. apply StrFacts.find_None_iff in H.
  unfold convert_mesh_run. now rewrite H.
Qed.

(** So is one whose remainder has fewer than two segments. *)
Lemma convert_mesh_too_short (urdf_filename : string) (pos1 : nat) :
  Str.find urdf_filename packagePrefix = Some pos1 ->
  (List.length (Str.iter_split "/" (Str.erase urdf_filename pos1 10)) < 2)%nat ->
  run urdf_filename = ([EvExit], Err MalformedMeshReference).
Proof.
  intros Hf Hl. unfold run, convert_mesh_run. rewrite Hf.
  change (String.length packagePrefix) with 10.
  apply Nat.ltb_lt in Hl. now rewrite Hl.
Qed.

(** The process is closed on the paths that return, and only on them. *)
Lemma convert_mesh_pclose_iff_returns (urdf_filename : string) :
  In EvPclose (fst (run urdf_filename)) <->
  exists file, snd (run urdf_filename) = Ok file.
Proof.
  unfold convert_mesh_run.
  destruct (Str.find urdf_filename packagePrefix) as [pos1|]; simpl.
  2:{ split; [intros [H|[]]; discriminate | intros [f Hf]; discriminate]. }
  destruct (_ <? 2)%nat; simpl.
  { split; [intros [H|[]]; discriminate | intros [f Hf]; discriminate]. }
  destruct (meshlabserver _) as [lines status].
  destruct (scan_output lines); simpl.
  - split; [eauto|]. intros _. apply in_or_app. right. simpl. auto.
  - split; [|intros [f Hf]; discriminate].
    intros H. apply in_app_or in H. destruct H as [H|H].
    + destruct (fs_exists _); simpl in H; [contradiction|].
      destruct H as [H|[]]. discriminate.
    + simpl in H. destruct H as [H|[H|[]]]; discriminate.
Qed.

End MeshDelegate.

(** C4, at the failing input: meshlabserver reports "loaded has 0 vn" for a
    well-formed reference.  The subprocess has been started, the run ends in
    [exit], and [pclose] is not among its events. *)
Theorem convert_mesh_fatal_path_leaves_process_open
    (getPath : string -> string) (fs_exists : string -> bool) (output_dir : string) :
  let run := convert_mesh_run getPath failing_meshlabserver fs_exists output_dir
               sample_mesh_reference in
  snd run = Err MeshConversionFailed /\
  (exists command, In (EvPopen command) (fst run)) /\
  In EvExit (fst run) /\
  ~ In EvPclose (fst run).
Proof.
  cbv zeta.
  assert (snd (convert_mesh_run getPath failing_meshlabserver fs_exists output_dir
                 sample_mesh_reference) = Err MeshConversionFailed) as Hs.
  { unfold convert_mesh_run.
    change (Str.find sample_mesh_reference packagePrefix) with (Some 0).
    reflexivity. }
  split; [exact Hs|].
  split; [|split].
  - unfold convert_mesh_run.
    change (Str.find sample_mesh_reference packagePrefix) with (Some 0).
    eexists. cbn -[command_of mesh_dir_of]. apply in_or_app. right. left. reflexivity.
  - unfold convert_mesh_run.
    change (Str.find sample_mesh_reference packagePrefix) with (Some 0).
    cbn -[command_of mesh_dir_of]. apply in_or_app. right. right. left. reflexivity.
  - intros H. apply convert_mesh_pclose_iff_returns in H.
    destruct H as [file H]. rewrite Hs in H. discriminate.
Qed.

(** C7, at the failing input: a reference that does not start with
    "package://" but holds it further on is accepted, and the subprocess is
    started for it. *)
Theorem convert_mesh_accepts_misplaced_prefix
    (getPath : string -> string) (meshlabserver : string -> list string * Z)
    (fs_exists : string -> bool) (output_dir : string) :
  let run := convert_mesh_run getPath meshlabserver fs_exists output_dir
               misplaced_prefix_reference in
  prefix packagePrefix misplaced_prefix_reference = false /\
  snd run <> Err MalformedMeshReference /\
  exists command, In (EvPopen command) (fst run).
Proof.
  cbv zeta. split; [reflexivity|].
  unfold convert_mesh_run.
  change (Str.find misplaced_prefix_reference packagePrefix) with (Some 1).
  cbn -[command_of mesh_dir_of scan_output].
  destruct (meshlabserver _) as [lines status].
  destruct (scan_output lines) as [u|e] eqn:E.
  - split; [discriminate|]. eexists. apply in_or_app. right. left. reflexivity.
  - split.
    + cbn. intros H. injection H as ->.
      clear -E. induction lines as [|str rest IH]; simpl in E; [discriminate|].
      destruct (Str.find str failure_signature); [discriminate | auto].
    + eexists. apply in_or_app. right. left. reflexivity.
Qed.

(* ================================================================== *)
(** * The output filename *)

(** C6. An output filename that does not split into exactly two parts at
    "." ends the conversion with [MalformedOutputName]: whatever the model
    is, and with any fuel, nothing of it is looked at and no document is
    produced. *)
Theorem write_xml_malformed_output_name
    (char_signed : bool) (getPath : string -> string)
    (meshlabserver : string -> list string * Z) (fs_exists : string -> bool)
    (getRPY : Rotation -> double * double * double)
    (fuel : nat) (self : UrdfToSimoxXml) (output_dir simox_xml_filename : string) :
  List.length (Str.iter_split "." simox_xml_filename) <> 2%nat ->
  write_xml char_signed getPath meshlabserver fs_exists getRPY fuel self
    output_dir simox_xml_filename = Err MalformedOutputName.
Proof.
  intros H. unfold write_xml.
  apply Nat.eqb_neq in H. now rewrite H.
Qed.

Lemma write_xml_malformed_output_name_witness :
  List.length (Str.iter_split "." "hand") <> 2%nat /\
  List.length (Str.iter_split "." "hand.v2.xml") <> 2%nat /\
  write_xml true sample_getPath quiet_meshlabserver sample_fs_exists sample_getRPY
    0 empty_converter "/out" "hand" = Err MalformedOutputName /\
  write_xml true sample_getPath quiet_meshlabserver sample_fs_exists sample_getRPY
    0 empty_converter "/out" "hand.v2.xml" = Err MalformedOutputName.
Proof.
  split; [vm_compute; discriminate|].
  split; [vm_compute; discriminate|].
  split; apply write_xml_malformed_output_name; vm_compute; discriminate.
Defined.

(** The filenames that pass are those with exactly one ".". *)
Lemma output_name_parts (simox_xml_filename : string) :
  List.length (Str.iter_split "." simox_xml_filename) = 2%nat <->
  occurrences "." simox_xml_filename = 1%nat.
Proof.
  rewrite StrFacts.iter_split_length. split; intros H; [now injection H | now rewrite H].
Qed.

(* ================================================================== *)
(** * Number formatting *)

(** The literals are binary64 data: 53 bits of precision, exponents below
    1024. *)
Lemma literals_are_binary64 :
  forallb (fun x => SpecFloat.valid_binary 53 1024 (to_spec_float x))
    [d_0_0; d_1_0; d_m0_01; d_m0_035; d_0_07; d_1_57; d_m1_57] = true.
Proof. reflexivity. Qed.

(** As the program prints them. *)
Lemma literals_rendered :
  map to_string_ [d_0_0; d_1_0; d_m0_01; d_m0_035; d_0_07; d_1_57; d_m1_57]
  = ["0.000"; "1.000"; "-0.010"; "-0.035"; "0.070"; "1.570"; "-1.570"].
Proof. reflexivity. Qed.

(** What is not a number, and what is not finite, is written with its sign
    and without digits. *)
Lemma nonfinite_rendered :
  map to_string_ [B754_infinity false; B754_infinity true; B754_nan false; B754_nan true]
  = ["inf"; "-inf"; "nan"; "-nan"].
Proof. reflexivity. Qed.

Module NumberFacts.

Lemma string_of_uint_digits (d : Decimal.uint) :
  all_digits (NilEmpty.string_of_uint d) = true.
Proof. induction d; simpl; auto. Qed.

Lemma all_digits_app (a b : string) :
  all_digits (a ++ b) = all_digits a && all_digits b.
Proof.
  induction a as [|c a IH]; simpl; [reflexivity|].
  now rewrite IH, andb_assoc.
Qed.

Lemma digit_not_point (c : ascii) : is_digit c = true -> Ascii.eqb c "." = false.
Proof.
  intros H. destruct (Ascii.eqb_spec c ".") as [->|]; [discriminate H | reflexivity].
Qed.

Lemma digit_not_minus (c : ascii) : is_digit c = true -> Ascii.eqb c "-" = false.
Proof.
  intros H. destruct (Ascii.eqb_spec c "-") as [->|]; [discriminate H | reflexivity].
Qed.

Lemma all_digits_no_point (s : string) :
  all_digits s = true -> occurrences "." s = 0%nat.
Proof.
  induction s as [|c s IH]; simpl; [reflexivity|].
  intros H. apply andb_prop in H. destruct H as [Hc Hs].
  now rewrite (digit_not_point _ Hc), (IH Hs).
Qed.

Lemma length_string_of_pad (k : nat) (d : Decimal.uint) :
  String.length (NilEmpty.string_of_uint (pad_zeros k d))
  = (k + String.length (NilEmpty.string_of_uint d))%nat.
Proof. induction k as [|k IH]; simpl; [reflexivity | now rewrite IH]. Qed.

Lemma of_uint_pad (k : nat) (d : Decimal.uint) :
  N.of_uint (pad_zeros k d) = N.of_uint d.
Proof. induction k as [|k IH]; simpl; [reflexivity | exact IH]. Qed.

Lemma substring_full (s : string) : substring 0 (String.length s) s = s.
Proof. induction s as [|c s IH]; simpl; [reflexivity | now rewrite IH]. Qed.

(** Cutting a string at position [k]. *)
Lemma split_at (s : string) (k : nat) :
  (k <= String.length s)%nat ->
  substring 0 k s ++ substring k (String.length s - k) s = s /\
  String.length (substring 0 k s) = k /\
  String.length (substring k (String.length s - k) s) = (String.length s - k)%nat.
Proof.
  revert k; induction s as [|c s IH]; intros k Hk.
  - simpl in Hk. assert (k = 0%nat) as -> by lia. simpl. auto.
  - destruct k as [|k].
    + rewrite Nat.sub_0_r, substring_full. cbn [substring append].
      auto.
    + simpl in Hk. destruct (IH k) as [H1 [H2 H3]]; [lia|].
      cbn [substring String.length Nat.sub append].
      rewrite H1, H2, H3. auto.
Qed.

Lemma length_digits4 (n : N) : (4 <= String.length (digits4 n))%nat.
Proof. unfold digits4. rewrite length_string_of_pad. lia. Qed.

(** The shape of [thousandths]: digits, a point, three digits; and the
    digits read together give [n] back. *)
Lemma thousandths_shape (n : N) :
  exists ip fp,
    thousandths n = ip ++ "." ++ fp /\
    ip <> "" /\ all_digits ip = true /\
    String.length fp = 3%nat /\ all_digits fp = true /\
    option_map N.of_uint (NilEmpty.uint_of_string (ip ++ fp)) = Some n.
Proof.
  pose proof (length_digits4 n) as Hlen.
  destruct (split_at (digits4 n) (String.length (digits4 n) - 3)) as [H1 [H2 H3]]; [lia|].
  replace (String.length (digits4 n) - (String.length (digits4 n) - 3))%nat with 3%nat in * by lia.
  exists (substring 0 (String.length (digits4 n) - 3) (digits4 n)),
         (substring (String.length (digits4 n) - 3) 3 (digits4 n)).
  assert (all_digits (digits4 n) = true) as Hd by apply string_of_uint_digits.
  rewrite <- H1, all_digits_app in Hd. apply andb_prop in Hd. destruct Hd as [Hd1 Hd2].
  split; [reflexivity|].
  split.
  { intros E. rewrite E in H2. simpl in H2. lia. }
  split; [exact Hd1|]. split; [exact H3|]. split; [exact Hd2|].
  rewrite H1. unfold digits4. rewrite NilEmpty.usu. simpl.
  now rewrite of_uint_pad, DecimalN.Unsigned.of_to.
Qed.

(** Reading an unsigned numeral of that shape. *)
Lemma parse_unsigned (ip fp : string) (n : N) :
  ip <> "" -> all_digits ip = true -> all_digits fp = true ->
  option_map N.of_uint (NilEmpty.uint_of_string (ip ++ fp)) = Some n ->
  parse_number (ip ++ "." ++ fp)
  = Some (Qmake (Z.of_N n) (Z.to_pos (10 ^ Z.of_nat (String.length fp)))) /\
  parse_number ("-" ++ ip ++ "." ++ fp)
  = Some (Qopp (Qmake (Z.of_N n) (Z.to_pos (10 ^ Z.of_nat (String.length fp))))).
Proof.
  intros Hne Hip Hfp Hn.
  assert (Str.iter_split "." (ip ++ "." ++ fp) = [ip; fp]) as Hsplit.
  { apply StrFacts.iter_split_one_sep; now apply all_digits_no_point. }
  destruct (NilEmpty.uint_of_string (ip ++ fp)) as [d|] eqn:Hd; [|discriminate].
  simpl in Hn. injection Hn as <-.
  destruct ip as [|c ip']; [congruence|].
  simpl in Hip. apply andb_prop in Hip. destruct Hip as [Hc _].
  split.
  - unfold parse_number. cbn [append]. rewrite (digit_not_minus _ Hc).
    cbn [append] in Hsplit. rewrite Hsplit. cbn [append] in Hd. now rewrite Hd.
  - unfold parse_number. cbn [append]. rewrite Ascii.eqb_refl.
    cbn [append] in Hsplit. rewrite Hsplit. cbn [append] in Hd. now rewrite Hd.
Qed.

(** [round_thousandths] is within one half of [1000 * m * 2^e]. *)
Lemma round_thousandths_close (m : positive) (e : Z) :
  (Qabs (Qmake (Z.of_N (round_thousandths m e)) 1000 - mag_Q m e) <= 5 # 10000)%Q.
Proof.
  apply Qabs_Qle_condition.
  destruct e as [|p|p]; unfold round_thousandths, mag_Q.
  - unfold Qle, Qminus, Qplus, Qopp; cbn [Qnum Qden]. lia.
  - unfold Qle, Qminus, Qplus, Qopp; cbn [Qnum Qden].
    rewrite Z.pow_pos_fold, !N2Z.inj_mul, !N2Z.inj_pos, Pos2Z.inj_pow. lia.
  - set (d := Pos.pow 2 p).
    pose proof (N.div_mod (1000 * N.pos m) (N.pos d) ltac:(discriminate)) as Hdm.
    pose proof (N.mod_lt (1000 * N.pos m) (N.pos d) ltac:(discriminate)) as Hlt.
    set (q := N.div (1000 * N.pos m) (N.pos d)) in *.
    set (r := N.modulo (1000 * N.pos m) (N.pos d)) in *.
    cbv zeta.
    assert (1000 * Z.pos m = Z.pos d * Z.of_N q + Z.of_N r)%Z as Hz by lia.
    assert (0 <= Z.of_N r < Z.pos d)%Z as Hr by lia.
    destruct (N.ltb_spec (2 * r) (N.pos d)) as [Ha|Ha].
    + unfold Qle, Qminus, Qplus, Qopp; cbn [Qnum Qden]. nia.
    + destruct (N.ltb_spec (N.pos d) (2 * r)) as [Hb|Hb].
      * unfold Qle, Qminus, Qplus, Qopp; cbn [Qnum Qden]. nia.
      * destruct (N.even q); unfold Qle, Qminus, Qplus, Qopp; cbn [Qnum Qden]; nia.
Qed.

End NumberFacts.

(** C9. For every finite double, [to_string_] writes an optional minus sign,
    at least one digit, a point and exactly three digits, and the numeral
    read back is within 0.0005 of the double's value. *)
Theorem to_string_three_digits_round_trip (x : double) :
  finite x = true ->
  (exists ip fp,
     to_string_ x = sign_string (sign_of x) ++ ip ++ "." ++ fp /\
     ip <> "" /\ all_digits ip = true /\
     String.length fp = 3%nat /\ all_digits fp = true) /\
  (exists q,
     parse_number (to_string_ x) = Some q /\
     (Qabs (q - value x) <= 5 # 10000)%Q).
Proof.
  intros Hfin. destruct x as [s|s|s|s m e]; try discriminate Hfin.
  - split.
    + exists "0", "000". simpl. repeat split; auto. discriminate.
    + destruct s; eexists; (split; [reflexivity | vm_compute; discriminate]).
  - destruct (NumberFacts.thousandths_shape (round_thousandths m e))
      as [ip [fp [Hsh [Hne [Hip [Hlen [Hfp Hval]]]]]]].
    split.
    + exists ip, fp. simpl. rewrite Hsh. auto.
    + destruct (NumberFacts.parse_unsigned ip fp _ Hne Hip Hfp Hval) as [Hpos Hneg].
      rewrite Hlen in Hpos, Hneg. change (Z.to_pos (10 ^ Z.of_nat 3)) with 1000%positive in *.
      pose proof (NumberFacts.round_thousandths_close m e) as Hclose.
      destruct s; cbn [to_string_ sign_string value append]; rewrite Hsh.
      * eexists. split; [exact Hneg|].
        set (a := Qmake _ _) in *.
        setoid_replace (- a - - mag_Q m e)%Q with (- (a - mag_Q m e))%Q by ring.
        now rewrite Qabs_opp.
      * eexists. split; [exact Hpos | exact Hclose].
Qed.

Lemma to_string_three_digits_round_trip_witness :
  finite d_m1_57 = true /\
  to_string_ d_m1_57 = "-1.570" /\
  (exists q,
     parse_number (to_string_ d_m1_57) = Some q /\
     (Qabs (q - value d_m1_57) <= 5 # 10000)%Q).
Proof.
  split; [reflexivity|]. split; [reflexivity|].
  exact (proj2 (to_string_three_digits_round_trip d_m1_57 eq_refl)).
Defined.

(* ================================================================== *)
(** * Facts about property trees *)

Module PtreeFacts.

Lemma get_child_app (k : string) (a b : list (string * ptree)) :
  get_child k (a ++ b)%list
  = match get_child k a with
    | Some c => Some c
    | None => get_child k b
    end.
Proof.
  induction a as [|[k' c] a IH]; simpl; [reflexivity|].
  destruct (String.eqb k' k); [reflexivity | exact IH].
Qed.

Lemma children_tagged_app (tag d : string) (a b : list (string * ptree)) :
  children_tagged tag (PT d (a ++ b)%list)
  = (children_tagged tag (PT d a) ++ children_tagged tag (PT d b))%list.
Proof.
  unfold children_tagged; simpl. now rewrite filter_app, map_app.
Qed.

Lemma children_tagged_map_same {A : Type} (tag d : string) (f : A -> ptree) (l : list A) :
  children_tagged tag (PT d (map (fun x => (tag, f x)) l)) = map f l.
Proof.
  unfold children_tagged; simpl.
  induction l as [|x l IH]; simpl; [reflexivity|].
  rewrite String.eqb_refl. simpl. now rewrite IH.
Qed.

Lemma children_tagged_map_other {A : Type} (tag tag' d : string) (f : A -> ptree)
    (l : list A) :
  String.eqb tag' tag = false ->
  children_tagged tag (PT d (map (fun x => (tag', f x)) l)) = [].
Proof.
  intros H. unfold children_tagged; simpl.
  induction l as [|x l IH]; simpl; [reflexivity|].
  rewrite H. exact IH.
Qed.

(** All keys of [ns] are [tag]. *)
Lemma children_tagged_all (tag d : string) (ns : list (string * ptree)) :
  Forall (fun kn => fst kn = tag) ns ->
  children_tagged tag (PT d ns) = map snd ns.
Proof.
  unfold children_tagged; simpl.
  induction 1 as [|[k n] ns Hk _ IH]; simpl; [reflexivity|].
  simpl in Hk. subst k. rewrite String.eqb_refl. simpl. now rewrite IH.
Qed.

Lemma children_tagged_none (tag tag' d : string) (ns : list (string * ptree)) :
  String.eqb tag' tag = false ->
  Forall (fun kn => fst kn = tag') ns ->
  children_tagged tag (PT d ns) = [].
Proof.
  intros Hne. unfold children_tagged; simpl.
  induction 1 as [|[k n] ns Hk _ IH]; simpl; [reflexivity|].
  simpl in Hk. subst k. rewrite Hne. exact IH.
Qed.

(** A loop that only adds children. *)
Lemma fold_left_add_child {A : Type} (key : string) (f : A -> ptree) (l : list A)
    (n : ptree) :
  fold_left (fun n x => add_child n key (f x)) l n
  = PT (data_of n) (children_of n ++ map (fun x => (key, f x)) l)%list.
Proof.
  revert n; induction l as [|x l IH]; intros [d cs]; simpl.
  - now rewrite app_nil_r.
  - rewrite IH. simpl. now rewrite <- app_assoc.
Qed.

(** Children added at the end do not change the attributes already there. *)
Lemma attr_app (d a : string) (cs extra : list (string * ptree)) (attrs : ptree) :
  get_child "<xmlattr>" cs = Some attrs ->
  attr (PT d (cs ++ extra)%list) a = attr (PT d cs) a.
Proof.
  intros H. unfold attr; simpl. now rewrite get_child_app, H.
Qed.

Lemma name_of_app (d : string) (cs extra : list (string * ptree)) (attrs : ptree) :
  get_child "<xmlattr>" cs = Some attrs ->
  name_of (PT d (cs ++ extra)%list) = name_of (PT d cs).
Proof.
  intros H. unfold name_of. now rewrite (attr_app _ _ _ _ _ H).
Qed.

Lemma has_child_app (tag d : string) (a b : list (string * ptree)) :
  has_child tag (PT d (a ++ b)%list)
  = has_child tag (PT d a) || has_child tag (PT d b).
Proof.
  unfold has_child; simpl. rewrite get_child_app.
  destruct (get_child tag a); reflexivity.
Qed.

Lemma has_child_map_other {A : Type} (tag tag' d : string) (f : A -> ptree) (l : list A) :
  String.eqb tag' tag = false ->
  has_child tag (PT d (map (fun x => (tag', f x)) l)) = false.
Proof.
  intros H. unfold has_child; simpl.
  induction l as [|x l IH]; simpl; [reflexivity|].
  rewrite H. exact IH.
Qed.

End PtreeFacts.

(* ================================================================== *)
(** * The actor classifier *)

Module MapFacts.

Lemma map_find_None_iff (k : Z) (m : int_map) :
  map_find k m = None <-> ~ In k (map_keys m).
Proof.
  induction m as [|[k' v] m IH]; simpl.
  - split; auto.
  - destruct (Z.eqb_spec k' k) as [->|Hne].
    + split; [discriminate | intros H; elim H; now left].
    + rewrite IH. split; intros H; [intros [E|E]; [congruence | now apply H] | auto].
Qed.

Lemma map_set_In (k x : Z) (v : bool) (m : int_map) :
  In x (map_keys (map_set k v m)) <-> x = k \/ In x (map_keys m).
Proof.
  induction m as [|[k' v'] m IH]; simpl.
  - split; intros [H|H]; auto.
  - destruct (Z.ltb_spec k k'); simpl.
    + split; intros [H'|H']; auto.
    + destruct (Z.eqb_spec k k') as [->|Hne]; simpl.
      * split; [intros [H'|H']; auto | intros [H'|[H'|H']]; auto].
      * rewrite IH. split; [intros [H'|[H'|H']]; auto | intros [H'|[H'|H']]; auto].
Qed.

Lemma map_set_sorted (k : Z) (v : bool) (m : int_map) :
  StronglySorted Z.lt (map_keys m) ->
  StronglySorted Z.lt (map_keys (map_set k v m)).
Proof.
  induction m as [|[k' v'] m IH]; simpl; intros Hs.
  - repeat constructor.
  - apply StronglySorted_inv in Hs. destruct Hs as [Hs Hall].
    destruct (Z.ltb_spec k k'); simpl.
    + constructor; [constructor; assumption|].
      constructor; [assumption|].
      eapply Forall_impl; [|exact Hall]. intros; simpl in *; lia.
    + destruct (Z.eqb_spec k k') as [->|Hne]; simpl.
      * constructor; assumption.
      * constructor; [now apply IH|].
        apply Forall_forall. intros x Hx. apply map_set_In in Hx.
        destruct Hx as [->|Hx]; [lia|].
        rewrite Forall_forall in Hall. now apply Hall.
Qed.

Lemma classify_step_In (k x : Z) (m : int_map) :
  In x (map_keys (classify_step m k)) <-> x = k \/ In x (map_keys m).
Proof.
  unfold classify_step. destruct (map_find k m) as [v|] eqn:E.
  - assert (In k (map_keys m)) as Hk.
    { destruct (in_dec Z.eq_dec k (map_keys m)) as [H|H]; [exact H|].
      apply map_find_None_iff in H. congruence. }
    split; [auto | intros [->|H]; auto].
  - apply map_set_In.
Qed.

Lemma classify_step_sorted (k : Z) (m : int_map) :
  StronglySorted Z.lt (map_keys m) ->
  StronglySorted Z.lt (map_keys (classify_step m k)).
Proof.
  unfold classify_step. destruct (map_find k m); [auto | apply map_set_sorted].
Qed.

Lemma fold_classify_In (ks : list Z) (m : int_map) (x : Z) :
  In x (map_keys (fold_left classify_step ks m)) <-> In x ks \/ In x (map_keys m).
Proof.
  revert m; induction ks as [|k ks IH]; intros m; simpl.
  - split; [auto | intros [[]|H]; exact H].
  - rewrite IH, classify_step_In.
    split; [intros [H|[H|H]]; auto | intros [[H|H]|H]; auto].
Qed.

Lemma fold_classify_sorted (ks : list Z) (m : int_map) :
  StronglySorted Z.lt (map_keys m) ->
  StronglySorted Z.lt (map_keys (fold_left classify_step ks m)).
Proof.
  revert m; induction ks as [|k ks IH]; intros m Hs; simpl; [exact Hs|].
  apply IH. now apply classify_step_sorted.
Qed.

(** The keys of the map: ascending, and those met. *)
Lemma classify_sorted (ks : list Z) : StronglySorted Z.lt (map_keys (classify ks)).
Proof. apply fold_classify_sorted. constructor. Qed.

Lemma classify_In (ks : list Z) (x : Z) : In x (map_keys (classify ks)) <-> In x ks.
Proof.
  unfold classify. rewrite fold_classify_In. simpl. split; [intros [H|[]]; exact H | auto].
Qed.

(** Two strictly ascending lists with the same elements are the same list. *)
Lemma ascending_unique (l1 l2 : list Z) :
  StronglySorted Z.lt l1 -> StronglySorted Z.lt l2 ->
  (forall x, In x l1 <-> In x l2) -> l1 = l2.
Proof.
  revert l2; induction l1 as [|a l1 IH]; intros l2 H1 H2 Hin.
  - destruct l2 as [|b l2]; [reflexivity|].
    destruct (Hin b) as [_ H]. elim H. now left.
  - destruct l2 as [|b l2].
    { destruct (Hin a) as [H _]. elim H. now left. }
    apply StronglySorted_inv in H1. destruct H1 as [H1 Ha].
    apply StronglySorted_inv in H2. destruct H2 as [H2 Hb].
    rewrite Forall_forall in Ha, Hb.
    assert (a = b) as ->.
    { destruct (Hin a) as [Hab _]. destruct (Hin b) as [_ Hba].
      destruct Hab as [E|Hab]; [now left | auto|].
      destruct Hba as [E|Hba]; [now left | auto|].
      specialize (Ha _ Hba). specialize (Hb _ Hab). lia. }
    f_equal. apply IH; auto.
    intros x. split; intros Hx.
    + destruct (Hin x) as [H _]. destruct H as [E|H]; [now right | | exact H].
      subst x. specialize (Ha _ Hx). lia.
    + destruct (Hin x) as [_ H]. destruct H as [E|H]; [now right | | exact H].
      subst x. specialize (Hb _ Hx). lia.
Qed.

End MapFacts.

Module OrderFacts.

Lemma existsb_Zeqb (x : Z) (seen : list Z) :
  existsb (Z.eqb x) seen = true <-> In x seen.
Proof.
  rewrite existsb_exists. split.
  - intros [y [Hy E]]. apply Z.eqb_eq in E. now subst.
  - intros H. exists x. split; [exact H | apply Z.eqb_refl].
Qed.

Lemma first_observed_from_In (seen l : list Z) (x : Z) :
  In x (first_observed_from Z.eqb seen l) <-> In x l /\ ~ In x seen.
Proof.
  revert seen; induction l as [|a l IH]; intros seen; simpl.
  - split; [contradiction | intros [[] _]].
  - destruct (existsb (Z.eqb a) seen) eqn:E.
    + apply existsb_Zeqb in E. rewrite IH. split.
      * intros [H1 H2]. auto.
      * intros [[H1|H1] H2]; [subst; contradiction | auto].
    + assert (~ In a seen) as Ha.
      { intros H. apply existsb_Zeqb in H. congruence. }
      simpl. rewrite IH. simpl. split.
      * intros [H|[H1 H2]]; [subst; auto | split; [auto | intros H; apply H2; now right]].
      * intros [[H1|H1] H2]; [now left|].
        destruct (Z.eq_dec a x) as [->|Hne]; [now left|].
        right. split; [exact H1 | intros [H|H]; auto].
Qed.

Lemma first_observed_from_sorted (seen l : list Z) :
  StronglySorted Z.le l ->
  StronglySorted Z.lt (first_observed_from Z.eqb seen l).
Proof.
  intros Hs; revert seen; induction Hs as [|a l Hs IH Ha]; intros seen; simpl.
  - constructor.
  - destruct (existsb (Z.eqb a) seen); [apply IH|].
    constructor; [apply IH|].
    apply Forall_forall. intros x Hx. apply first_observed_from_In in Hx.
    destruct Hx as [Hx Hn]. rewrite Forall_forall in Ha. specialize (Ha _ Hx).
    assert (x <> a) by (intros ->; apply Hn; now left). lia.
Qed.

(** On keys met in non-decreasing order, the ascending order of the map is
    the order of first observation. *)
Lemma classify_first_observed (ks : list Z) :
  StronglySorted Z.le ks ->
  map_keys (classify ks) = first_observed Z.eqb ks.
Proof.
  intros Hs. apply MapFacts.ascending_unique.
  - apply MapFacts.classify_sorted.
  - now apply first_observed_from_sorted.
  - intros x. rewrite MapFacts.classify_In. unfold first_observed.
    rewrite first_observed_from_In. simpl. tauto.
Qed.

(** Carrying first observation along an injection. *)
Lemma first_observed_from_map (f : ascii -> Z) (g : Z -> ascii) :
  (forall c, g (f c) = c) ->
  forall seen l,
    map g (first_observed_from Z.eqb (map f seen) (map f l))
    = first_observed_from Ascii.eqb seen l.
Proof.
  intros Hgf.
  assert (forall a b, Z.eqb (f a) (f b) = Ascii.eqb a b) as Heq.
  { intros a b. destruct (Ascii.eqb_spec a b) as [->|Hne]; [apply Z.eqb_refl|].
    apply Z.eqb_neq. intros E. apply Hne. now rewrite <- (Hgf a), <- (Hgf b), E. }
  assert (forall x seen, existsb (Z.eqb (f x)) (map f seen) = existsb (Ascii.eqb x) seen) as Hex.
  { intros x seen. induction seen as [|s seen IH]; simpl; [reflexivity|].
    now rewrite Heq, IH. }
  intros seen l; revert seen; induction l as [|a l IH]; intros seen; simpl; [reflexivity|].
  rewrite Hex. destruct (existsb (Ascii.eqb a) seen); [apply IH|].
  simpl. rewrite Hgf. f_equal. apply (IH (a :: seen)).
Qed.

Lemma nat_of_ascii_lt_256 (c : ascii) : nat_of_ascii c < 256.
Proof. apply nat_ascii_bounded. Qed.

Lemma int_to_char_to_int (char_signed : bool) (c : ascii) :
  int_to_char (char_to_int char_signed c) = c.
Proof.
  unfold int_to_char, char_to_int.
  pose proof (nat_of_ascii_lt_256 c) as Hb.
  set (n := Z.of_nat (nat_of_ascii c)).
  assert (0 <= n < 256)%Z as Hn by (unfold n; lia).
  assert ((if char_signed && (128 <=? n)%Z then (n - 256)%Z else n) mod 256 = n)%Z as ->.
  { destruct (char_signed && (128 <=? n)%Z).
    - replace (n - 256)%Z with (n + (-1) * 256)%Z by lia.
      rewrite Z_mod_plus_full. now apply Z.mod_small.
    - now apply Z.mod_small. }
  unfold n. rewrite Nat2Z.id. apply ascii_nat_embedding.
Qed.

(** Where [char] is unsigned, or on 7-bit characters, the conversion to
    [int] keeps the order of the bytes. *)
Lemma char_to_int_monotone (char_signed : bool) (a b : ascii) :
  char_signed = false \/ (is_ascii7 a /\ is_ascii7 b) ->
  nat_of_ascii a <= nat_of_ascii b ->
  (char_to_int char_signed a <= char_to_int char_signed b)%Z.
Proof.
  unfold char_to_int, is_ascii7. intros [->|[Ha Hb]] Hle.
  - simpl. lia.
  - assert ((128 <=? Z.of_nat (nat_of_ascii a))%Z = false) as -> by (apply Z.leb_gt; lia).
    assert ((128 <=? Z.of_nat (nat_of_ascii b))%Z = false) as -> by (apply Z.leb_gt; lia).
    rewrite !andb_false_r. lia.
Qed.

(** A name that is not smaller starts with a byte that is not smaller. *)
Lemma not_lt_first_char (c1 c2 : ascii) (s1 s2 : string) :
  Str.lt (String c2 s2) (String c1 s1) = false ->
  nat_of_ascii c1 <= nat_of_ascii c2.
Proof.
  unfold Str.lt, String.ltb. simpl.
  unfold Ascii.compare.
  destruct (N.compare_spec (N_of_ascii c2) (N_of_ascii c1)) as [E|E|E].
  - intros _. unfold nat_of_ascii. rewrite E. lia.
  - discriminate.
  - intros _. unfold nat_of_ascii. lia.
Qed.

(** [sort_joints] sorts, and only reorders. *)
Lemma insert_joint_HdRel (k j : Joint) (r : list Joint) :
  HdRel (fun j1 j2 => compareUrdfJoint j2 j1 = false) k r ->
  compareUrdfJoint j k = false ->
  HdRel (fun j1 j2 => compareUrdfJoint j2 j1 = false) k (insert_joint j r).
Proof.
  intros H Hjk. destruct r as [|x r]; simpl.
  - now constructor.
  - destruct (compareUrdfJoint x j); constructor; [|exact Hjk].
    now inversion H.
Qed.

Lemma lt_asym (s1 s2 : string) : Str.lt s1 s2 = true -> Str.lt s2 s1 = false.
Proof.
  unfold Str.lt, String.ltb. rewrite (String.compare_antisym s2 s1).
  destruct (String.compare s1 s2); simpl; congruence.
Qed.

Lemma insert_joint_sorted (j : Joint) (l : list Joint) :
  sorted_by_name l -> sorted_by_name (insert_joint j l).
Proof.
  unfold sorted_by_name.
  induction l as [|k r IH]; intros Hs; simpl.
  - repeat constructor.
  - apply Sorted_inv in Hs. destruct Hs as [Hs Hh].
    destruct (compareUrdfJoint k j) eqn:E.
    + constructor; [now apply IH|].
      apply insert_joint_HdRel; [exact Hh|]. now apply lt_asym.
    + constructor; [now constructor | now constructor].
Qed.

Lemma sort_joints_sorted (l : list Joint) : sorted_by_name (sort_joints l).
Proof.
  induction l as [|j l IH]; simpl; [constructor | now apply insert_joint_sorted].
Qed.

Lemma insert_joint_perm (j : Joint) (l : list Joint) :
  Permutation (insert_joint j l) (j :: l).
Proof.
  induction l as [|k r IH]; simpl; [reflexivity|].
  destruct (compareUrdfJoint k j); [|reflexivity].
  rewrite IH. apply perm_swap.
Qed.

Lemma sort_joints_perm (l : list Joint) : Permutation (sort_joints l) l.
Proof.
  induction l as [|j l IH]; simpl; [reflexivity|].
  rewrite insert_joint_perm. now constructor.
Qed.

(** The first characters of non-empty names, one per name. *)
Lemma first_chars_cons (c : ascii) (s : string) (names : list string) :
  first_chars (String c s :: names) = c :: first_chars names.
Proof. reflexivity. Qed.

Lemma sorted_first_chars (js : list Joint) :
  nonempty_names (joint_names js) ->
  sorted_by_name js ->
  Sorted (fun a b => nat_of_ascii a <= nat_of_ascii b) (first_chars (joint_names js)).
Proof.
  unfold sorted_by_name, nonempty_names, joint_names.
  induction js as [|j js IH]; intros Hne Hs; simpl; [constructor|].
  inversion Hne as [|n ns Hj Hrest]; subst.
  apply Sorted_inv in Hs. destruct Hs as [Hs Hh].
  destruct (joint_name j) as [|c s] eqn:Ej; [congruence|].
  simpl. constructor; [now apply IH|].
  destruct js as [|k js]; simpl; [constructor|].
  inversion Hrest as [|n ns Hk _]; subst.
  destruct (joint_name k) as [|ck sk] eqn:Ek; [congruence|].
  simpl. constructor.
  inversion Hh as [|? ? Hkj]; subst. unfold compareUrdfJoint in Hkj.
  rewrite Ej, Ek in Hkj. eapply not_lt_first_char; exact Hkj.
Qed.

End OrderFacts.

Section ActorClassifier.

Variable char_signed : bool.

Local Abbreviation key_of := (char_to_int char_signed).

(** The loop of [get_actors], from any map. *)
Lemma get_actors_loop (js : list Joint) (m : int_map) :
  nonempty_names (joint_names js) ->
  foreach (fun (actors : int_map) joint =>
             first_char <- Str.at0 (joint_name joint) ;;
             let first_int := char_to_int char_signed first_char in
             match map_find first_int actors with
             | None => Ok (map_set first_int true actors)
             | Some _ => Ok actors
             end) js m
  = Ok (fold_left classify_step (map key_of (first_chars (joint_names js))) m).
Proof.
  unfold nonempty_names, joint_names.
  revert m; induction js as [|j js IH]; intros m Hne; [reflexivity|].
  inversion Hne as [|n ns Hj Hrest]; subst.
  cbn [foreach map]. destruct (joint_name j) as [|c s]; [congruence|].
  cbn [Str.at0 bind first_chars first_char map fold_left].
  unfold classify_step at 2.
  destruct (map_find (key_of c) m); cbn [bind]; now apply IH.
Qed.

(** With names that are not empty, [get_actors] returns the map of the first
    characters, whatever map it was handed. *)
Lemma get_actors_classify (self : UrdfToSimoxXml) (incoming : int_map) :
  nonempty_names (joint_names (joints_ self)) ->
  get_actors char_signed self incoming
  = Ok (classify (map key_of (first_chars (joint_names (joints_ self))))).
Proof.
  intros Hne. unfold get_actors, classify. now apply get_actors_loop.
Qed.

Lemma get_actors_loop_Ok (js : list Joint) (m actors : int_map) :
  foreach (fun (actors : int_map) joint =>
             first_char <- Str.at0 (joint_name joint) ;;
             let first_int := char_to_int char_signed first_char in
             match map_find first_int actors with
             | None => Ok (map_set first_int true actors)
             | Some _ => Ok actors
             end) js m = Ok actors ->
  nonempty_names (joint_names js).
Proof.
  unfold nonempty_names, joint_names.
  revert m; induction js as [|j js IH]; intros m H; [constructor|].
  cbn [foreach map] in *. destruct (joint_name j) as [|c s]; [discriminate H|].
  cbn [Str.at0 bind] in H.
  constructor; [discriminate|].
  destruct (map_find (char_to_int char_signed c) m); cbn [bind] in H; eapply IH; exact H.
Qed.

(** An empty name ends the run. *)
Lemma get_actors_Ok_nonempty (self : UrdfToSimoxXml) (incoming actors : int_map) :
  get_actors char_signed self incoming = Ok actors ->
  nonempty_names (joint_names (joints_ self)).
Proof.
  unfold get_actors. apply get_actors_loop_Ok.
Qed.

Lemma key_of_image_injective (l : list ascii) :
  ForallPairs (fun x y => int_to_char x = int_to_char y -> x = y) (map key_of l).
Proof.
  intros x y Hx Hy E.
  apply in_map_iff in Hx. destruct Hx as [a [<- _]].
  apply in_map_iff in Hy. destruct Hy as [b [<- _]].
  rewrite !OrderFacts.int_to_char_to_int in E. now subst.
Qed.

Lemma ascending_NoDup (l : list Z) : StronglySorted Z.lt l -> NoDup l.
Proof.
  induction 1 as [|a l Hs IH Ha]; constructor; [|exact IH].
  intros Hin. rewrite Forall_forall in Ha. specialize (Ha _ Hin). lia.
Qed.

Lemma sorted_keys (chars : list ascii) :
  Sorted (fun a b => nat_of_ascii a <= nat_of_ascii b) chars ->
  char_signed = false \/ Forall is_ascii7 chars ->
  StronglySorted Z.le (map key_of chars).
Proof.
  intros Hs Hm. apply Sorted_StronglySorted; [exact Z.le_trans|].
  induction Hs as [|a l Hs IH Hh]; simpl; constructor.
  - apply IH. destruct Hm as [Hm|Hm]; [now left | right; now inversion Hm].
  - destruct l as [|b l]; simpl; constructor.
    inversion Hh; subst. apply OrderFacts.char_to_int_monotone; [|assumption].
    destruct Hm as [Hm|Hm]; [now left | right].
    inversion Hm as [|? ? Ha Hrest]; subst. inversion Hrest; subst. auto.
Qed.

(** C5, as the code has it.  For every converter whose joint names are not
    empty, and whatever map is passed in, [get_actors] returns the distinct
    first characters of the joint names, each once, in ascending order of
    their [int] value (the iteration order of [std::map]).  When the joint
    list is sorted by name, as the constructor leaves it, and [char] is
    unsigned or the first characters are 7-bit, that order is the order of
    first observation.  Without joints the map is empty, and running the
    classifier again on its own result gives the same map. *)
Theorem get_actors_order (self : UrdfToSimoxXml) (incoming : int_map) :
  nonempty_names (joint_names (joints_ self)) ->
  exists actors,
    get_actors char_signed self incoming = Ok actors /\
    StronglySorted Z.lt (map_keys actors) /\
    NoDup (map int_to_char (map_keys actors)) /\
    (forall c, In c (map int_to_char (map_keys actors))
               <-> In c (first_chars (joint_names (joints_ self)))) /\
    (sorted_by_name (joints_ self) ->
     char_signed = false \/ Forall is_ascii7 (first_chars (joint_names (joints_ self))) ->
     map int_to_char (map_keys actors)
     = first_observed Ascii.eqb (first_chars (joint_names (joints_ self)))) /\
    (joints_ self = [] -> actors = []) /\
    get_actors char_signed self actors = Ok actors.
Proof.
  intros Hne.
  set (chars := first_chars (joint_names (joints_ self))).
  exists (classify (map key_of chars)).
  split; [now apply get_actors_classify|].
  split; [apply MapFacts.classify_sorted|].
  assert (forall x, In x (map_keys (classify (map key_of chars))) <-> In x (map key_of chars))
    as Hin by (intros x; apply MapFacts.classify_In).
  split.
  { apply NoDup_map_NoDup_ForallPairs.
    - intros x y Hx Hy. apply (key_of_image_injective chars); now apply Hin.
    - apply ascending_NoDup, MapFacts.classify_sorted. }
  split.
  { intros c. rewrite in_map_iff. split.
    - intros [k [<- Hk]]. apply Hin in Hk. apply in_map_iff in Hk.
      destruct Hk as [a [<- Ha]].
      now rewrite OrderFacts.int_to_char_to_int.
    - intros Hc. exists (key_of c). split.
      + apply OrderFacts.int_to_char_to_int.
      + apply Hin. now apply in_map. }
  split.
  { intros Hs Hm.
    rewrite OrderFacts.classify_first_observed.
    - unfold first_observed.
      apply (OrderFacts.first_observed_from_map key_of int_to_char
               (OrderFacts.int_to_char_to_int char_signed) [] chars).
    - apply sorted_keys; [|exact Hm]. now apply OrderFacts.sorted_first_chars. }
  split.
  { intros E. unfold chars. now rewrite E. }
  now apply get_actors_classify.
Qed.

End ActorClassifier.

Lemma get_actors_order_witness :
  nonempty_names (joint_names (joints_ hand_converter)) /\
  exists actors,
    get_actors true hand_converter [] = Ok actors /\
    map int_to_char (map_keys actors) = ["f"; "m"; "t"]%char /\
    get_actors true hand_converter actors = Ok actors.
Proof.
  assert (nonempty_names (joint_names (joints_ hand_converter))) as Hne.
  { vm_compute. repeat constructor; discriminate. }
  split; [exact Hne|].
  destruct (get_actors_order true hand_converter [] Hne)
    as [actors [Hget [_ [_ [_ [Hfirst [_ Hagain]]]]]]].
  exists actors. split; [exact Hget|]. split; [|exact Hagain].
  rewrite Hfirst.
  - reflexivity.
  - apply OrderFacts.sort_joints_sorted.
  - right. vm_compute. repeat constructor.
Defined.

(** C5 as it is worded does not hold.  Handed the joints in declaration
    order, thumb first, the classifier answers f, m, t and not t, f, m.  And
    on a platform whose [char] is signed, the converter the constructor builds
    for a model with the joints "coude" and "épaule" holds them in that order,
    yet the key of "é" comes out before the key of "c". *)
Lemma get_actors_not_first_observed :
  (exists actors,
     get_actors false unsorted_converter [] = Ok actors /\
     map int_to_char (map_keys actors) = ["f"; "m"; "t"]%char /\
     first_observed Ascii.eqb (first_chars (joint_names (joints_ unsorted_converter)))
     = ["t"; "f"; "m"]%char) /\
  (exists self actors,
     construct accented_model "/out" = Ok self /\
     joint_names (joints_ self) = ["coude"; accented_name] /\
     get_actors true self [] = Ok actors /\
     map int_to_char (map_keys actors) = [ascii_of_nat 195; "c"%char] /\
     first_observed Ascii.eqb (first_chars (joint_names (joints_ self)))
     = ["c"%char; ascii_of_nat 195]).
Proof.
  split.
  - eexists. split; [reflexivity|]. split; reflexivity.
  - eexists. eexists. split; [reflexivity|].
    split; [reflexivity|]. split; [reflexivity|]. split; reflexivity.
Qed.

(* ================================================================== *)
(** * The end-effector node *)

Module EndeffectorFacts.

(** A loop that adds a [Node] for each element whose name starts with
    [actor_name], and dies on an empty name. *)
Lemma members_loop {A : Type} (name : A -> string) (mk : A -> ptree)
    (actor_name : ascii) (l : list A) (node : ptree) :
  foreach (fun Actor_node x =>
             first_char <- Str.at0 (name x) ;;
             if Ascii.eqb actor_name first_char
             then Ok (add_child Actor_node "Node" (mk x))
             else Ok Actor_node) l node
  = if forallb (fun x => is_nonempty (name x)) l
    then Ok (PT (data_of node)
               (children_of node
                  ++ map (fun x => ("Node", mk x))
                       (filter (fun x => starts_with actor_name (name x)) l))%list)
    else Err OutOfRange.
Proof.
  revert node; induction l as [|x l IH]; intros [d cs]; cbn [foreach forallb filter map].
  - simpl. now rewrite app_nil_r.
  - destruct (name x) as [|c s] eqn:E; cbn [Str.at0 bind is_nonempty andb starts_with].
    + reflexivity.
    + destruct (Ascii.eqb actor_name c); cbn [bind]; rewrite IH; [|reflexivity].
      destruct (forallb _ l); [|reflexivity].
      cbn [add_child data_of children_of map]. now rewrite <- app_assoc.
Qed.

Lemma name_of_link_member (l : Link) : name_of (link_member l) = link_name l.
Proof. reflexivity. Qed.

Lemma name_of_joint_member (j : Joint) : name_of (joint_member j) = joint_name j.
Proof. reflexivity. Qed.

(** What [build_actor_node] builds. *)
Lemma build_actor_node_eq (self : UrdfToSimoxXml) (actor_name : ascii) :
  build_actor_node self actor_name
  = if forallb (fun l => is_nonempty (link_name l)) (links_ self)
    then if forallb (fun j => is_nonempty (joint_name j)) (joints_ self)
         then Ok (PT "" (actor_head actor_name
                           ++ map (fun l => ("Node", link_member l))
                                (filter (fun l => starts_with actor_name (link_name l))
                                   (links_ self))
                           ++ map (fun j => ("Node", joint_member j))
                                (filter (fun j => starts_with actor_name (joint_name j))
                                   (joints_ self)))%list)
         else Err OutOfRange
    else Err OutOfRange.
Proof.
  unfold build_actor_node.
  rewrite (members_loop link_name link_member actor_name (links_ self)).
  destruct (forallb _ (links_ self)); [|reflexivity].
  cbn [bind].
  rewrite (members_loop joint_name joint_member actor_name (joints_ self)).
  destruct (forallb _ (joints_ self)); [|reflexivity].
  cbn [data_of children_of]. now rewrite <- app_assoc.
Qed.

Lemma actor_node_facts (self : UrdfToSimoxXml) (actor_name : ascii) (node : ptree) :
  build_actor_node self actor_name = Ok node ->
  name_of node = string_of_char actor_name /\
  member_names node
  = (map link_name (filter (fun l => starts_with actor_name (link_name l)) (links_ self))
       ++ map joint_name
            (filter (fun j => starts_with actor_name (joint_name j)) (joints_ self)))%list.
Proof.
  rewrite build_actor_node_eq.
  destruct (forallb _ (links_ self)); [|discriminate].
  destruct (forallb _ (joints_ self)); [|discriminate].
  set (built := PT "" _). intros H. injection H as <-. subst built. split.
  - reflexivity.
  - unfold member_names.
    rewrite PtreeFacts.children_tagged_app, PtreeFacts.children_tagged_app.
    rewrite !PtreeFacts.children_tagged_map_same.
    change (children_tagged "Node" (PT "" (actor_head actor_name))) with (@nil ptree).
    cbn [app]. rewrite map_app, !map_map.
    f_equal.
Qed.

(** The loop over the actors: one [Actor] child per key, in key order. *)
Lemma actors_loop (self : UrdfToSimoxXml) (actors : int_map) (node result : ptree) :
  foreach (fun Endeffector_node (iter : Z * bool) =>
             let actor_name := int_to_char (fst iter) in
             Actor_node <- build_actor_node self actor_name ;;
             Ok (add_child Endeffector_node "Actor" Actor_node))
          actors node = Ok result ->
  exists nodes,
    result = PT (data_of node)
               (children_of node ++ map (fun n => ("Actor", n)) nodes)%list /\
    Forall2 (fun iter n => build_actor_node self (int_to_char (fst iter)) = Ok n)
            actors nodes.
Proof.
  revert node; induction actors as [|iter actors IH]; intros [d cs] H.
  - cbn in H. injection H as <-. exists []. simpl. rewrite app_nil_r. auto.
  - cbn [foreach] in H. cbv zeta in H.
    destruct (build_actor_node self (int_to_char (fst iter))) as [a|e] eqn:E;
      [|discriminate H].
    cbn [bind] in H. apply IH in H. destruct H as [nodes [-> HF]].
    exists (a :: nodes). split.
    + cbn [add_child data_of children_of map]. now rewrite <- app_assoc.
    + constructor; assumption.
Qed.

End EndeffectorFacts.

Section ActorGroups.

Variable char_signed : bool.

Lemma Forall2_built_names (self : UrdfToSimoxXml) (actors : int_map) (nodes : list ptree) :
  Forall2 (fun iter n => build_actor_node self (int_to_char (fst iter)) = Ok n)
          actors nodes ->
  map name_of nodes = map (fun k => string_of_char (int_to_char k)) (map_keys actors).
Proof.
  induction 1 as [|iter n actors nodes Hb _ IH]; simpl; [reflexivity|].
  destruct (EndeffectorFacts.actor_node_facts _ _ _ Hb) as [-> _]. now rewrite IH.
Qed.

Lemma Forall2_built_In (self : UrdfToSimoxXml) (actors : int_map) (nodes : list ptree)
    (a : ptree) :
  Forall2 (fun iter n => build_actor_node self (int_to_char (fst iter)) = Ok n)
          actors nodes ->
  In a nodes ->
  exists k, In k (map_keys actors) /\ build_actor_node self (int_to_char k) = Ok a.
Proof.
  induction 1 as [|iter n actors nodes Hb _ IH]; simpl; [contradiction|].
  intros [<-|Hin].
  - exists (fst iter). auto.
  - destruct (IH Hin) as [k [Hk Hbk]]. exists k. auto.
Qed.

(** The end-effector node [add_endeffector_node_] adds, and its actors. *)
Lemma add_endeffector_node_inv (self : UrdfToSimoxXml) (hand_node hand_node' : ptree)
    (hand_name_upper hand_base hand_tcp hand_gcp base_link : string) :
  add_endeffector_node_ char_signed self hand_node hand_name_upper
    hand_base hand_tcp hand_gcp base_link = Ok hand_node' ->
  exists e actors,
    hand_node' = add_child hand_node "Endeffector" e /\
    get_actors char_signed self [] = Ok actors /\
    Forall2 (fun iter n => build_actor_node self (int_to_char (fst iter)) = Ok n)
            actors (actor_nodes e) /\
    attr_or_empty e "base" = hand_base /\
    attr_or_empty e "tcp" = hand_tcp /\
    attr_or_empty e "gcp" = hand_gcp /\
    flat_map member_names (children_tagged "Preshape" e) = joint_names (joints_ self) /\
    flat_map member_names (children_tagged "Static" e) = [base_link].
Proof.
  unfold add_endeffector_node_.
  destruct (get_actors char_signed self []) as [actors|err] eqn:Hg; [|discriminate].
  cbn [bind].
  rewrite (PtreeFacts.fold_left_add_child "Node"
             (fun joint =>
                put (put (put empty_ptree "<xmlattr>.name" (joint_name joint))
                         "<xmlattr>.unit" "radian") "<xmlattr>.value" "0.0")).
  match goal with
  | |- context [foreach ?body actors ?start] =>
      set (E0 := start); destruct (foreach body actors E0) as [E1|err] eqn:Hloop;
        [|discriminate]
  end.
  cbn [bind]. intros H. injection H as <-.
  apply EndeffectorFacts.actors_loop in Hloop. destruct Hloop as [nodes [-> HF]].
  eexists. exists actors. split; [reflexivity|]. split; [reflexivity|].
  assert (forall tag, String.eqb "Actor" tag = false ->
            children_tagged tag
              (PT (data_of E0) (children_of E0 ++ map (fun n => ("Actor", n)) nodes)%list)
            = children_tagged tag E0) as Hother.
  { intros tag Ht. rewrite PtreeFacts.children_tagged_app.
    rewrite (PtreeFacts.children_tagged_map_other tag "Actor" _ (fun n => n) nodes Ht).
    rewrite app_nil_r. now destruct E0. }
  split.
  { unfold actor_nodes. rewrite PtreeFacts.children_tagged_app.
    rewrite (PtreeFacts.children_tagged_map_same "Actor" (data_of E0) (fun n => n) nodes).
    rewrite map_id.
    change (children_tagged "Actor" (PT (data_of E0) (children_of E0))) with (@nil ptree).
    exact HF. }
  assert (forall a, attr_or_empty
                      (PT (data_of E0)
                         (children_of E0 ++ map (fun n => ("Actor", n)) nodes)%list) a
                    = attr_or_empty E0 a) as Hattr.
  { intros a. unfold attr_or_empty.
    rewrite (PtreeFacts.attr_app _ _ (children_of E0) _
               (PT "" [("name", PT hand_name_upper []); ("base", PT hand_base []);
                       ("tcp", PT hand_tcp []); ("gcp", PT hand_gcp [])]) eq_refl).
    now destruct E0. }
  rewrite !Hattr, !Hother by reflexivity.
  split; [reflexivity|]. split; [reflexivity|]. split; [reflexivity|].
  split; [|reflexivity].
  subst E0. unfold joint_names.
  change (flat_map member_names
            [PT "" ([("<xmlattr>", PT "" [("name", PT "Grasp Preshape" [])]);
                     ("<xmlcomment>",
                      PT "This is just a template. Please set values manually!" [])]
                      ++ map (fun x =>
                                ("Node",
                                 put (put (put empty_ptree "<xmlattr>.name" (joint_name x))
                                          "<xmlattr>.unit" "radian")
                                     "<xmlattr>.value" "0.0")) (joints_ self))%list]
          = map joint_name (joints_ self)).
  cbn [flat_map]. rewrite app_nil_r. unfold member_names.
  rewrite PtreeFacts.children_tagged_app, PtreeFacts.children_tagged_map_same.
  match goal with
  | |- context [children_tagged "Node" (PT "" ?l)] =>
      change (children_tagged "Node" (PT "" l)) with (@nil ptree)
  end.
  cbn [app]. rewrite map_map. apply map_ext. reflexivity.
Qed.

(** C10. In the document [add_endeffector_node_] produces, the keys of the
    actor groups are the first characters of joint names and nothing else; a
    link whose first character starts no joint name is a member of no actor
    group; a link whose first character is a key is a member of that key's
    group. *)
Theorem actor_groups_come_from_joints (self : UrdfToSimoxXml)
    (hand_node hand_node' : ptree)
    (hand_name_upper hand_base hand_tcp hand_gcp base_link : string) :
  add_endeffector_node_ char_signed self hand_node hand_name_upper
    hand_base hand_tcp hand_gcp base_link = Ok hand_node' ->
  exists e,
    hand_node' = add_child hand_node "Endeffector" e /\
    (forall k, In k (actor_keys e) <->
               exists c, k = string_of_char c /\
                         In c (first_chars (joint_names (joints_ self)))) /\
    (forall l, In l (links_ self) ->
               (forall c, first_char (link_name l) = Some c ->
                          ~ In c (first_chars (joint_names (joints_ self)))) ->
               forall a, In a (actor_nodes e) -> ~ In (link_name l) (member_names a)) /\
    (forall l a c, In l (links_ self) -> In a (actor_nodes e) ->
                   first_char (link_name l) = Some c ->
                   name_of a = string_of_char c ->
                   In (link_name l) (member_names a)).
Proof.
  intros H. apply add_endeffector_node_inv in H.
  destruct H as [e [actors [-> [Hg [HF _]]]]].
  exists e. split; [reflexivity|].
  pose proof (get_actors_Ok_nonempty _ _ _ _ Hg) as Hne.
  rewrite (get_actors_classify char_signed self [] Hne) in Hg. injection Hg as <-.
  assert (forall k, In k (map_keys (classify (map (char_to_int char_signed)
                                               (first_chars (joint_names (joints_ self))))))
                    -> In (int_to_char k) (first_chars (joint_names (joints_ self)))) as Hkey.
  { intros k Hk. rewrite MapFacts.classify_In in Hk. apply in_map_iff in Hk.
    destruct Hk as [c [<- Hc]]. now rewrite OrderFacts.int_to_char_to_int. }
  assert (forall a c s, starts_with a (String c s) = true -> a = c) as Hstart.
  { intros a c s E. simpl in E. now apply Ascii.eqb_eq in E. }
  split; [|split].
  - intros k. unfold actor_keys. rewrite (Forall2_built_names _ _ _ HF).
    rewrite in_map_iff. split.
    + intros [i [<- Hi]]. exists (int_to_char i). split; [reflexivity | now apply Hkey].
    + intros [c [-> Hc]]. exists (char_to_int char_signed c). split.
      * now rewrite OrderFacts.int_to_char_to_int.
      * apply MapFacts.classify_In. now apply in_map.
  - intros l Hl Hnone a Ha Hin.
    destruct (Forall2_built_In _ _ _ _ HF Ha) as [k [Hk Hb]].
    destruct (EndeffectorFacts.actor_node_facts _ _ _ Hb) as [_ Hm].
    rewrite Hm in Hin. apply in_app_or in Hin.
    assert (exists s, link_name l = String (int_to_char k) s) as [s Es].
    { destruct Hin as [Hin|Hin]; apply in_map_iff in Hin; destruct Hin as [x [Ex Hx]];
        apply filter_In in Hx; destruct Hx as [_ Hx]; rewrite Ex in Hx;
        destruct (link_name l) as [|c s]; try discriminate Hx;
        apply Hstart in Hx; subst c; now exists s. }
    apply (Hnone (int_to_char k)); [now rewrite Es | now apply Hkey].
  - intros l a c Hl Ha Hc Hname.
    destruct (Forall2_built_In _ _ _ _ HF Ha) as [k [Hk Hb]].
    destruct (EndeffectorFacts.actor_node_facts _ _ _ Hb) as [Hn Hm].
    rewrite Hn in Hname. injection Hname as Hkc.
    rewrite Hm. apply in_or_app. left. apply in_map. apply filter_In.
    split; [exact Hl|]. destruct (link_name l) as [|c' s]; [discriminate Hc|].
    injection Hc as ->. simpl. rewrite Hkc. apply Ascii.eqb_refl.
Qed.

End ActorGroups.

Lemma actor_groups_come_from_joints_witness :
  exists hand_node' e,
    add_endeffector_node_ true hand_converter empty_ptree "DMS"
      "dms_hand_base" "dms_hand_tcp" "dms_hand_gcp" "base_link" = Ok hand_node' /\
    hand_node' = add_child empty_ptree "Endeffector" e /\
    actor_keys e = ["f"; "m"; "t"] /\
    map member_names (actor_nodes e)
    = [["f_link"; "f_joint"]; ["m_link"; "m_joint"]; ["t_link"; "t_joint"]] /\
    (forall a, In a (actor_nodes e) -> ~ In "base_link" (member_names a)).
Proof.
  destruct (add_endeffector_node_ true hand_converter empty_ptree "DMS"
              "dms_hand_base" "dms_hand_tcp" "dms_hand_gcp" "base_link")
    as [hand_node'|err] eqn:Hrun; [|vm_compute in Hrun; discriminate Hrun].
  destruct (actor_groups_come_from_joints true hand_converter empty_ptree hand_node'
              "DMS" "dms_hand_base" "dms_hand_tcp" "dms_hand_gcp" "base_link" Hrun)
    as [e [He [_ [Hnone _]]]].
  exists hand_node', e. split; [reflexivity|]. split; [exact He|].
  assert (Ok hand_node' = Ok (add_child empty_ptree "Endeffector" e)) as Hsame
    by (now rewrite <- He).
  rewrite <- Hrun in Hsame. vm_compute in Hsame. injection Hsame as Hsame.
  split; [rewrite <- Hsame; reflexivity|].
  split; [rewrite <- Hsame; reflexivity|].
  apply (Hnone (hand_base_link)).
  - left. reflexivity.
  - intros c Hc. injection Hc as <-. vm_compute. intuition discriminate.
Defined.

(* ================================================================== *)
(** * The tree emitter *)

(** Induction on kinematic trees, with the hypothesis on every branch. *)
Lemma KTree_branch_ind (P : KTree -> Prop) :
  (forall l bs, Forall (fun b => P (snd b)) bs -> P (KNode l bs)) ->
  forall t, P t.
Proof.
  intros Hnode. fix IH 1. intros [l bs]. apply Hnode.
  induction bs as [|[j s] bs IHbs]; constructor; [apply IH | exact IHbs].
Qed.

Section TreeEmitter.

Variable getPath : string -> string.
Variable meshlabserver : string -> list string * Z.
Variable fs_exists : string -> bool.
Variable getRPY : Rotation -> double * double * double.
Variable self : UrdfToSimoxXml.

Local Abbreviation supported :=
  (supported_link getPath meshlabserver fs_exists (output_dir_ self)).
Local Abbreviation build_link :=
  (build_link_node getPath meshlabserver fs_exists getRPY self).
Local Abbreviation build_joint := (build_joint_node getRPY self).
Local Abbreviation emit_link :=
  (add_link_node_ getPath meshlabserver fs_exists getRPY).
Local Abbreviation emit_joint :=
  (add_joint_node_ getPath meshlabserver fs_exists getRPY).

(** One step of each of the two functions. *)
Lemma add_link_node_step (fuel : nat) (hand_node : ptree) (link : Link) :
  emit_link (S fuel) self hand_node link
  = (link_node <- build_link link ;;
     foreach (fun hand_node child_joint => emit_joint fuel self hand_node child_joint)
             (child_joints link) (add_child hand_node "RobotNode" link_node)).
Proof. reflexivity. Qed.

Lemma add_joint_node_step (fuel : nat) (hand_node : ptree) (child_joint : Joint) :
  emit_joint (S fuel) self hand_node child_joint
  = (built <- build_joint child_joint ;;
     emit_link fuel self (add_child hand_node "RobotNode" (fst built)) (snd built)).
Proof.
  cbn [add_joint_node_].
  destruct (build_joint_node getRPY self child_joint) as [[n c]|e]; reflexivity.
Qed.

(** The node of a supported link. *)
Lemma build_link_node_ok (l : Link) :
  supported l ->
  exists n,
    build_link l = Ok n /\
    summary_of n = link_summary l.
Proof.
  intros [v [file [Hv [Hg Hc]]]].
  unfold build_link_node.
  rewrite Hv. cbn [deref bind]. rewrite Hg, Hc. cbn [bind].
  rewrite (PtreeFacts.fold_left_add_child "Child"
             (fun child_joint => put empty_ptree "<xmlattr>.name" (joint_name child_joint))).
  match goal with
  | |- context [PT (data_of ?x) (children_of ?x ++ _)%list] => set (X := x)
  end.
  eexists. split; [reflexivity|].
  unfold summary_of.
  assert (name_of (PT (data_of X)
                     (children_of X
                        ++ map (fun x => ("Child", put empty_ptree "<xmlattr>.name" (joint_name x)))
                             (child_joints l))%list) = link_name l) as ->.
  { now rewrite (PtreeFacts.name_of_app _ (children_of X) _
                   (PT "" [("name", PT (link_name l) [])]) eq_refl). }
  assert (child_refs (PT (data_of X)
                        (children_of X
                           ++ map (fun x => ("Child", put empty_ptree "<xmlattr>.name" (joint_name x)))
                                (child_joints l))%list) = map joint_name (child_joints l)) as ->.
  { unfold child_refs.
    rewrite PtreeFacts.children_tagged_app, PtreeFacts.children_tagged_map_same.
    change (children_tagged "Child" (PT (data_of X) (children_of X))) with (@nil ptree).
    cbn [app]. rewrite map_map. apply map_ext. reflexivity. }
  unfold is_link_node, is_joint_node.
  rewrite !PtreeFacts.has_child_app.
  rewrite (PtreeFacts.has_child_map_other "Visualization" "Child") by reflexivity.
  rewrite (PtreeFacts.has_child_map_other "Joint" "Child") by reflexivity.
  assert (axis_of (PT (data_of X)
                     (children_of X
                        ++ map (fun x => ("Child", put empty_ptree "<xmlattr>.name" (joint_name x)))
                             (child_joints l))%list) = empty_ptree
                    /\ limits_of (PT (data_of X)
                     (children_of X
                        ++ map (fun x => ("Child", put empty_ptree "<xmlattr>.name" (joint_name x)))
                             (child_joints l))%list) = empty_ptree) as Hp.
  { unfold axis_of, limits_of, sub. cbn [children_of].
    rewrite PtreeFacts.get_child_app.
    change (get_child "Joint" (children_of X)) with (@None ptree).
    assert (get_child "Joint"
              (map (fun x => ("Child", put empty_ptree "<xmlattr>.name" (joint_name x)))
                 (child_joints l)) = None) as ->.
    { induction (child_joints l) as [|x xs IHx]; [reflexivity | exact IHx]. }
    split; reflexivity. }
  destruct Hp as [-> ->].
  reflexivity.
Qed.

(** The node of a supported joint whose child link the model knows. *)
Lemma build_joint_node_ok (j : Joint) (c : Link) :
  supported_joint j ->
  getLink (urdf_model_ self) (child_link_name j) = Some c ->
  exists n,
    build_joint j = Ok (n, c) /\
    summary_of n = joint_summary j (link_name c).
Proof.
  intros Hs Hc. unfold build_joint_node, joint_summary.
  rewrite Hc. cbn [deref].
  destruct Hs as [Hf|[Hr Hl]].
  - rewrite Hf. cbn [bind]. eexists. split; reflexivity.
  - rewrite Hr. destruct (limits j) as [lim|]; [|congruence].
    cbn [set_joint_limits_node_ deref bind]. eexists. split; reflexivity.
Qed.

(** What the branches of a node emit, each branch emitting what its tree
    is to emit with the fuel that is left. *)
Lemma emit_branches (fuel : nat) (bs : list (Joint * KTree)) :
  Forall (fun b => supported_joint (fst b)) bs ->
  Forall (fun b => getLink (urdf_model_ self) (child_link_name (fst b))
                   = Some (root_link (snd b))) bs ->
  Forall (fun b => forall hand_node,
            exists ns,
              emit_link fuel self hand_node (root_link (snd b))
              = Ok (appended hand_node ns) /\
              Forall (fun kn => fst kn = "RobotNode") ns /\
              map (fun kn => summary_of (snd kn)) ns = tree_summary (snd b)) bs ->
  forall hand_node,
  exists ns,
    foreach (fun hand_node child_joint => emit_joint (S fuel) self hand_node child_joint)
            (map fst bs) hand_node
    = Ok (appended hand_node ns) /\
    Forall (fun kn => fst kn = "RobotNode") ns /\
    map (fun kn => summary_of (snd kn)) ns
    = flat_map (fun b => joint_summary (fst b) (link_name (root_link (snd b)))
                           :: tree_summary (snd b)) bs.
Proof.
  induction bs as [|[j s] bs IH]; intros Hsj Hlk Hem hand_node.
  - exists []. cbn. unfold appended. rewrite app_nil_r. destruct hand_node. auto.
  - inversion Hsj as [|? ? Hj Hsj']; subst.
    inversion Hlk as [|? ? Hl Hlk']; subst.
    inversion Hem as [|? ? He Hem']; subst.
    cbn [fst snd] in *.
    destruct (build_joint_node_ok j (root_link s) Hj Hl) as [jn [Hb Hsum]].
    cbn [map foreach fst]. rewrite add_joint_node_step, Hb. cbn [bind fst snd].
    destruct (He (add_child hand_node "RobotNode" jn)) as [ns1 [He1 [Hk1 Hs1]]].
    rewrite He1. cbn [bind].
    destruct (IH Hsj' Hlk' Hem' (appended (add_child hand_node "RobotNode" jn) ns1))
      as [ns2 [He2 [Hk2 Hs2]]].
    rewrite He2.
    exists (("RobotNode", jn) :: ns1 ++ ns2)%list.
    split; [|split].
    + unfold appended, add_child. destruct hand_node as [d cs]. cbn [data_of children_of].
      f_equal. f_equal. rewrite <- !app_assoc. reflexivity.
    + constructor; [reflexivity|]. apply Forall_app. auto.
    + cbn [map flat_map snd fst]. rewrite map_app, Hsum, Hs1, Hs2. reflexivity.
Qed.

End TreeEmitter.

Module TreeFacts.

Lemma flat_map_length_le {A B : Type} (f : A -> list B) (l : list A) (a : A) :
  In a l -> List.length (f a) <= List.length (flat_map f l).
Proof.
  induction l as [|x l IH]; simpl; [contradiction|].
  rewrite length_app. intros [->|H]; [lia | specialize (IH H); lia].
Qed.

Lemma root_in_tree_links (t : KTree) : In (root_link t) (tree_links t).
Proof. destruct t; simpl; auto. Qed.

Lemma tree_summary_names (t : KTree) : map s_name (tree_summary t) = tree_names t.
Proof.
  induction t as [l bs IH] using KTree_branch_ind. simpl. f_equal.
  induction IH as [|[j s] bs Hs _ IHbs]; simpl; [reflexivity|]. simpl in Hs.
  rewrite map_app, Hs, IHbs. reflexivity.
Qed.

Lemma link_name_in_tree_names (t : KTree) (l : Link) :
  In l (tree_links t) -> In (link_name l) (tree_names t).
Proof.
  induction t as [l0 bs IH] using KTree_branch_ind. simpl.
  intros [->|H]; [now left | right].
  apply in_flat_map in H. destruct H as [b [Hb Hl]].
  apply in_flat_map. exists b. split; [exact Hb|]. right.
  rewrite Forall_forall in IH. now apply IH.
Qed.

Lemma joint_name_in_tree_names (t : KTree) (j : Joint) :
  In j (tree_joints t) -> In (joint_name j) (tree_names t).
Proof.
  induction t as [l0 bs IH] using KTree_branch_ind. simpl.
  intros H. right.
  apply in_flat_map in H. destruct H as [b [Hb Hj]].
  apply in_flat_map. exists b. split; [exact Hb|].
  destruct Hj as [<-|Hj]; [now left | right].
  rewrite Forall_forall in IH. now apply IH.
Qed.

(** Every name a node of the tree refers to is a name the tree defines. *)
Lemma tree_refs_in_tree_names (t : KTree) (r : string) :
  tree_shaped t ->
  In r (flat_map s_refs (tree_summary t)) -> In r (tree_names t).
Proof.
  induction t as [l bs IH] using KTree_branch_ind.
  intros Hshape. inversion Hshape as [? ? Hcj Hcl Hsub]; subst.
  cbn [tree_summary flat_map tree_names]. intros H. apply in_app_or in H.
  destruct H as [H|H].
  - cbn [link_summary s_refs] in H. rewrite Hcj, map_map in H.
    apply in_map_iff in H. destruct H as [b [<- Hb]].
    right. apply in_flat_map. exists b. split; [exact Hb | now left].
  - right. rewrite Forall_forall in IH, Hsub.
    apply in_flat_map in H. destruct H as [sm [Hsm Hr]].
    apply in_flat_map in Hsm. destruct Hsm as [b [Hb Hsm]].
    apply in_flat_map. exists b. split; [exact Hb|]. right.
    destruct Hsm as [<-|Hsm].
    + cbn [joint_summary s_refs] in Hr. destruct Hr as [<-|[]].
      apply link_name_in_tree_names, root_in_tree_links.
    + apply (IH b Hb); [now apply Hsub|].
      apply in_flat_map. now exists sm.
Qed.

(** One joint fewer than links. *)
Lemma tree_joints_length (t : KTree) :
  S (List.length (tree_joints t)) = List.length (tree_links t).
Proof.
  induction t as [l bs IH] using KTree_branch_ind. simpl. f_equal.
  induction IH as [|[j s] bs Hs _ IHbs]; simpl; [reflexivity|]. simpl in Hs.
  rewrite !length_app. simpl in Hs. lia.
Qed.

(** The child joints of the links of a tree are the joints of the tree. *)
Lemma child_joints_of_tree (t : KTree) :
  tree_shaped t ->
  Permutation (flat_map child_joints (tree_links t)) (tree_joints t).
Proof.
  induction t as [l bs IH] using KTree_branch_ind.
  intros Hshape. inversion Hshape as [? ? Hcj _ Hsub]; subst.
  cbn [tree_links tree_joints flat_map]. rewrite Hcj.
  clear Hcj Hshape. rewrite Forall_forall in IH, Hsub.
  induction bs as [|[j s] bs IHbs]; [reflexivity|].
  cbn [map flat_map fst snd app]. constructor.
  rewrite flat_map_app.
  rewrite (Permutation_app_comm (map fst bs)), <- app_assoc.
  apply Permutation_app.
  - apply (IH (j, s)); [now left | apply (Hsub (j, s)); now left].
  - rewrite Permutation_app_comm. apply IHbs; intros; [apply IH | apply Hsub]; auto; now right.
Qed.

Lemma tree_summary_links (t : KTree) :
  List.length (filter s_link (tree_summary t)) = List.length (tree_links t).
Proof.
  induction t as [l bs IH] using KTree_branch_ind. simpl. f_equal.
  induction IH as [|[j s] bs Hs _ IHbs]; simpl; [reflexivity|]. simpl in Hs.
  rewrite filter_app, !length_app, Hs, IHbs. reflexivity.
Qed.

Lemma tree_summary_joints (t : KTree) :
  List.length (filter s_joint (tree_summary t)) = List.length (tree_joints t).
Proof.
  induction t as [l bs IH] using KTree_branch_ind. simpl.
  induction IH as [|[j s] bs Hs _ IHbs]; simpl; [reflexivity|]. simpl in Hs.
  rewrite filter_app, !length_app, Hs, IHbs. reflexivity.
Qed.

End TreeFacts.

Section TreeEmission.

Variable getPath : string -> string.
Variable meshlabserver : string -> list string * Z.
Variable fs_exists : string -> bool.
Variable getRPY : Rotation -> double * double * double.
Variable self : UrdfToSimoxXml.

(** Emitting a tree: with fuel for its depth, a supported tree that the
    model's lookups follow adds, for each of its links and joints, one
    structural node, and these nodes say what the tree says. *)
Lemma emit_tree (t : KTree) :
  tree_shaped t ->
  (forall l, In l (tree_links t) -> getLink (urdf_model_ self) (link_name l) = Some l) ->
  Forall (supported_link getPath meshlabserver fs_exists (output_dir_ self)) (tree_links t) ->
  Forall supported_joint (tree_joints t) ->
  forall fuel hand_node,
    2 * List.length (tree_links t) <= fuel ->
    exists ns,
      add_link_node_ getPath meshlabserver fs_exists getRPY fuel self hand_node (root_link t)
      = Ok (appended hand_node ns) /\
      Forall (fun kn => fst kn = "RobotNode") ns /\
      map (fun kn => summary_of (snd kn)) ns = tree_summary t.
Proof.
  induction t as [l bs IH] using KTree_branch_ind.
  intros Hshape Hlook Hsl Hsj fuel hand_node Hfuel.
  inversion Hshape as [? ? Hcj Hcl Hsub]; subst.
  cbn [tree_links tree_joints root_link List.length] in *.
  destruct fuel as [|[|fuel]]; [lia | lia |].
  rewrite (add_link_node_step getPath meshlabserver fs_exists getRPY self).
  inversion Hsl as [|? ? Hl Hsl']; subst.
  destruct (build_link_node_ok getPath meshlabserver fs_exists getRPY self l Hl)
    as [n [Hb Hsum]].
  rewrite Hb. cbn [bind]. rewrite Hcj.
  rewrite Forall_forall in IH, Hcl, Hsub, Hsl', Hsj.
  destruct (emit_branches getPath meshlabserver fs_exists getRPY self fuel bs)
    with (hand_node := add_child hand_node "RobotNode" n) as [ns [He [Hk Hs]]].
  - apply Forall_forall. intros b Hb'. apply Hsj.
    apply in_flat_map. exists b. split; [exact Hb' | now left].
  - apply Forall_forall. intros b Hb'. rewrite (Hcl b Hb'). apply Hlook.
    right. apply in_flat_map. exists b. split; [exact Hb' | apply TreeFacts.root_in_tree_links].
  - apply Forall_forall. intros b Hb' hn. apply (IH b Hb').
    + now apply Hsub.
    + intros l' Hl'. apply Hlook. right. apply in_flat_map. now exists b.
    + apply Forall_forall. intros l' Hl'. apply Hsl'. apply in_flat_map. now exists b.
    + apply Forall_forall. intros j Hj. apply Hsj. apply in_flat_map.
      exists b. split; [exact Hb' | now right].
    + pose proof (TreeFacts.flat_map_length_le (fun b => tree_links (snd b)) bs b Hb'). lia.
  - rewrite He. exists (("RobotNode", n) :: ns). split; [|split].
    + unfold appended, add_child. destruct hand_node as [d cs]. cbn [data_of children_of].
      now rewrite <- app_assoc.
    + constructor; [reflexivity | exact Hk].
    + cbn [map snd tree_summary]. now rewrite Hsum, Hs.
Qed.

End TreeEmission.

(* ================================================================== *)
(** * The assembled document *)

Module ModelFacts.

(** In a model whose link names are distinct, [getLink] finds each link
    under its own name. *)
Lemma getLink_own_name (links : list Link) (l : Link) :
  NoDup (map link_name links) -> In l links ->
  getLink {| model_links := links |} (link_name l) = Some l.
Proof.
  unfold getLink; simpl.
  induction links as [|x links IH]; intros Hnd Hin; [contradiction|].
  simpl in *. inversion Hnd as [|? ? Hx Hnd']; subst.
  destruct Hin as [->|Hin].
  - now rewrite String.eqb_refl.
  - destruct (String.eqb_spec (link_name x) (link_name l)) as [E|_].
    + elim Hx. rewrite E. now apply in_map.
    + now apply IH.
Qed.

Lemma forallb_nonempty {A : Type} (name : A -> string) (l : list A) :
  nonempty_names (map name l) -> forallb (fun x => is_nonempty (name x)) l = true.
Proof.
  unfold nonempty_names. induction l as [|x l IH]; intros H; [reflexivity|].
  inversion H as [|? ? Hx Hl]; subst. simpl. rewrite (IH Hl).
  destruct (name x); [congruence | reflexivity].
Qed.

Lemma nonempty_names_perm (a b : list string) :
  Permutation a b -> nonempty_names a -> nonempty_names b.
Proof. intros Hp H. unfold nonempty_names in *. now rewrite <- Hp. Qed.

End ModelFacts.

Section Assembly.

Variable char_signed : bool.
Variable getPath : string -> string.
Variable meshlabserver : string -> list string * Z.
Variable fs_exists : string -> bool.
Variable getRPY : Rotation -> double * double * double.

(** With names that are not empty the end-effector node is built. *)
Lemma add_endeffector_node_total (self : UrdfToSimoxXml) (hand_node : ptree)
    (hand_name_upper hand_base hand_tcp hand_gcp base_link : string) :
  nonempty_names (link_names (links_ self)) ->
  nonempty_names (joint_names (joints_ self)) ->
  exists hand_node',
    add_endeffector_node_ char_signed self hand_node hand_name_upper
      hand_base hand_tcp hand_gcp base_link = Ok hand_node'.
Proof.
  intros Hl Hj. unfold add_endeffector_node_.
  rewrite (get_actors_classify char_signed self [] Hj). cbn [bind].
  match goal with
  | |- context [foreach ?body ?actors ?start] =>
      assert (forall acts node, exists r, foreach body acts node = Ok r) as Hloop
  end.
  { induction acts as [|iter acts IH]; intros node; [now exists node|].
    cbn [foreach]. cbv zeta. rewrite EndeffectorFacts.build_actor_node_eq.
    unfold link_names, joint_names in *.
    rewrite (ModelFacts.forallb_nonempty link_name _ Hl).
    rewrite (ModelFacts.forallb_nonempty joint_name _ Hj).
    cbn [bind]. apply IH. }
  match goal with
  | |- context [foreach ?body ?actors ?start] =>
      destruct (Hloop actors start) as [r Hr]; rewrite Hr
  end.
  cbn [bind]. eauto.
Qed.

End Assembly.

Section Document.

Variable char_signed : bool.
Variable getPath : string -> string.
Variable meshlabserver : string -> list string * Z.
Variable fs_exists : string -> bool.
Variable getRPY : Rotation -> double * double * double.

Lemma construct_inv (model : Model) (output_dir : string) (self : UrdfToSimoxXml) :
  construct model output_dir = Ok self ->
  model_links model <> [] /\
  self = {| urdf_model_ := model;
            output_dir_ := output_dir;
            links_ := model_links model;
            joints_ := sort_joints (flat_map child_joints (model_links model)) |}.
Proof.
  unfold construct, getLinks. destruct (model_links model) as [|l ls]; [discriminate|].
  intros H. injection H as <-. split; [discriminate | reflexivity].
Qed.

(** The constructor leaves the joints sorted by name. *)
Lemma construct_sorted (model : Model) (output_dir : string) (self : UrdfToSimoxXml) :
  construct model output_dir = Ok self -> sorted_by_name (joints_ self).
Proof.
  intros H. destruct (construct_inv _ _ _ H) as [_ ->]. apply OrderFacts.sort_joints_sorted.
Qed.

(** The joints the constructor collects are the joints of the tree. *)
Lemma constructed_joints (model : Model) (t : KTree) :
  well_formed model t ->
  Permutation (sort_joints (flat_map child_joints (model_links model))) (tree_joints t).
Proof.
  intros [Hshape [Hperm _]].
  rewrite OrderFacts.sort_joints_perm.
  rewrite <- (TreeFacts.child_joints_of_tree t Hshape).
  clear Hshape. induction Hperm; simpl.
  - reflexivity.
  - now apply Permutation_app_head.
  - rewrite !app_assoc. apply Permutation_app_tail, Permutation_app_comm.
  - now transitivity (flat_map child_joints l').
Qed.

(** The members of the actor groups are names of links or of joints. *)
Lemma actor_members_known (self : UrdfToSimoxXml) (actors : int_map) (nodes : list ptree)
    (r : string) :
  Forall2 (fun iter n => build_actor_node self (int_to_char (fst iter)) = Ok n)
          actors nodes ->
  In r (flat_map member_names nodes) ->
  In r (link_names (links_ self)) \/ In r (joint_names (joints_ self)).
Proof.
  intros HF H. apply in_flat_map in H. destruct H as [a [Ha Hr]].
  destruct (Forall2_built_In _ _ _ _ HF Ha) as [k [_ Hb]].
  destruct (EndeffectorFacts.actor_node_facts _ _ _ Hb) as [_ Hm].
  rewrite Hm in Hr. apply in_app_or in Hr.
  destruct Hr as [Hr|Hr]; apply in_map_iff in Hr; destruct Hr as [x [<- Hx]];
    apply filter_In in Hx; destruct Hx as [Hx _]; [left | right]; now apply in_map.
Qed.

(** The document [write_xml] writes for a supported, well-formed kinematic
    tree whose root is the first link of the model. *)
Lemma write_xml_document (model : Model) (t : KTree) (self : UrdfToSimoxXml)
    (constructed_dir output_dir simox_xml_filename : string) (fuel : nat) :
  construct model constructed_dir = Ok self ->
  well_formed model t ->
  hd_error (model_links model) = Some (root_link t) ->
  Forall (supported_link getPath meshlabserver fs_exists constructed_dir)
         (model_links model) ->
  Forall supported_joint (tree_joints t) ->
  nonempty_names (link_names (model_links model)) ->
  nonempty_names (joint_names (tree_joints t)) ->
  List.length (Str.iter_split "." simox_xml_filename) = 2%nat ->
  2 * List.length (model_links model) <= fuel ->
  exists pt e s,
    write_xml char_signed getPath meshlabserver fs_exists getRPY fuel self
      output_dir simox_xml_filename
    = Ok (output_dir ++ "/" ++ simox_xml_filename, pt) /\
    attr (robot_of pt) "Type" = Some (hand_upper simox_xml_filename) /\
    map summary_of (robot_nodes pt)
    = (synthetic_summary (hand_lower simox_xml_filename ++ "_hand_base")
         [hand_lower simox_xml_filename ++ "_hand_tcp";
          hand_lower simox_xml_filename ++ "_hand_gcp";
          link_name (root_link t)]
         :: synthetic_summary (hand_lower simox_xml_filename ++ "_hand_tcp") []
         :: synthetic_summary (hand_lower simox_xml_filename ++ "_hand_gcp") []
         :: tree_summary t) /\
    endeffector_nodes pt = [e] /\
    node_set_nodes pt = [s] /\
    attr_or_empty e "base" = hand_lower simox_xml_filename ++ "_hand_base" /\
    attr_or_empty e "tcp" = hand_lower simox_xml_filename ++ "_hand_tcp" /\
    attr_or_empty e "gcp" = hand_lower simox_xml_filename ++ "_hand_gcp" /\
    flat_map member_names (children_tagged "Preshape" e) = joint_names (joints_ self) /\
    flat_map member_names (children_tagged "Static" e) = [link_name (root_link t)] /\
    (forall r, In r (flat_map member_names (actor_nodes e)) ->
               In r (link_names (links_ self)) \/ In r (joint_names (joints_ self))) /\
    member_names s = joint_names (joints_ self).
Proof.
  intros Hcons Hwf Hroot Hsl Hsj Hnl Hnj Hname Hfuel.
  destruct (construct_inv _ _ _ Hcons) as [_ Hself].
  pose proof (constructed_joints model t Hwf) as Hjoints.
  destruct Hwf as [Hshape [Hperm [Hnd _]]].
  assert (links_ self = model_links model) as Hlinks by (now rewrite Hself).
  assert (joints_ self = sort_joints (flat_map child_joints (model_links model)))
    as Hjs by (now rewrite Hself).
  assert (output_dir_ self = constructed_dir) as Hdir by (now rewrite Hself).
  assert (urdf_model_ self = model) as Hmodel by (now rewrite Hself).
  unfold write_xml. rewrite Hname. cbn [Nat.eqb negb].
  rewrite Hlinks, Hroot. cbn [deref bind].
  fold (hand_upper simox_xml_filename). fold (hand_lower simox_xml_filename).
  set (base := hand_lower simox_xml_filename ++ "_hand_base").
  set (tcp := hand_lower simox_xml_filename ++ "_hand_tcp").
  set (gcp := hand_lower simox_xml_filename ++ "_hand_gcp").
  set (upper := hand_upper simox_xml_filename).
  match goal with
  | |- context [add_link_node_ _ _ _ _ fuel self ?hn _] => set (hn3 := hn)
  end.
  destruct (emit_tree getPath meshlabserver fs_exists getRPY self t) with
    (fuel := fuel) (hand_node := hn3) as [ns [Hemit [Hkeys Hsum]]].
  - exact Hshape.
  - intros l Hl. rewrite Hmodel. destruct model as [links]. simpl in *.
    apply ModelFacts.getLink_own_name; [exact Hnd|].
    now apply (Permutation_in l (Permutation_sym Hperm)).
  - rewrite Hdir. now rewrite <- Hperm.
  - exact Hsj.
  - rewrite <- (Permutation_length Hperm). exact Hfuel.
  - rewrite Hemit. cbn [bind].
    destruct (add_endeffector_node_total char_signed self (appended hn3 ns)
                upper base tcp gcp (link_name (root_link t))) as [hn' Hend].
    + now rewrite Hlinks.
    + rewrite Hjs. eapply ModelFacts.nonempty_names_perm; [|exact Hnj].
      unfold joint_names. apply Permutation_map. now apply Permutation_sym.
    + rewrite Hend. cbn [bind].
      apply add_endeffector_node_inv in Hend.
      destruct Hend as [e [actors [-> [_ [HF [Hb [Ht [Hg [Hpre Hsta]]]]]]]]].
      unfold add_hand_joints_node_.
      rewrite (PtreeFacts.fold_left_add_child "Node"
                 (fun joint => put empty_ptree "<xmlattr>.name" (joint_name joint))).
      match goal with
      | |- context [add_child (add_child (appended hn3 ns) "Endeffector" e)
                      "RobotNodeSet" ?x] => set (s := x)
      end.
      eexists. exists e, s. split; [reflexivity|].
      assert (robot_of (add_child empty_ptree "Robot"
                          (add_child (add_child (appended hn3 ns) "Endeffector" e)
                             "RobotNodeSet" s))
              = PT (data_of hn3)
                   (((children_of hn3 ++ ns) ++ [("Endeffector", e)])
                      ++ [("RobotNodeSet", s)])%list) as Hrobot by reflexivity.
      unfold robot_nodes, endeffector_nodes, node_set_nodes. rewrite Hrobot.
      split.
      { unfold attr. cbn [children_of]. rewrite <- !app_assoc.
        rewrite PtreeFacts.get_child_app. reflexivity. }
      rewrite !PtreeFacts.children_tagged_app.
      rewrite (PtreeFacts.children_tagged_all "RobotNode" (data_of hn3) ns Hkeys).
      rewrite (PtreeFacts.children_tagged_none "Endeffector" "RobotNode" (data_of hn3) ns eq_refl Hkeys).
      rewrite (PtreeFacts.children_tagged_none "RobotNodeSet" "RobotNode" (data_of hn3) ns eq_refl Hkeys).
      split.
      { change (children_tagged "RobotNode" (PT (data_of hn3) [("Endeffector", e)]))
          with (@nil ptree).
        change (children_tagged "RobotNode" (PT (data_of hn3) [("RobotNodeSet", s)]))
          with (@nil ptree).
        rewrite !app_nil_r, map_app, map_map, Hsum. reflexivity. }
      split; [reflexivity|]. split; [reflexivity|].
      split; [exact Hb|]. split; [exact Ht|]. split; [exact Hg|].
      split; [exact Hpre|]. split; [exact Hsta|].
      split.
      { intros r Hr. rewrite <- Hlinks. eapply actor_members_known; eassumption. }
      subst s. unfold member_names.
      rewrite PtreeFacts.children_tagged_app, PtreeFacts.children_tagged_map_same.
      match goal with
      | |- context [children_tagged "Node" (PT ?d (children_of ?x))] =>
          change (children_tagged "Node" (PT d (children_of x))) with (@nil ptree)
      end.
      cbn [app]. rewrite map_map. unfold joint_names. apply map_ext. reflexivity.
Qed.

End Document.

(* ================================================================== *)
(** * Counting the nodes *)

Lemma filter_summary_length (q : summary -> bool) (ns : list ptree) :
  List.length (filter (fun n => q (summary_of n)) ns)
  = List.length (filter q (map summary_of ns)).
Proof.
  induction ns as [|n ns IH]; simpl; [reflexivity|].
  destruct (q (summary_of n)); simpl; now rewrite IH.
Qed.

Lemma map_eq_cons_inv {A B : Type} (f : A -> B) (l : list A) (b : B) (bs : list B) :
  map f l = b :: bs -> exists a l', l = a :: l' /\ f a = b /\ map f l' = bs.
Proof.
  destruct l as [|a l']; simpl; [discriminate|].
  intros H. injection H as H1 H2. now exists a, l'.
Qed.

Section NodeCounts.

Variable char_signed : bool.
Variable getPath : string -> string.
Variable meshlabserver : string -> list string * Z.
Variable fs_exists : string -> bool.
Variable getRPY : Rotation -> double * double * double.

(** X24. For a well-formed kinematic tree of N links that hangs from the
    first link of the model, in the subset the engine supports (mesh
    geometry the delegate converts, revolute or fixed joints, names that are
    not empty, an output filename of two parts), [write_xml] with fuel for
    the depth returns a document whose structural nodes are the three
    synthetic nodes base, tcp and gcp followed by exactly N link-nodes and
    N-1 joint-nodes and nothing else, with exactly one end-effector node and
    one joint-group node; the N-1 joints are all the joints the converter
    holds. *)
Theorem write_xml_node_counts (model : Model) (t : KTree) (self : UrdfToSimoxXml)
    (constructed_dir output_dir simox_xml_filename : string) (fuel : nat) :
  construct model constructed_dir = Ok self ->
  well_formed model t ->
  hd_error (model_links model) = Some (root_link t) ->
  Forall (supported_link getPath meshlabserver fs_exists constructed_dir)
         (model_links model) ->
  Forall supported_joint (tree_joints t) ->
  nonempty_names (link_names (model_links model)) ->
  nonempty_names (joint_names (tree_joints t)) ->
  List.length (Str.iter_split "." simox_xml_filename) = 2%nat ->
  2 * List.length (model_links model) <= fuel ->
  exists pt,
    write_xml char_signed getPath meshlabserver fs_exists getRPY fuel self
      output_dir simox_xml_filename
    = Ok (output_dir ++ "/" ++ simox_xml_filename, pt) /\
    map name_of (firstn 3 (robot_nodes pt)) = synthetic_names simox_xml_filename /\
    forallb is_synthetic_node (firstn 3 (robot_nodes pt)) = true /\
    List.length (filter is_link_node (skipn 3 (robot_nodes pt)))
    = List.length (model_links model) /\
    List.length (filter is_joint_node (skipn 3 (robot_nodes pt)))
    = (List.length (model_links model) - 1)%nat /\
    List.length (skipn 3 (robot_nodes pt))
    = (List.length (model_links model) + (List.length (model_links model) - 1))%nat /\
    List.length (joints_ self) = (List.length (model_links model) - 1)%nat /\
    List.length (endeffector_nodes pt) = 1%nat /\
    List.length (node_set_nodes pt) = 1%nat.
Proof.
  intros Hcons Hwf Hroot Hsl Hsj Hnl Hnj Hname Hfuel.
  destruct (write_xml_document char_signed getPath meshlabserver fs_exists getRPY
              model t self constructed_dir output_dir simox_xml_filename fuel
              Hcons Hwf Hroot Hsl Hsj Hnl Hnj Hname Hfuel)
    as [pt [e [s [Hw [_ [Hsum [He [Hs _]]]]]]]].
  exists pt. split; [exact Hw|].
  pose proof (constructed_joints model t Hwf) as Hjoints.
  destruct (construct_inv _ _ _ Hcons) as [_ Hself].
  destruct Hwf as [Hshape [Hperm _]].
  pose proof (Permutation_length Hperm) as Hlen.
  pose proof (TreeFacts.tree_joints_length t) as Htj.
  apply map_eq_cons_inv in Hsum. destruct Hsum as [n1 [r1 [Hr [H1 Hsum]]]].
  apply map_eq_cons_inv in Hsum. destruct Hsum as [n2 [r2 [-> [H2 Hsum]]]].
  apply map_eq_cons_inv in Hsum. destruct Hsum as [n3 [r3 [-> [H3 Hsum]]]].
  rewrite Hr. cbn [firstn skipn map forallb].
  split.
  { unfold synthetic_names.
    change (name_of n1) with (s_name (summary_of n1)).
    change (name_of n2) with (s_name (summary_of n2)).
    change (name_of n3) with (s_name (summary_of n3)).
    now rewrite H1, H2, H3. }
  split.
  { unfold is_synthetic_node.
    change (is_link_node n1) with (s_link (summary_of n1)).
    change (is_joint_node n1) with (s_joint (summary_of n1)).
    change (is_link_node n2) with (s_link (summary_of n2)).
    change (is_joint_node n2) with (s_joint (summary_of n2)).
    change (is_link_node n3) with (s_link (summary_of n3)).
    change (is_joint_node n3) with (s_joint (summary_of n3)).
    now rewrite H1, H2, H3. }
  split.
  { rewrite (filter_summary_length s_link), Hsum, TreeFacts.tree_summary_links. lia. }
  split.
  { rewrite (filter_summary_length s_joint), Hsum, TreeFacts.tree_summary_joints. lia. }
  split.
  { rewrite <- (length_map summary_of), Hsum.
    rewrite <- (length_map s_name), TreeFacts.tree_summary_names.
    assert (List.length (tree_names t)
            = (List.length (tree_links t) + List.length (tree_joints t))%nat) as ->.
    { clear. induction t as [l bs IH] using KTree_branch_ind. simpl. f_equal.
      induction IH as [|[j s] bs Hs' _ IHbs]; simpl; [reflexivity|]. simpl in Hs'.
      rewrite !length_app, Hs', IHbs. simpl. lia. }
    lia. }
  split.
  { rewrite Hself. cbn [joints_]. rewrite (Permutation_length Hjoints). lia. }
  rewrite He, Hs. split; reflexivity.
Qed.

End NodeCounts.

(* ================================================================== *)
(** * The sample models are what they are said to be *)

(** The sample converters are what the constructor builds for their model. *)
Lemma sample_converters_constructed :
  construct dms_model "/out" = Ok dms_converter /\
  construct hand_model "/out" = Ok hand_converter /\
  construct reversed_model "/out" = Ok reversed_converter /\
  construct clashing_model "/out" = Ok clashing_converter.
Proof. repeat split; reflexivity. Qed.

Lemma dms_well_formed : well_formed dms_model dms_tree.
Proof.
  split; [solve_tree_shaped|]. split; [apply Permutation_refl|].
  split; solve_names.
Qed.

Lemma dms_supported :
  Forall (supported_link sample_getPath quiet_meshlabserver sample_fs_exists "/out")
         (model_links dms_model) /\
  Forall supported_joint (tree_joints dms_tree) /\
  nonempty_names (link_names (model_links dms_model)) /\
  nonempty_names (joint_names (tree_joints dms_tree)).
Proof.
  split; [solve_supported_links|]. split; [solve_supported_joints|].
  split; solve_names.
Qed.

Lemma reversed_well_formed : well_formed reversed_model reversed_tree.
Proof.
  split; [solve_tree_shaped|]. split; [apply perm_swap|].
  split; solve_names.
Qed.

Lemma clashing_well_formed : well_formed clashing_model clashing_tree.
Proof.
  split; [solve_tree_shaped|]. split; [apply Permutation_refl|].
  split; solve_names.
Qed.

Lemma write_xml_node_counts_witness :
  exists pt,
    sample_write_xml dms_converter "dms.xml" = Ok ("/out/dms.xml", pt) /\
    map name_of (firstn 3 (robot_nodes pt))
    = ["dms_hand_base"; "dms_hand_tcp"; "dms_hand_gcp"] /\
    List.length (filter is_link_node (skipn 3 (robot_nodes pt))) = 2%nat /\
    List.length (filter is_joint_node (skipn 3 (robot_nodes pt))) = 1%nat /\
    List.length (endeffector_nodes pt) = 1%nat /\
    List.length (node_set_nodes pt) = 1%nat.
Proof.
  destruct dms_supported as [Hsl [Hsj [Hnl Hnj]]].
  destruct (write_xml_node_counts true sample_getPath quiet_meshlabserver
              sample_fs_exists sample_getRPY dms_model dms_tree dms_converter
              "/out" "/out" "dms.xml" 4
              eq_refl dms_well_formed eq_refl Hsl Hsj Hnl Hnj eq_refl (le_n 4))
    as [pt [Hw [Hn [_ [Hl [Hj [_ [_ [He Hs]]]]]]]]].
  exists pt. repeat split; assumption.
Defined.

Lemma reversed_supported :
  Forall (supported_link sample_getPath quiet_meshlabserver sample_fs_exists "/out")
         (model_links reversed_model) /\
  Forall supported_joint (tree_joints reversed_tree) /\
  nonempty_names (link_names (model_links reversed_model)) /\
  nonempty_names (joint_names (tree_joints reversed_tree)) /\
  NoDup (synthetic_names "dms.xml" ++ tree_names reversed_tree)%list.
Proof.
  split; [solve_supported_links|]. split; [solve_supported_joints|].
  split; [solve_names|]. split; [solve_names|].
  vm_compute. solve_names.
Qed.

(** C2, at the failing input: a palm that carries a finger is a well-formed
    tree of two links and one joint, within the subset the engine supports.
    [getLinks] hands the links out in name order, finger first; [write_xml]
    takes the first link handed out for the base link, and the document it
    returns has one link-node and no joint-node where the claim counts two
    and one. *)
Theorem write_xml_starts_at_first_link :
  well_formed reversed_model reversed_tree /\
  Forall (supported_link sample_getPath quiet_meshlabserver sample_fs_exists "/out")
         (model_links reversed_model) /\
  Forall supported_joint (tree_joints reversed_tree) /\
  List.length (model_links reversed_model) = 2%nat /\
  List.length (tree_joints reversed_tree) = 1%nat /\
  link_name (root_link reversed_tree) = "palm" /\
  map link_name (model_links reversed_model) = ["finger"; "palm"] /\
  construct reversed_model "/out" = Ok reversed_converter /\
  exists pt,
    sample_write_xml reversed_converter "dms.xml" = Ok ("/out/dms.xml", pt) /\
    map name_of (skipn 3 (robot_nodes pt)) = ["finger"] /\
    List.length (filter is_link_node (skipn 3 (robot_nodes pt))) = 1%nat /\
    List.length (filter is_joint_node (skipn 3 (robot_nodes pt))) = 0%nat.
Proof.
  destruct reversed_supported as [Hsl [Hsj _]].
  split; [exact reversed_well_formed|].
  split; [exact Hsl|]. split; [exact Hsj|].
  split; [reflexivity|]. split; [reflexivity|]. split; [reflexivity|].
  split; [reflexivity|]. split; [reflexivity|].
  eexists. split; [vm_compute; reflexivity|].
  split; [reflexivity|]. split; reflexivity.
Qed.

(* ================================================================== *)
(** * Referential integrity *)

Lemma flat_map_summary_refs (ns : list ptree) :
  flat_map child_refs ns = flat_map s_refs (map summary_of ns).
Proof. induction ns as [|n ns IH]; simpl; [reflexivity | now rewrite IH]. Qed.

Section References.

Variable char_signed : bool.
Variable getPath : string -> string.
Variable meshlabserver : string -> list string * Z.
Variable fs_exists : string -> bool.
Variable getRPY : Rotation -> double * double * double.

(** X23. For a well-formed kinematic tree that hangs from the first link
    of the model, in the subset the engine supports, and whose link names,
    joint names and the three synthetic names are pairwise distinct, every
    reference of the document [write_xml] returns (the [Child] entries of
    the structural nodes, the base, tcp and gcp attributes of the
    end-effector node, the members of its preshape, static and actor
    groups, the members of the joint group) names a structural node, and
    exactly one. *)
Theorem write_xml_references_resolve (model : Model) (t : KTree) (self : UrdfToSimoxXml)
    (constructed_dir output_dir simox_xml_filename : string) (fuel : nat) :
  construct model constructed_dir = Ok self ->
  well_formed model t ->
  hd_error (model_links model) = Some (root_link t) ->
  NoDup (synthetic_names simox_xml_filename ++ tree_names t)%list ->
  Forall (supported_link getPath meshlabserver fs_exists constructed_dir)
         (model_links model) ->
  Forall supported_joint (tree_joints t) ->
  nonempty_names (link_names (model_links model)) ->
  nonempty_names (joint_names (tree_joints t)) ->
  List.length (Str.iter_split "." simox_xml_filename) = 2%nat ->
  2 * List.length (model_links model) <= fuel ->
  exists pt,
    write_xml char_signed getPath meshlabserver fs_exists getRPY fuel self
      output_dir simox_xml_filename
    = Ok (output_dir ++ "/" ++ simox_xml_filename, pt) /\
    forall r, In r (references pt) -> defined_once pt r.
Proof.
  intros Hcons Hwf Hroot Hdistinct Hsl Hsj Hnl Hnj Hname Hfuel.
  destruct (write_xml_document char_signed getPath meshlabserver fs_exists getRPY
              model t self constructed_dir output_dir simox_xml_filename fuel
              Hcons Hwf Hroot Hsl Hsj Hnl Hnj Hname Hfuel)
    as [pt [e [s [Hw [_ [Hsum [He [Hs [Hb [Ht [Hg [Hpre [Hsta [Hact Hset]]]]]]]]]]]]]].
  exists pt. split; [exact Hw|].
  pose proof (constructed_joints model t Hwf) as Hjoints.
  destruct (construct_inv _ _ _ Hcons) as [_ Hself].
  destruct Hwf as [Hshape [Hperm _]].
  assert (defined_names pt = (synthetic_names simox_xml_filename ++ tree_names t)%list)
    as Hdef.
  { unfold defined_names.
    change (map name_of (robot_nodes pt))
      with (map (fun n => s_name (summary_of n)) (robot_nodes pt)).
    rewrite <- (map_map summary_of s_name), Hsum.
    cbn [map synthetic_summary s_name]. now rewrite TreeFacts.tree_summary_names. }
  assert (forall r, In r (joint_names (joints_ self)) -> In r (tree_names t)) as Hjn.
  { intros r Hr. unfold joint_names in Hr. apply in_map_iff in Hr.
    destruct Hr as [j [<- Hj]]. apply TreeFacts.joint_name_in_tree_names.
    rewrite Hself in Hj. cbn [joints_] in Hj. now apply (Permutation_in j Hjoints). }
  assert (forall r, In r (link_names (links_ self)) -> In r (tree_names t)) as Hln.
  { intros r Hr. unfold link_names in Hr. apply in_map_iff in Hr.
    destruct Hr as [l [<- Hl]]. apply TreeFacts.link_name_in_tree_names.
    rewrite Hself in Hl. cbn [links_] in Hl. now apply (Permutation_in l Hperm). }
  assert (In (link_name (root_link t)) (tree_names t)) as Hrt
    by apply TreeFacts.link_name_in_tree_names, TreeFacts.root_in_tree_links.
  intros r Hr. unfold defined_once. rewrite Hdef.
  apply NoDup_count_occ'; [exact Hdistinct|].
  unfold references in Hr. rewrite flat_map_summary_refs, Hsum, He, Hs in Hr.
  cbn [flat_map synthetic_summary s_refs app] in Hr.
  rewrite !app_nil_r in Hr. unfold endeffector_refs in Hr. rewrite Hb, Ht, Hg, Hpre, Hsta in Hr.
  unfold synthetic_names. cbn [app] in Hr |- *.
  repeat (destruct Hr as [<-|Hr]; [auto 6 using in_eq, in_cons|]).
  apply in_app_or in Hr. destruct Hr as [Hr|Hr].
  { do 3 right. now apply TreeFacts.tree_refs_in_tree_names. }
  repeat (destruct Hr as [<-|Hr]; [auto 6 using in_eq, in_cons|]).
  do 3 right.
  apply in_app_or in Hr. destruct Hr as [Hr|Hr].
  { apply in_app_or in Hr. destruct Hr as [Hr|Hr]; [now apply Hjn|].
    cbn [app] in Hr. destruct Hr as [<-|Hr]; [exact Hrt|].
    destruct (Hact r Hr); auto. }
  rewrite Hset in Hr. now apply Hjn.
Qed.

End References.

Lemma write_xml_references_resolve_witness :
  exists pt,
    sample_write_xml dms_converter "dms.xml" = Ok ("/out/dms.xml", pt) /\
    forall r, In r (references pt) -> defined_once pt r.
Proof.
  destruct dms_supported as [Hsl [Hsj [Hnl Hnj]]].
  assert (NoDup (synthetic_names "dms.xml" ++ tree_names dms_tree)%list) as Hd
    by (vm_compute; solve_names).
  exact (write_xml_references_resolve true sample_getPath quiet_meshlabserver
           sample_fs_exists sample_getRPY dms_model dms_tree dms_converter
           "/out" "/out" "dms.xml" 4
           eq_refl dms_well_formed eq_refl Hd Hsl Hsj Hnl Hnj eq_refl (le_n 4)).
Defined.

(** C1, at the failing input: a palm that carries a finger by the joint
    "knuckle" is a well-formed tree within the subset the engine supports,
    and its names and the synthetic names are pairwise distinct.  [getLinks]
    hands the links out in name order, finger first; [write_xml] takes the
    first link handed out for the base link and emits what hangs from it.
    The preshape and the joint group of the document it returns refer to
    "knuckle", and no structural node bears that name. *)
Theorem write_xml_dangling_references :
  well_formed reversed_model reversed_tree /\
  Forall (supported_link sample_getPath quiet_meshlabserver sample_fs_exists "/out")
         (model_links reversed_model) /\
  Forall supported_joint (tree_joints reversed_tree) /\
  NoDup (synthetic_names "dms.xml" ++ tree_names reversed_tree)%list /\
  link_name (root_link reversed_tree) = "palm" /\
  map link_name (model_links reversed_model) = ["finger"; "palm"] /\
  construct reversed_model "/out" = Ok reversed_converter /\
  exists pt e s,
    sample_write_xml reversed_converter "dms.xml" = Ok ("/out/dms.xml", pt) /\
    endeffector_nodes pt = [e] /\
    node_set_nodes pt = [s] /\
    flat_map member_names (children_tagged "Preshape" e) = ["knuckle"] /\
    member_names s = ["knuckle"] /\
    In "knuckle" (references pt) /\
    defined_names pt = ["dms_hand_base"; "dms_hand_tcp"; "dms_hand_gcp"; "finger"] /\
    count_occ string_dec (defined_names pt) "knuckle" = 0%nat.
Proof.
  destruct reversed_supported as [Hsl [Hsj [_ [_ Hnd]]]].
  split; [exact reversed_well_formed|].
  split; [exact Hsl|]. split; [exact Hsj|]. split; [exact Hnd|].
  split; [reflexivity|]. split; [reflexivity|]. split; [reflexivity|].
  eexists _, _, _. split; [vm_compute; reflexivity|].
  split; [reflexivity|]. split; [reflexivity|].
  split; [reflexivity|]. split; [reflexivity|].
  split; [vm_compute; tauto|]. split; reflexivity.
Qed.

(** The names have to be distinct: in the document of the model whose joint
    is named like the link it leads to, the [Child] entry "finger" of the
    base link's node names two structural nodes. *)
Lemma write_xml_doubled_reference :
  well_formed clashing_model clashing_tree /\
  hd_error (model_links clashing_model) = Some (root_link clashing_tree) /\
  exists pt,
    sample_write_xml clashing_converter "dms.xml" = Ok ("/out/dms.xml", pt) /\
    In "finger" (references pt) /\
    count_occ string_dec (defined_names pt) "finger" = 2%nat.
Proof.
  split; [exact clashing_well_formed|]. split; [reflexivity|].
  eexists. split; [vm_compute; reflexivity|].
  split; [vm_compute; tauto | vm_compute; reflexivity].
Qed.

(* ================================================================== *)
(** * The two-link scenario *)

Section Scenario.

Variable char_signed : bool.
Variable getPath : string -> string.
Variable meshlabserver : string -> list string * Z.
Variable fs_exists : string -> bool.
Variable getRPY : Rotation -> double * double * double.

(** X25. A model of two links joined by one revolute joint with axis
    (0, 0, 1) and limits [-1.57, 1.57], whose root bears the smaller name
    and is handed out first, converted to "dms.xml": the root node of the
    document has Type "DMS"; its first structural node is the base node,
    whose [Child] entries are dms_hand_tcp, dms_hand_gcp and the root link's
    name, these three; there is exactly one joint-node, and its axis reads
    x="0.000" y="0.000" z="1.000" and its limits lo="-1.570" hi="1.570". *)
Theorem dms_scenario (root child : Link) (j : Joint)
    (constructed_dir output_dir : string) (fuel : nat) :
  child_joints root = [j] ->
  child_joints child = [] ->
  child_link_name j = link_name child ->
  link_name root <> link_name child ->
  Str.lt (link_name root) (link_name child) = true ->
  joint_type j = REVOLUTE ->
  axis j = {| vx := d_0_0; vy := d_0_0; vz := d_1_0 |} ->
  limits j = Some {| lower := d_m1_57; upper := d_1_57 |} ->
  supported_link getPath meshlabserver fs_exists constructed_dir root ->
  supported_link getPath meshlabserver fs_exists constructed_dir child ->
  link_name root <> "" -> link_name child <> "" -> joint_name j <> "" ->
  4 <= fuel ->
  exists self pt,
    construct {| model_links := [root; child] |} constructed_dir = Ok self /\
    write_xml char_signed getPath meshlabserver fs_exists getRPY fuel self
      output_dir "dms.xml" = Ok (output_dir ++ "/dms.xml", pt) /\
    attr (robot_of pt) "Type" = Some "DMS" /\
    (exists base_node others,
       robot_nodes pt = base_node :: others /\
       name_of base_node = "dms_hand_base" /\
       child_refs base_node = ["dms_hand_tcp"; "dms_hand_gcp"; link_name root]) /\
    (exists joint_node,
       filter is_joint_node (robot_nodes pt) = [joint_node] /\
       name_of joint_node = joint_name j /\
       attr (axis_of joint_node) "x" = Some "0.000" /\
       attr (axis_of joint_node) "y" = Some "0.000" /\
       attr (axis_of joint_node) "z" = Some "1.000" /\
       attr (limits_of joint_node) "lo" = Some "-1.570" /\
       attr (limits_of joint_node) "hi" = Some "1.570").
Proof.
  intros Hcj Hcc Hcl Hne Hlt Hty Hax Hlim Hsr Hsc Hnr Hnc Hnj Hfuel.
  set (model := {| model_links := [root; child] |}).
  set (t := KNode root [(j, KNode child [])]).
  assert (well_formed model t) as Hwf.
  { split.
    - apply tree_shaped_node; [exact Hcj | repeat constructor; exact Hcl |].
      apply Forall_cons; [|apply Forall_nil]. cbn [snd].
      apply tree_shaped_node; [exact Hcc | apply Forall_nil | apply Forall_nil].
    - split; [apply Permutation_refl|]. split.
      + cbn. constructor; [intros [H|[]]; now apply Hne | repeat constructor; auto].
      + cbn. repeat constructor. auto. }
  destruct (construct model constructed_dir) as [self|e] eqn:Hcons; [|discriminate Hcons].
  assert (Forall (supported_link getPath meshlabserver fs_exists constructed_dir)
            (model_links model)) as Hsl by (repeat constructor; assumption).
  assert (Forall supported_joint (tree_joints t)) as Hsj.
  { cbn. apply Forall_cons; [|apply Forall_nil].
    right. split; [exact Hty | now rewrite Hlim]. }
  assert (nonempty_names (link_names (model_links model))) as Hnl
    by (repeat constructor; assumption).
  assert (nonempty_names (joint_names (tree_joints t))) as Hnjs
    by (repeat constructor; assumption).
  assert (2 * List.length (model_links model) <= fuel) as Hf by (cbn; lia).
  destruct (write_xml_document char_signed getPath meshlabserver fs_exists getRPY
              model t self constructed_dir output_dir "dms.xml" fuel
              Hcons Hwf eq_refl Hsl Hsj Hnl Hnjs eq_refl Hf)
    as [pt [e [s [Hw [Hty' [Hsum _]]]]]].
  exists self, pt. split; [reflexivity|]. split; [exact Hw|].
  split; [exact Hty'|].
  cbn [t tree_summary flat_map fst snd root_link app] in Hsum.
  apply map_eq_cons_inv in Hsum. destruct Hsum as [n1 [r1 [Hr [H1 Hsum]]]].
  apply map_eq_cons_inv in Hsum. destruct Hsum as [n2 [r2 [-> [H2 Hsum]]]].
  apply map_eq_cons_inv in Hsum. destruct Hsum as [n3 [r3 [-> [H3 Hsum]]]].
  apply map_eq_cons_inv in Hsum. destruct Hsum as [n4 [r4 [-> [H4 Hsum]]]].
  apply map_eq_cons_inv in Hsum. destruct Hsum as [n5 [r5 [-> [H5 Hsum]]]].
  apply map_eq_cons_inv in Hsum. destruct Hsum as [n6 [r6 [-> [H6 Hsum]]]].
  destruct r6; [|discriminate Hsum].
  split.
  + exists n1, [n2; n3; n4; n5; n6]. split; [exact Hr|].
    change (name_of n1) with (s_name (summary_of n1)).
    change (child_refs n1) with (s_refs (summary_of n1)).
    rewrite H1. split; reflexivity.
  + exists n5. rewrite Hr. cbn [filter].
    change (is_joint_node n1) with (s_joint (summary_of n1)).
    change (is_joint_node n2) with (s_joint (summary_of n2)).
    change (is_joint_node n3) with (s_joint (summary_of n3)).
    change (is_joint_node n4) with (s_joint (summary_of n4)).
    change (is_joint_node n5) with (s_joint (summary_of n5)).
    change (is_joint_node n6) with (s_joint (summary_of n6)).
    rewrite H1, H2, H3, H4, H5, H6.
    split; [reflexivity|].
    assert (s_axis (summary_of n5) = [Some "0.000"; Some "0.000"; Some "1.000"]) as Haxis.
    { rewrite H5. cbn [joint_summary s_axis]. rewrite Hty, Hax. reflexivity. }
    assert (s_limits (summary_of n5) = [Some "-1.570"; Some "1.570"]) as Hlimits.
    { rewrite H5. cbn [joint_summary s_limits]. rewrite Hty, Hlim. reflexivity. }
    cbn [summary_of s_axis s_limits] in Haxis, Hlimits.
    injection Haxis as Hx Hy Hz. injection Hlimits as Hlo Hhi.
    change (name_of n5) with (s_name (summary_of n5)). rewrite H5.
    repeat split; assumption.
Qed.

End Scenario.

Lemma dms_scenario_witness :
  exists self pt,
    construct dms_model "/out" = Ok self /\
    write_xml true sample_getPath quiet_meshlabserver sample_fs_exists sample_getRPY
      4 self "/out" "dms.xml" = Ok ("/out/dms.xml", pt) /\
    attr (robot_of pt) "Type" = Some "DMS" /\
    (exists base_node others,
       robot_nodes pt = base_node :: others /\
       name_of base_node = "dms_hand_base" /\
       child_refs base_node = ["dms_hand_tcp"; "dms_hand_gcp"; "base_link"]) /\
    (exists joint_node,
       filter is_joint_node (robot_nodes pt) = [joint_node] /\
       name_of joint_node = "finger_joint" /\
       attr (axis_of joint_node) "x" = Some "0.000" /\
       attr (axis_of joint_node) "y" = Some "0.000" /\
       attr (axis_of joint_node) "z" = Some "1.000" /\
       attr (limits_of joint_node) "lo" = Some "-1.570" /\
       attr (limits_of joint_node) "hi" = Some "1.570").
Proof.
  destruct dms_supported as [Hsl _].
  inversion Hsl as [|? ? Hroot Hrest]; subst.
  inversion Hrest as [|? ? Hchild _]; subst.
  exact (dms_scenario true sample_getPath quiet_meshlabserver sample_fs_exists
           sample_getRPY
           (mesh_link "base_link" [revolute_joint "finger_joint" "finger_link"])
           (mesh_link "finger_link" [])
           (revolute_joint "finger_joint" "finger_link")
           "/out" "/out" 4
           eq_refl eq_refl eq_refl ltac:(discriminate) eq_refl eq_refl eq_refl eq_refl
           Hroot Hchild ltac:(discriminate) ltac:(discriminate) ltac:(discriminate)
           (le_n 4)).
Defined.

(** C3, at the failing input: the palm that carries the finger by one
    revolute joint with axis (0, 0, 1) and limits [-1.57, 1.57] is a model
    of the scenario.  [getLinks] hands the links out in name order, finger
    first; [write_xml] takes the first link handed out for the base link.
    The document for "dms.xml" has Type "DMS", but the third [Child] entry
    of its base node is "finger" where the root link is "palm", and it has
    no joint-node. *)
Theorem dms_scenario_root_handed_out_last :
  well_formed reversed_model reversed_tree /\
  Forall (supported_link sample_getPath quiet_meshlabserver sample_fs_exists "/out")
         (model_links reversed_model) /\
  List.length (model_links reversed_model) = 2%nat /\
  (exists j,
      tree_joints reversed_tree = [j] /\
      joint_type j = REVOLUTE /\
      axis j = {| vx := d_0_0; vy := d_0_0; vz := d_1_0 |} /\
      limits j = Some {| lower := d_m1_57; upper := d_1_57 |}) /\
  link_name (root_link reversed_tree) = "palm" /\
  map link_name (model_links reversed_model) = ["finger"; "palm"] /\
  construct reversed_model "/out" = Ok reversed_converter /\
  exists pt base_node others,
    sample_write_xml reversed_converter "dms.xml" = Ok ("/out/dms.xml", pt) /\
    attr (robot_of pt) "Type" = Some "DMS" /\
    robot_nodes pt = base_node :: others /\
    name_of base_node = "dms_hand_base" /\
    child_refs base_node = ["dms_hand_tcp"; "dms_hand_gcp"; "finger"] /\
    filter is_joint_node (robot_nodes pt) = [].
Proof.
  destruct reversed_supported as [Hsl _].
  split; [exact reversed_well_formed|]. split; [exact Hsl|].
  split; [reflexivity|].
  split; [eexists; repeat split; reflexivity|].
  split; [reflexivity|]. split; [reflexivity|]. split; [reflexivity|].
  eexists _, _, _. split; [vm_compute; reflexivity|].
  repeat split; reflexivity.
Qed.

(* ================================================================== *)
(** * The constructor and the order of the joints *)

Module NameOrder.

Lemma ascii_compare_refl (c : ascii) : Ascii.compare c c = Eq.
Proof. unfold Ascii.compare. apply N.compare_refl. Qed.

Lemma compare_refl (s : string) : String.compare s s = Eq.
Proof.
  induction s as [|c s IH]; [reflexivity|].
  simpl. now rewrite ascii_compare_refl.
Qed.

Lemma ascii_compare_lt_trans (a b c : ascii) :
  Ascii.compare a b = Lt -> Ascii.compare b c = Lt -> Ascii.compare a c = Lt.
Proof.
  unfold Ascii.compare. rewrite !N.compare_lt_iff. apply N.lt_trans.
Qed.

Lemma compare_lt_trans (s1 s2 s3 : string) :
  String.compare s1 s2 = Lt -> String.compare s2 s3 = Lt -> String.compare s1 s3 = Lt.
Proof.
  revert s2 s3; induction s1 as [|a s1 IH]; intros [|b s2] [|c s3]; simpl;
    try discriminate; try reflexivity.
  destruct (Ascii.compare a b) eqn:Eab; try discriminate;
    destruct (Ascii.compare b c) eqn:Ebc; try discriminate; intros H1 H2.
  - apply Ascii.compare_eq_iff in Eab, Ebc. subst. rewrite ascii_compare_refl.
    now apply (IH s2).
  - apply Ascii.compare_eq_iff in Eab. subst. now rewrite Ebc.
  - apply Ascii.compare_eq_iff in Ebc. subst. now rewrite Eab.
  - now rewrite (ascii_compare_lt_trans _ _ _ Eab Ebc).
Qed.

Lemma lt_irrefl (s : string) : Str.lt s s = false.
Proof. unfold Str.lt, String.ltb. now rewrite compare_refl. Qed.

Lemma lt_trans (s1 s2 s3 : string) :
  Str.lt s1 s2 = true -> Str.lt s2 s3 = true -> Str.lt s1 s3 = true.
Proof.
  unfold Str.lt, String.ltb.
  destruct (String.compare s1 s2) eqn:E1; try discriminate.
  destruct (String.compare s2 s3) eqn:E2; try discriminate.
  now rewrite (compare_lt_trans _ _ _ E1 E2).
Qed.

(** Neither smaller than the other: the same string. *)
Lemma unordered_iff_eq (s1 s2 : string) :
  Str.lt s1 s2 = false /\ Str.lt s2 s1 = false <-> s1 = s2.
Proof.
  unfold Str.lt, String.ltb. split.
  - intros [H1 H2]. rewrite (String.compare_antisym s2 s1) in H2.
    destruct (String.compare s1 s2) eqn:E; simpl in *; try discriminate.
    now apply String.compare_eq_iff.
  - intros ->. now rewrite compare_refl.
Qed.

(** "Not smaller" is transitive. *)
Lemma not_lt_trans (s1 s2 s3 : string) :
  Str.lt s2 s1 = false -> Str.lt s3 s2 = false -> Str.lt s3 s1 = false.
Proof.
  intros H1 H2.
  destruct (Str.lt s3 s1) eqn:E; [|reflexivity].
  destruct (Str.lt s1 s2) eqn:E12.
  - rewrite (lt_trans _ _ _ E E12) in H2. discriminate.
  - assert (s1 = s2) as -> by (apply unordered_iff_eq; auto). congruence.
Qed.

Lemma sorted_strongly (l : list Joint) :
  sorted_by_name l ->
  StronglySorted (fun j1 j2 => compareUrdfJoint j2 j1 = false) l.
Proof.
  apply Sorted_StronglySorted. intros a b c Hab Hbc.
  unfold compareUrdfJoint in *. eapply not_lt_trans; eassumption.
Qed.

Lemma same_name_same_joint (l : list Joint) (a b : Joint) :
  NoDup (joint_names l) -> In a l -> In b l -> joint_name a = joint_name b -> a = b.
Proof.
  unfold joint_names. induction l as [|x l IH]; intros Hnd Ha Hb E; [contradiction|].
  simpl in Hnd. inversion Hnd as [|? ? Hx Hnd']; subst.
  destruct Ha as [->|Ha], Hb as [->|Hb]; auto.
  - elim Hx. rewrite E. now apply in_map.
  - elim Hx. rewrite <- E. now apply in_map.
Qed.

(** Two name-sorted arrangements of joints with distinct names are the same
    list. *)
Lemma sorted_arrangement_unique (l1 l2 : list Joint) :
  NoDup (joint_names l1) -> Permutation l1 l2 ->
  sorted_by_name l1 -> sorted_by_name l2 -> l1 = l2.
Proof.
  intros Hnd Hp H1 H2. apply sorted_strongly in H1, H2.
  revert l2 Hp H2. induction H1 as [|a l1 Hs1 IH Ha]; intros l2 Hp H2.
  - now apply Permutation_nil in Hp.
  - destruct l2 as [|b l2]; [apply Permutation_sym, Permutation_nil in Hp; discriminate|].
    apply StronglySorted_inv in H2. destruct H2 as [Hs2 Hb].
    rewrite Forall_forall in Ha, Hb.
    assert (In b (a :: l1)) as Hb1
      by (apply (Permutation_in b (Permutation_sym Hp)); now left).
    assert (In a (b :: l2)) as Ha2 by (apply (Permutation_in a Hp); now left).
    assert (a = b) as ->.
    { apply (same_name_same_joint (a :: l1)); auto; [now left|].
      apply unordered_iff_eq. unfold compareUrdfJoint in *. split.
      - destruct Ha2 as [->|Ha2]; [apply lt_irrefl | now apply Hb].
      - destruct Hb1 as [<-|Hb1]; [apply lt_irrefl | now apply Ha]. }
    f_equal. apply IH.
    + unfold joint_names in *. simpl in Hnd. now inversion Hnd.
    + now apply Permutation_cons_inv in Hp.
    + exact Hs2.
Qed.

End NameOrder.

(** X1. The constructor refuses a model without links with [EmptyModel];
    for any other model it returns a converter that holds the model, the
    output directory and the links in the model's order, and whose joints
    are the child joints of all links, rearranged so that no name is smaller
    than the one before it. *)
Theorem construct_collects_and_sorts (model : Model) (output_dir : string) :
  match model_links model with
  | [] => construct model output_dir = Err EmptyModel
  | _ :: _ =>
      exists self,
        construct model output_dir = Ok self /\
        urdf_model_ self = model /\
        output_dir_ self = output_dir /\
        links_ self = model_links model /\
        sorted_by_name (joints_ self) /\
        Permutation (joints_ self) (flat_map child_joints (model_links model))
  end.
Proof.
  unfold construct, getLinks. destruct (model_links model) as [|l ls]; [reflexivity|].
  eexists. split; [reflexivity|]. cbn [urdf_model_ output_dir_ links_ joints_].
  repeat split.
  - apply OrderFacts.sort_joints_sorted.
  - apply OrderFacts.sort_joints_perm.
Qed.

(** X2. [compareUrdfJoint] is a strict weak ordering, as [std::sort]
    requires of its comparator: no joint is before itself, "before" is
    transitive, and two joints are unordered exactly when they have the same
    name. *)
Theorem compareUrdfJoint_strict_weak_order :
  (forall j, compareUrdfJoint j j = false) /\
  (forall j1 j2 j3,
     compareUrdfJoint j1 j2 = true -> compareUrdfJoint j2 j3 = true ->
     compareUrdfJoint j1 j3 = true) /\
  (forall j1 j2,
     compareUrdfJoint j1 j2 = false /\ compareUrdfJoint j2 j1 = false
     <-> joint_name j1 = joint_name j2).
Proof.
  unfold compareUrdfJoint. split; [|split].
  - intros j. apply NameOrder.lt_irrefl.
  - intros j1 j2 j3. apply NameOrder.lt_trans.
  - intros j1 j2. apply NameOrder.unordered_iff_eq.
Qed.

(** X3. When the joint names are distinct, the order the constructor leaves
    is the only one [std::sort] can leave: every rearrangement of the joints
    in which no name is smaller than the one before it is that list. *)
Theorem sorted_joints_unique (joints sorted : list Joint) :
  NoDup (joint_names joints) ->
  Permutation sorted joints ->
  sorted_by_name sorted ->
  sorted = sort_joints joints.
Proof.
  intros Hnd Hp Hs. apply NameOrder.sorted_arrangement_unique.
  - unfold joint_names in *. now rewrite (Permutation_map joint_name Hp).
  - rewrite Hp. apply Permutation_sym, OrderFacts.sort_joints_perm.
  - exact Hs.
  - apply OrderFacts.sort_joints_sorted.
Qed.

Lemma sorted_joints_unique_witness :
  [revolute_joint "f_joint" "f_link"; revolute_joint "m_joint" "m_link";
   revolute_joint "t_joint" "t_link"]
  = sort_joints (child_joints hand_base_link).
Proof.
  apply sorted_joints_unique.
  - vm_compute. solve_names.
  - vm_compute.
    apply perm_trans with
      (l' := [revolute_joint "f_joint" "f_link"; revolute_joint "t_joint" "t_link";
              revolute_joint "m_joint" "m_link"]).
    + apply perm_skip, perm_swap.
    + apply perm_swap.
  - repeat constructor.
Defined.

(* ================================================================== *)
(** * The mesh delegate: what it resolves, names and refuses *)

Module PathFacts.

Lemma occurrences_app (c : ascii) (a b : string) :
  occurrences c (a ++ b) = occurrences c a + occurrences c b.
Proof.
  induction a as [|x a IH]; simpl; [reflexivity|]. rewrite IH. lia.
Qed.




Lemma substring_skip (d t : string) (k m : nat) :
  substring (String.length d + k) m (d ++ t) = substring k m t.
Proof. induction d as [|a d IH]; simpl; [reflexivity | exact IH]. Qed.

Lemma substring_prefix (a b : string) :
  substring 0 (String.length a) (a ++ b) = a.
Proof. induction a as [|x a IH]; simpl; [now destruct b | now rewrite IH]. Qed.


Lemma find_first_of_none (c : ascii) (s : string) :
  occurrences c s = 0 -> Str.find_first_of s c = None.
Proof.
  induction s as [|a s IH]; [reflexivity|]. simpl.
  destruct (Ascii.eqb a c); [discriminate|]. intros H. now rewrite (IH H).
Qed.

Lemma find_last_of_none (c : ascii) (s : string) :
  occurrences c s = 0 -> Str.find_last_of s c = None.
Proof.
  induction s as [|a s IH]; [reflexivity|]. simpl.
  destruct (Ascii.eqb a c); [discriminate|]. intros H. now rewrite (IH H).
Qed.

Lemma find_first_of_at (c : ascii) (a b : string) :
  occurrences c a = 0 -> Str.find_first_of (a ++ String c b) c = Some (String.length a).
Proof.
  intros H. induction a as [|x a IH]; simpl in *.
  - now rewrite Ascii.eqb_refl.
  - destruct (Ascii.eqb x c); [discriminate|]. now rewrite (IH H).
Qed.

Lemma find_last_of_at (c : ascii) (a b : string) :
  occurrences c b = 0 -> Str.find_last_of (a ++ String c b) c = Some (String.length a).
Proof.
  intros H. induction a as [|x a IH]; simpl.
  - now rewrite (find_last_of_none _ _ H), Ascii.eqb_refl.
  - now rewrite IH.
Qed.

Lemma find_first_of_some (c : ascii) (a b : string) :
  exists n, Str.find_first_of (a ++ String c b) c = Some n.
Proof.
  induction a as [|x a [n IH]]; simpl.
  - rewrite Ascii.eqb_refl. eauto.
  - destruct (Ascii.eqb x c); [eauto|]. rewrite IH. simpl. eauto.
Qed.

(** The last segment of a reference. *)
Lemma last_segment (dir last : string) :
  occurrences "/" last = 0 ->
  match Str.find_first_of (dir ++ String "/" last) "/" with
  | Some _ =>
      match Str.find_last_of (dir ++ String "/" last) "/" with
      | Some sp => Str.from (dir ++ String "/" last) (sp + 1)
      | None => ""
      end
  | None => ""
  end = last.
Proof.
  intros H. destruct (find_first_of_some "/" dir last) as [n ->].
  rewrite (find_last_of_at _ _ _ H). unfold Str.from.
  rewrite StrFacts.length_append. cbn [String.length].
  replace (String.length dir + S (String.length last) - (String.length dir + 1))
    with (String.length last) by lia.
  rewrite substring_skip. cbn [substring]. apply NumberFacts.substring_full.
Qed.

(** The target name of a reference whose last segment is "stem.ext", and of
    one whose last segment has no dot. *)
Lemma simox_basename_dotted (dir stem ext : string) :
  occurrences "/" stem = 0 -> occurrences "." stem = 0 -> occurrences "/" ext = 0 ->
  simox_basename (dir ++ "/" ++ stem ++ "." ++ ext) = stem ++ ".wrl".
Proof.
  intros Hs Hd He. unfold simox_basename.
  change (dir ++ "/" ++ stem ++ "." ++ ext) with (dir ++ String "/" (stem ++ String "." ext)).
  rewrite (last_segment dir (stem ++ String "." ext)).
  2:{ rewrite occurrences_app. simpl. rewrite Hs, He. reflexivity. }
  rewrite (find_first_of_at _ _ _ Hd).
  unfold Str.substr0. now rewrite substring_prefix.
Qed.

Lemma simox_basename_plain (dir stem : string) :
  occurrences "/" stem = 0 -> occurrences "." stem = 0 ->
  simox_basename (dir ++ "/" ++ stem) = stem ++ ".wrl".
Proof.
  intros Hs Hd. unfold simox_basename.
  change (dir ++ "/" ++ stem) with (dir ++ String "/" stem).
  rewrite (last_segment dir stem Hs), (find_first_of_none _ _ Hd).
  reflexivity.
Qed.

(** The joining loop, as long as the counter does not start again. *)
Lemma original_filename_steps (tokens : list string) (n : Z) (acc : string) :
  (0 < n)%Z -> (n + Z.of_nat (List.length tokens) <= 65536)%Z ->
  snd (fold_left original_filename_step tokens (n, acc))
  = fold_left (fun acc token => acc ++ ("/" ++ token)) tokens acc.
Proof.
  revert n acc; induction tokens as [|token tokens IH]; intros n acc Hn Hlen;
    [reflexivity|].
  cbn [fold_left original_filename_step].
  change (List.length (token :: tokens)) with (S (List.length tokens)) in Hlen.
  rewrite Nat2Z.inj_succ in Hlen.
  assert ((n =? 0)%Z = false) as -> by (apply Z.eqb_neq; lia).
  destruct tokens as [|token' tokens]; [reflexivity|].
  change (List.length (token' :: tokens)) with (S (List.length tokens)) in Hlen.
  rewrite Nat2Z.inj_succ in Hlen.
  rewrite Z.mod_small by lia. apply IH; [lia|].
  change (List.length (token' :: tokens)) with (S (List.length tokens)).
  rewrite Nat2Z.inj_succ. lia.
Qed.

(** The counter after the loop has gone through [tokens]. *)
Lemma original_filename_counter (tokens : list string) (n : Z) (acc : string) :
  fst (fold_left original_filename_step tokens (n, acc))
  = ((n + Z.of_nat (List.length tokens)) mod 65536)%Z \/ tokens = [].
Proof.
  revert n acc; induction tokens as [|token tokens IH]; intros n acc; [now right|].
  left. cbn [fold_left original_filename_step].
  change (List.length (token :: tokens)) with (S (List.length tokens)).
  rewrite Nat2Z.inj_succ.
  destruct (IH ((n + 1) mod 65536)%Z
              (if (n =? 0)%Z then acc else acc ++ ("/" ++ token))) as [->| ->].
  - rewrite Z.add_mod_idemp_l by discriminate. f_equal; lia.
  - cbn [fold_left fst List.length Z.of_nat]. f_equal; lia.
Qed.


End PathFacts.

(** X22. The loop that joins the tokens of a reference counts them in an
    [unsigned short]: after the package name and 65535 further tokens the
    counter is 0 again, and the next token is left out of the file name
    handed to the tool, as the package name itself is; the tokens after it
    are joined again. *)
Theorem original_filename_skips_token_65536 (getPath : string -> string)
    (package_name token : string) (before after : list string) :
  Z.of_nat (List.length before) = 65535%Z ->
  (Z.of_nat (List.length after) <= 65535)%Z ->
  original_filename_of getPath (package_name :: before ++ token :: after)
  = fold_left (fun acc token => acc ++ ("/" ++ token)) after
      (fold_left (fun acc token => acc ++ ("/" ++ token)) before (getPath package_name)).
Proof.
  intros Hb Ha. unfold original_filename_of.
  cbn [hd fold_left original_filename_step].
  change ((0 =? 0)%Z) with true. change ((0 + 1) mod 65536)%Z with 1%Z.
  rewrite fold_left_app.
  pose proof (PathFacts.original_filename_counter before 1 (getPath package_name)) as Hc.
  pose proof (PathFacts.original_filename_steps before 1 (getPath package_name)
                ltac:(lia) ltac:(lia)) as Hs.
  destruct (fold_left original_filename_step before (1%Z, getPath package_name))
    as [n acc].
  cbn [fst snd] in Hc, Hs. subst acc.
  assert (n = 0%Z) as ->.
  { destruct Hc as [->|E]; [now rewrite Hb|]. rewrite E in Hb. discriminate Hb. }
  cbn [fold_left original_filename_step].
  change ((0 =? 0)%Z) with true. change ((0 + 1) mod 65536)%Z with 1%Z.
  apply PathFacts.original_filename_steps; lia.
Qed.

Lemma original_filename_skips_token_65536_witness :
  original_filename_of sample_getPath
    ("dms_description" :: repeat "d" (Z.to_nat 65535) ++ "lost" :: ["base_link.STL"])
  = fold_left (fun acc token => acc ++ ("/" ++ token)) ["base_link.STL"]
      (fold_left (fun acc token => acc ++ ("/" ++ token)) (repeat "d" (Z.to_nat 65535))
         (sample_getPath "dms_description")).
Proof.
  assert (Z.of_nat (List.length (repeat "d" (Z.to_nat 65535))) = 65535%Z) as Hbefore.
  { rewrite repeat_length. apply Z2Nat.id. discriminate. }
  assert (Z.of_nat (List.length ["base_link.STL"]) <= 65535)%Z as Hafter
    by discriminate.
  exact (original_filename_skips_token_65536 sample_getPath "dms_description" "lost"
           (repeat "d" (Z.to_nat 65535)) ["base_link.STL"] Hbefore Hafter).
Defined.

Section MeshPaths.

Variable getPath : string -> string.
Variable meshlabserver : string -> list string * Z.
Variable fs_exists : string -> bool.
Variable output_dir : string.


(** X5. The target name is the last segment of the reference up to its
    first dot, with ".wrl" appended, under the "meshes" directory of the
    output directory: for a last segment "stem.ext" everything from the
    first dot on is dropped, and a last segment without a dot is taken
    whole. *)
Theorem simox_filename_from_last_segment (dir stem ext : string) :
  occurrences "/" stem = 0 -> occurrences "." stem = 0 -> occurrences "/" ext = 0 ->
  simox_filename_of output_dir (dir ++ "/" ++ stem ++ "." ++ ext)
  = output_dir ++ "/meshes/" ++ stem ++ ".wrl" /\
  simox_filename_of output_dir (dir ++ "/" ++ stem)
  = output_dir ++ "/meshes/" ++ stem ++ ".wrl".
Proof.
  intros Hs Hd He. unfold simox_filename_of, mesh_dir_of.
  rewrite (PathFacts.simox_basename_dotted dir stem ext Hs Hd He).
  rewrite (PathFacts.simox_basename_plain dir stem Hs Hd).
  rewrite !StrFacts.append_assoc. split; reflexivity.
Qed.

(** X6. A reference that holds "package://" nowhere, or whose remainder
    after the scheme holds no "/", is refused with [MalformedMeshReference];
    the run consists of the exit alone: no directory is created and no
    process is started. *)
Theorem convert_mesh_refuses_malformed (urdf_filename : string) :
  ~ Str.contains urdf_filename packagePrefix \/
  (exists pos1, Str.find urdf_filename packagePrefix = Some pos1 /\
                occurrences "/" (Str.erase urdf_filename pos1 10) = 0) ->
  convert_mesh_run getPath meshlabserver fs_exists output_dir urdf_filename
  = ([EvExit], Err MalformedMeshReference).
Proof.
  intros [H|[pos1 [Hf Ho]]].
  - now apply convert_mesh_no_scheme.
  - apply (convert_mesh_too_short _ _ _ _ _ pos1 Hf).
    rewrite StrFacts.iter_split_length, Ho. lia.
Qed.

(** C8. Once the reference has passed the two checks on its form: if a line
    of the subprocess's output holds "loaded has 0 vn" the delegate fails
    with [MeshConversionFailed], whatever status the subprocess leaves with;
    otherwise it returns the target mesh path: the file named after the
    last segment of the reference up to its first dot, with ".wrl", in the
    "meshes" directory of the output directory. *)
Theorem convert_mesh_signature_decides
    (urdf_filename : string) (pos1 : nat) (lines : list string) (status : Z) :
  Str.find urdf_filename packagePrefix = Some pos1 ->
  (2 <= List.length (Str.iter_split "/" (Str.erase urdf_filename pos1 10)))%nat ->
  meshlabserver
    (command_of getPath output_dir urdf_filename
       (Str.iter_split "/" (Str.erase urdf_filename pos1 10))) = (lines, status) ->
  (Exists (fun str => Str.contains str failure_signature) lines ->
   convert_mesh_ getPath meshlabserver fs_exists output_dir urdf_filename
   = Err MeshConversionFailed) /\
  (~ Exists (fun str => Str.contains str failure_signature) lines ->
   exists file,
     convert_mesh_ getPath meshlabserver fs_exists output_dir urdf_filename = Ok file /\
     (forall dir stem ext,
         urdf_filename = dir ++ "/" ++ stem ++ "." ++ ext ->
         occurrences "/" stem = 0 -> occurrences "." stem = 0 ->
         occurrences "/" ext = 0 ->
         file = output_dir ++ "/meshes/" ++ stem ++ ".wrl") /\
     (forall dir stem,
         urdf_filename = dir ++ "/" ++ stem ->
         occurrences "/" stem = 0 -> occurrences "." stem = 0 ->
         file = output_dir ++ "/meshes/" ++ stem ++ ".wrl")).
Proof.
  intros Hf Hl Hm.
  unfold convert_mesh_, convert_mesh_run. rewrite Hf.
  change (String.length packagePrefix) with 10.
  assert ((List.length (Str.iter_split "/" (Str.erase urdf_filename pos1 10)) <? 2)%nat = false)
    as -> by (apply Nat.ltb_ge; exact Hl).
  rewrite Hm. split; intros H.
  - now rewrite (scan_output_Err _ H).
  - rewrite (scan_output_Ok _ H). cbn [snd]. eexists. split; [reflexivity|].
    unfold simox_filename_of, mesh_dir_of. split.
    + intros dir stem ext -> Hs Hd He.
      rewrite (PathFacts.simox_basename_dotted dir stem ext Hs Hd He).
      now rewrite !StrFacts.append_assoc.
    + intros dir stem -> Hs Hd.
      rewrite (PathFacts.simox_basename_plain dir stem Hs Hd).
      now rewrite !StrFacts.append_assoc.
Qed.

End MeshPaths.

Lemma convert_mesh_signature_decides_witness :
  convert_mesh_ sample_getPath failing_meshlabserver sample_fs_exists "/out"
    sample_mesh_reference = Err MeshConversionFailed /\
  convert_mesh_ sample_getPath quiet_meshlabserver sample_fs_exists "/out"
    sample_mesh_reference = Ok "/out/meshes/base_link.wrl".
Proof.
  split.
  - destruct (convert_mesh_signature_decides sample_getPath failing_meshlabserver
                sample_fs_exists "/out" sample_mesh_reference 0
                (fst (failing_meshlabserver "")) 0%Z eq_refl)
      as [Hfail _]; [vm_compute; lia | reflexivity |].
    apply Hfail. right. left.
    exists "Mesh base_link.STL ", " 0 fn". reflexivity.
  - destruct (convert_mesh_signature_decides sample_getPath quiet_meshlabserver
                sample_fs_exists "/out" sample_mesh_reference 0
                (fst (quiet_meshlabserver "")) 0%Z eq_refl)
      as [_ Hquiet]; [vm_compute; lia | reflexivity |].
    destruct Hquiet as [file [Hfile [Hdotted _]]].
    + intros H.
      repeat (apply Exists_cons in H; destruct H as [H|H];
              [apply StrFacts.find_Some_iff_contains in H; destruct H as [n H];
               vm_compute in H; discriminate H|]).
      inversion H.
    + rewrite Hfile. f_equal.
      apply (Hdotted "package://dms_description/meshes" "base_link" "STL");
        reflexivity.
Defined.


Lemma simox_filename_from_last_segment_witness :
  simox_filename_of "/out" "package://dms_description/meshes/base_link.v2.STL"
  = "/out/meshes/base_link.wrl" /\
  simox_filename_of "/out" "package://dms_description/meshes/base_link"
  = "/out/meshes/base_link.wrl".
Proof.
  exact (simox_filename_from_last_segment "/out" "package://dms_description/meshes"
           "base_link" "v2.STL" eq_refl eq_refl eq_refl).
Defined.

Lemma convert_mesh_refuses_malformed_witness :
  convert_mesh_run sample_getPath quiet_meshlabserver sample_fs_exists "/out"
    "meshes/base_link.STL" = ([EvExit], Err MalformedMeshReference) /\
  convert_mesh_run sample_getPath quiet_meshlabserver sample_fs_exists "/out"
    "package://base_link.STL" = ([EvExit], Err MalformedMeshReference).
Proof.
  split.
  - apply convert_mesh_refuses_malformed. left.
    apply StrFacts.find_None_iff. reflexivity.
  - apply convert_mesh_refuses_malformed. right.
    exists 0. split; reflexivity.
Defined.

(* ================================================================== *)
(** * What a link node and a joint node carry *)

Section NodeContent.

Variable getPath : string -> string.
Variable meshlabserver : string -> list string * Z.
Variable fs_exists : string -> bool.
Variable getRPY : Rotation -> double * double * double.
Variable self : UrdfToSimoxXml.

(** When the mesh delegate returns, it returns the target path. *)
Lemma convert_mesh_returns_target (output_dir urdf_filename file : string) :
  convert_mesh_ getPath meshlabserver fs_exists output_dir urdf_filename = Ok file ->
  file = simox_filename_of output_dir urdf_filename.
Proof.
  unfold convert_mesh_, convert_mesh_run.
  destruct (Str.find urdf_filename packagePrefix); [|discriminate].
  destruct (_ <? 2)%nat; [discriminate|].
  destruct (meshlabserver _) as [lines status].
  destruct (scan_output lines); cbn [snd]; congruence.
Qed.

(** What stops [build_link_node], and that nothing else does. *)
Lemma build_link_node_error (l : Link) :
  match build_link_node getPath meshlabserver fs_exists getRPY self l with
  | Ok _ => link_error getPath meshlabserver fs_exists (output_dir_ self) l = None
  | Err e => link_error getPath meshlabserver fs_exists (output_dir_ self) l = Some e
  end.
Proof.
  unfold build_link_node, link_error.
  destruct (visual l) as [v|]; [|reflexivity]. cbn [deref bind].
  destruct (gtype (geometry v)); try reflexivity.
  destruct (convert_mesh_ _ _ _ _ _) as [file|e]; reflexivity.
Qed.

Lemma link_error_None (l : Link) :
  link_error getPath meshlabserver fs_exists (output_dir_ self) l = None <->
  supported_link getPath meshlabserver fs_exists (output_dir_ self) l.
Proof.
  unfold link_error, supported_link. split.
  - destruct (visual l) as [v|]; [|discriminate].
    destruct (gtype (geometry v)) eqn:Hg; try discriminate.
    destruct (convert_mesh_ _ _ _ _ _) as [file|e] eqn:Hc; [|discriminate].
    intros _. exists v, file. auto.
  - intros [v [file [-> [-> ->]]]]. reflexivity.
Qed.

Lemma joint_error_None (j : Joint) : joint_error j = None <-> supported_joint j.
Proof.
  unfold joint_error, supported_joint. split.
  - destruct (joint_type j); try discriminate.
    + destruct (limits j); [|discriminate]. intros _. right. split; congruence.
    + now left.
  - intros [->|[-> H]]; [reflexivity|]. destruct (limits j); congruence.
Qed.

(** What stops [build_joint_node] when the model knows the child link. *)
Lemma build_joint_node_error (j : Joint) (c : Link) :
  getLink (urdf_model_ self) (child_link_name j) = Some c ->
  match build_joint_node getRPY self j with
  | Ok built => joint_error j = None /\ snd built = c
  | Err e => joint_error j = Some e
  end.
Proof.
  intros Hc. unfold build_joint_node, joint_error. rewrite Hc. cbn [deref].
  destruct (joint_type j); try reflexivity.
  - destruct (limits j); cbn [set_joint_limits_node_ deref bind snd]; auto.
  - cbn [bind snd]. auto.
Qed.

(** X7. A link for which a node is built has a visual whose geometry is a
    mesh; the node carries the link's name, the three coordinates of the
    visual's position in m and the roll, pitch and yaw of its rotation in
    radian, each as [to_string_] writes it, one [Child] entry for each of
    the link's joints in declaration order, and, as visualization file and
    as collision file alike, the path the mesh delegate returns for the mesh
    under the output directory given at construction. *)
Theorem link_node_content (l : Link) (n : ptree) :
  build_link_node getPath meshlabserver fs_exists getRPY self l = Ok n ->
  exists v,
    visual l = Some v /\ gtype (geometry v) = MESH /\
    name_of n = link_name l /\
    transform_attrs n = rendered_pose getRPY (origin v) /\
    attr (sub n "Visualization") "enable" = Some "true" /\
    attr (sub (sub n "Visualization") "File") "type" = Some "Inventor" /\
    attr (sub (sub n "CollisionModel") "File") "type" = Some "Inventor" /\
    visualization_file n = simox_filename_of (output_dir_ self) (filename (geometry v)) /\
    collision_file n = simox_filename_of (output_dir_ self) (filename (geometry v)) /\
    child_refs n = map joint_name (child_joints l) /\
    is_joint_node n = false.
Proof.
  intros H.
  assert (supported_link getPath meshlabserver fs_exists (output_dir_ self) l) as Hs.
  { apply link_error_None. pose proof (build_link_node_error l) as He.
    now rewrite H in He. }
  destruct (build_link_node_ok getPath meshlabserver fs_exists getRPY self l Hs)
    as [n' [Hb Hsum]].
  rewrite H in Hb. injection Hb as <-.
  destruct Hs as [v [file [Hv [Hg Hc]]]]. exists v.
  split; [exact Hv|]. split; [exact Hg|].
  pose proof (f_equal s_name Hsum) as Hname.
  pose proof (f_equal s_refs Hsum) as Hrefs.
  pose proof (f_equal s_joint Hsum) as Hjoint.
  cbn [summary_of link_summary s_name s_refs s_joint] in Hname, Hrefs, Hjoint.
  split; [exact Hname|].
  pose proof (convert_mesh_returns_target _ _ _ Hc) as Hfile.
  revert H. unfold build_link_node.
  rewrite Hv. cbn [deref bind]. rewrite Hg, Hc. cbn [bind].
  rewrite (PtreeFacts.fold_left_add_child "Child"
             (fun child_joint => put empty_ptree "<xmlattr>.name" (joint_name child_joint))).
  match goal with
  | |- context [PT (data_of ?x) (children_of ?x ++ _)%list] => set (X := x)
  end.
  intros H. injection H as H.
  assert (forall tag, get_child tag (children_of n)
                      = match get_child tag (children_of X) with
                        | Some c => Some c
                        | None =>
                            get_child tag
                              (map (fun x => ("Child",
                                              put empty_ptree "<xmlattr>.name" (joint_name x)))
                                 (child_joints l))
                        end) as Hget.
  { intros tag. rewrite <- H. exact (PtreeFacts.get_child_app tag (children_of X) _). }
  assert (sub n "Transform" = sub X "Transform") as HT
    by (unfold sub; rewrite Hget; reflexivity).
  assert (sub n "Visualization" = sub X "Visualization") as HV
    by (unfold sub; rewrite Hget; reflexivity).
  assert (sub n "CollisionModel" = sub X "CollisionModel") as HC
    by (unfold sub; rewrite Hget; reflexivity).
  unfold transform_attrs, translation_of, rollpitchyaw_of, visualization_file,
    collision_file.
  rewrite HT, HV, HC, <- Hfile.
  split.
  { unfold rendered_pose. subst X. unfold set_rollpitchyaw_node_.
    destruct (getRPY (rotation (origin v))) as [[roll pitch] yaw]. reflexivity. }
  repeat (split; [reflexivity|]).
  split; [exact Hrefs | exact Hjoint].
Qed.

(** X8. A joint for which a node is built is fixed, or revolute with
    limits, and the model knows its child link; the node carries the joint's
    name, the position and the roll, pitch and yaw of the joint in its
    parent, one [Child] entry naming the link found, and a [Joint] payload
    of type "fixed" without axis or limits, or of type "revolute" with the
    axis and, in radian, the two limits; every number as [to_string_] writes
    it. *)
Theorem joint_node_content (j : Joint) (n : ptree) (child_link : Link) :
  build_joint_node getRPY self j = Ok (n, child_link) ->
  getLink (urdf_model_ self) (child_link_name j) = Some child_link /\
  name_of n = joint_name j /\
  transform_attrs n = rendered_pose getRPY (parent_to_joint_origin_transform j) /\
  child_refs n = [link_name child_link] /\
  is_link_node n = false /\
  ((joint_type j = FIXED /\
    attr (sub n "Joint") "type" = Some "fixed" /\
    has_child "Axis" (sub n "Joint") = false /\
    has_child "Limits" (sub n "Joint") = false) \/
   (exists lim,
      joint_type j = REVOLUTE /\ limits j = Some lim /\
      attr (sub n "Joint") "type" = Some "revolute" /\
      map (attr (axis_of n)) ["x"; "y"; "z"]
      = [Some (to_string_ (vx (axis j))); Some (to_string_ (vy (axis j)));
         Some (to_string_ (vz (axis j)))] /\
      map (attr (limits_of n)) ["unit"; "lo"; "hi"]
      = [Some "radian"; Some (to_string_ (lower lim)); Some (to_string_ (upper lim))])).
Proof.
  unfold build_joint_node.
  assert (forall node : ptree,
             transform_attrs
               (add_child
                  (add_child
                     (add_child (put empty_ptree "<xmlattr>.name" (joint_name j))
                        "Transform"
                        (add_child
                           (add_child empty_ptree "Translation"
                              (set_translation_node_ empty_ptree
                                 (position (parent_to_joint_origin_transform j))))
                           "rollpitchyaw"
                           (set_rollpitchyaw_node_ getRPY empty_ptree
                              (rotation (parent_to_joint_origin_transform j)))))
                     "Joint" node)
                  "Child" (put empty_ptree "<xmlattr>.name" (link_name child_link)))
             = rendered_pose getRPY (parent_to_joint_origin_transform j)) as Hpose.
  { intros node. unfold rendered_pose, set_rollpitchyaw_node_.
    destruct (getRPY (rotation (parent_to_joint_origin_transform j)))
      as [[roll pitch] yaw]. reflexivity. }
  destruct (joint_type j) eqn:Ht; try discriminate.
  - destruct (limits j) as [lim|] eqn:Hl; [|discriminate].
    cbn [set_joint_limits_node_ deref bind].
    destruct (getLink (urdf_model_ self) (child_link_name j)) as [c|]; [|discriminate].
    cbn [deref bind]. intros H. injection H as <- ->.
    split; [reflexivity|]. split; [reflexivity|]. split; [apply Hpose|].
    split; [reflexivity|]. split; [reflexivity|].
    right. exists lim. repeat (split; [reflexivity|]). reflexivity.
  - cbn [bind].
    destruct (getLink (urdf_model_ self) (child_link_name j)) as [c|]; [|discriminate].
    cbn [deref bind]. intros H. injection H as <- ->.
    split; [reflexivity|]. split; [reflexivity|]. split; [apply Hpose|].
    split; [reflexivity|]. split; [reflexivity|].
    left. repeat (split; [reflexivity|]). reflexivity.
Qed.

End NodeContent.

Lemma link_node_content_witness :
  exists n,
    build_link_node sample_getPath quiet_meshlabserver sample_fs_exists sample_getRPY
      hand_converter offset_link = Ok n /\
    name_of n = "base_link" /\
    transform_attrs n
    = ([Some "-0.010"; Some "-0.035"; Some "0.070"; Some "m"],
       [Some "0.000"; Some "0.000"; Some "0.000"; Some "radian"]) /\
    visualization_file n = "/out/meshes/palm.wrl" /\
    collision_file n = "/out/meshes/palm.wrl" /\
    child_refs n = ["t_joint"; "f_joint"].
Proof.
  eexists.
  destruct (link_node_content sample_getPath quiet_meshlabserver sample_fs_exists
              sample_getRPY hand_converter offset_link _ eq_refl)
    as (v & Hv & _ & Hn & Hp & _ & _ & _ & Hf & Hc & Hr & _).
  injection Hv as <-.
  split; [reflexivity|]. split; [exact Hn|]. split; [exact Hp|].
  split; [exact Hf|]. split; [exact Hc | exact Hr].
Defined.

Lemma joint_node_content_witness :
  exists n,
    build_joint_node sample_getRPY hand_converter (offset_joint "t_joint" "t_link")
    = Ok (n, mesh_link "t_link" []) /\
    name_of n = "t_joint" /\
    transform_attrs n
    = ([Some "-0.010"; Some "-0.035"; Some "0.070"; Some "m"],
       [Some "0.000"; Some "0.000"; Some "0.000"; Some "radian"]) /\
    child_refs n = ["t_link"] /\
    map (attr (axis_of n)) ["x"; "y"; "z"] = [Some "0.000"; Some "1.000"; Some "0.000"] /\
    map (attr (limits_of n)) ["unit"; "lo"; "hi"]
    = [Some "radian"; Some "-0.035"; Some "1.570"].
Proof.
  eexists.
  destruct (joint_node_content sample_getRPY hand_converter
              (offset_joint "t_joint" "t_link") _ _ eq_refl)
    as (_ & Hn & Hp & Hc & _ & [(Hfixed & _)|(lim & _ & Hlim & _ & Hax & Hl)]);
    [discriminate Hfixed|].
  injection Hlim as <-.
  split; [reflexivity|]. split; [exact Hn|]. split; [exact Hp|].
  split; [exact Hc|]. split; [exact Hax | exact Hl].
Defined.

(* ================================================================== *)
(** * The walk of the emitter: what it adds and where it stops *)

Module AppendFacts.

Lemma appended_nil (hand_node : ptree) : appended hand_node [] = hand_node.
Proof. destruct hand_node. unfold appended. cbn. now rewrite app_nil_r. Qed.

Lemma appended_app (hand_node : ptree) (a b : list (string * ptree)) :
  appended (appended hand_node a) b = appended hand_node (a ++ b).
Proof. unfold appended. cbn. now rewrite app_assoc. Qed.

Lemma add_child_appended (hand_node : ptree) (key : string) (child : ptree) :
  add_child hand_node key child = appended hand_node [(key, child)].
Proof. reflexivity. Qed.

(** A loop whose body only appends children with one tag only appends
    children with that tag. *)
Lemma foreach_appends {A : Type} (tag : string) (body : ptree -> A -> result ptree) :
  (forall hand_node x r,
      body hand_node x = Ok r ->
      exists ns, r = appended hand_node ns /\ Forall (fun kn => fst kn = tag) ns) ->
  forall xs hand_node r,
    foreach body xs hand_node = Ok r ->
    exists ns, r = appended hand_node ns /\ Forall (fun kn => fst kn = tag) ns.
Proof.
  intros Hbody. induction xs as [|x xs IH]; intros hand_node r H.
  - injection H as <-. exists []. now rewrite appended_nil.
  - cbn [foreach] in H. destruct (body hand_node x) as [r1|e] eqn:Hx; [|discriminate].
    cbn [bind] in H. destruct (Hbody _ _ _ Hx) as [ns1 [-> Hk1]].
    destruct (IH _ _ H) as [ns2 [-> Hk2]].
    exists (ns1 ++ ns2)%list. rewrite appended_app. split; [reflexivity|].
    apply Forall_app. auto.
Qed.

Lemma first_error_node (link_err : Link -> option error) (l : Link)
    (bs : list (Joint * KTree)) :
  first_error link_err (KNode l bs)
  = match link_err l with
    | Some e => Some e
    | None => first_branch_error link_err bs
    end.
Proof.
  cbn [first_error]. destruct (link_err l); [reflexivity|].
  induction bs as [|b bs IH]; [reflexivity|].
  cbn [first_branch_error]. now rewrite IH.
Qed.

End AppendFacts.

Section Walk.

Variable getPath : string -> string.
Variable meshlabserver : string -> list string * Z.
Variable fs_exists : string -> bool.
Variable getRPY : Rotation -> double * double * double.
Variable self : UrdfToSimoxXml.

Local Abbreviation supported :=
  (supported_link getPath meshlabserver fs_exists (output_dir_ self)).
Local Abbreviation link_err :=
  (link_error getPath meshlabserver fs_exists (output_dir_ self)).
Local Abbreviation build_link :=
  (build_link_node getPath meshlabserver fs_exists getRPY self).
Local Abbreviation build_joint := (build_joint_node getRPY self).
Local Abbreviation emit_link :=
  (add_link_node_ getPath meshlabserver fs_exists getRPY).
Local Abbreviation emit_joint :=
  (add_joint_node_ getPath meshlabserver fs_exists getRPY).

(** Whatever the model, the two functions only append structural nodes. *)
Lemma emit_appends (fuel : nat) :
  (forall hand_node link r,
      emit_link fuel self hand_node link = Ok r ->
      exists n ns,
        build_link link = Ok n /\
        r = appended hand_node (("RobotNode", n) :: ns) /\
        Forall (fun kn => fst kn = "RobotNode") ns) /\
  (forall hand_node child_joint r,
      emit_joint fuel self hand_node child_joint = Ok r ->
      exists ns,
        r = appended hand_node ns /\ Forall (fun kn => fst kn = "RobotNode") ns).
Proof.
  induction fuel as [|fuel [IHl IHj]]; [split; intros; discriminate|].
  split.
  - intros hand_node link r H.
    rewrite (add_link_node_step getPath meshlabserver fs_exists getRPY self) in H.
    destruct (build_link link) as [n|e] eqn:Hb; [|discriminate]. cbn [bind] in H.
    destruct (AppendFacts.foreach_appends "RobotNode" _ IHj _ _ _ H) as [ns [-> Hk]].
    exists n, ns. split; [reflexivity|]. split; [|exact Hk].
    now rewrite AppendFacts.add_child_appended, AppendFacts.appended_app.
  - intros hand_node child_joint r H.
    rewrite (add_joint_node_step getPath meshlabserver fs_exists getRPY self) in H.
    destruct (build_joint child_joint) as [[n c]|e] eqn:Hb; [|discriminate].
    cbn [bind fst snd] in H.
    destruct (IHl _ _ _ H) as [n' [ns [_ [-> Hk]]]].
    exists (("RobotNode", n) :: ("RobotNode", n') :: ns).
    split.
    + now rewrite AppendFacts.add_child_appended, AppendFacts.appended_app.
    + repeat constructor. exact Hk.
Qed.

(** Where the branches of a node stop, each branch stopping where its tree
    stops with the fuel that is left. *)
Lemma emit_branches_outcome (fuel : nat) (bs : list (Joint * KTree)) :
  Forall (fun b => getLink (urdf_model_ self) (child_link_name (fst b))
                   = Some (root_link (snd b))) bs ->
  Forall (fun b => forall hand_node,
            match first_error link_err (snd b) with
            | Some e => emit_link fuel self hand_node (root_link (snd b)) = Err e
            | None => exists ns,
                emit_link fuel self hand_node (root_link (snd b))
                = Ok (appended hand_node ns)
            end) bs ->
  forall hand_node,
    match first_branch_error link_err bs with
    | Some e =>
        foreach (fun hand_node child_joint => emit_joint (S fuel) self hand_node child_joint)
                (map fst bs) hand_node = Err e
    | None => exists ns,
        foreach (fun hand_node child_joint => emit_joint (S fuel) self hand_node child_joint)
                (map fst bs) hand_node = Ok (appended hand_node ns)
    end.
Proof.
  induction bs as [|[j s] bs IH]; intros Hlk Hem hand_node.
  - exists []. cbn. now rewrite AppendFacts.appended_nil.
  - inversion Hlk as [|? ? Hl Hlk']; subst.
    inversion Hem as [|? ? He Hem']; subst.
    cbn [fst snd] in *. cbn [first_branch_error map foreach fst snd].
    rewrite (add_joint_node_step getPath meshlabserver fs_exists getRPY self).
    pose proof (build_joint_node_error getRPY self j (root_link s) Hl) as Hb.
    destruct (build_joint j) as [[n c]|e].
    + destruct Hb as [-> Hc]. cbn [snd] in Hc. subst c. cbn [bind fst snd].
      specialize (He (add_child hand_node "RobotNode" n)).
      destruct (first_error link_err s) as [e|].
      * now rewrite He.
      * destruct He as [ns1 ->]. cbn [bind].
        specialize (IH Hlk' Hem' (appended (add_child hand_node "RobotNode" n) ns1)).
        destruct (first_branch_error link_err bs) as [e|]; [exact IH|].
        destruct IH as [ns2 ->].
        exists (("RobotNode", n) :: ns1 ++ ns2)%list.
        now rewrite AppendFacts.add_child_appended, !AppendFacts.appended_app.
    + now rewrite Hb.
Qed.

(** Where the emitter stops on a tree that the model's lookups follow: at
    the first stop of the walk, and nowhere if the walk has none. *)
Lemma emit_tree_outcome (t : KTree) :
  tree_shaped t ->
  (forall l, In l (tree_links t) -> getLink (urdf_model_ self) (link_name l) = Some l) ->
  forall fuel hand_node,
    2 * List.length (tree_links t) <= fuel ->
    match first_error link_err t with
    | Some e => emit_link fuel self hand_node (root_link t) = Err e
    | None => exists ns,
        emit_link fuel self hand_node (root_link t) = Ok (appended hand_node ns)
    end.
Proof.
  induction t as [l bs IH] using KTree_branch_ind.
  intros Hshape Hlook fuel hand_node Hfuel.
  inversion Hshape as [? ? Hcj Hcl Hsub]; subst.
  cbn [tree_links root_link List.length] in *.
  destruct fuel as [|[|fuel]]; [lia | lia |].
  rewrite (add_link_node_step getPath meshlabserver fs_exists getRPY self).
  rewrite AppendFacts.first_error_node.
  pose proof (build_link_node_error getPath meshlabserver fs_exists getRPY self l) as Hb.
  destruct (build_link l) as [n|e]; [|now rewrite Hb].
  rewrite Hb. cbn [bind]. rewrite Hcj.
  rewrite Forall_forall in IH, Hcl, Hsub.
  pose proof (emit_branches_outcome fuel bs) as Hbs.
  specialize (Hbs ltac:(apply Forall_forall; intros b Hb'; rewrite (Hcl b Hb');
                        apply Hlook; right; apply in_flat_map; exists b;
                        split; [exact Hb' | apply TreeFacts.root_in_tree_links])).
  assert (Forall (fun b => forall hand_node,
            match first_error link_err (snd b) with
            | Some e => emit_link fuel self hand_node (root_link (snd b)) = Err e
            | None => exists ns,
                emit_link fuel self hand_node (root_link (snd b))
                = Ok (appended hand_node ns)
            end) bs) as Hsubtrees.
  { apply Forall_forall. intros b Hb' hn. apply (IH b Hb').
    - now apply Hsub.
    - intros l' Hl'. apply Hlook. right. apply in_flat_map. now exists b.
    - pose proof (TreeFacts.flat_map_length_le (fun b => tree_links (snd b)) bs b Hb'). lia. }
  specialize (Hbs Hsubtrees (add_child hand_node "RobotNode" n)).
  destruct (first_branch_error link_err bs) as [e|]; [exact Hbs|].
  destruct Hbs as [ns ->]. exists (("RobotNode", n) :: ns).
  now rewrite AppendFacts.add_child_appended, AppendFacts.appended_app.
Qed.

(** What a result of the emitter says about the branches of a node. *)
Lemma emit_branches_inv (fuel : nat) (bs : list (Joint * KTree)) :
  Forall (fun b => getLink (urdf_model_ self) (child_link_name (fst b))
                   = Some (root_link (snd b))) bs ->
  Forall (fun b => forall fuel hand_node r,
            emit_link fuel self hand_node (root_link (snd b)) = Ok r ->
            Forall supported (tree_links (snd b)) /\
            Forall supported_joint (tree_joints (snd b))) bs ->
  forall hand_node r,
    foreach (fun hand_node child_joint => emit_joint fuel self hand_node child_joint)
            (map fst bs) hand_node = Ok r ->
    Forall (fun b => supported_joint (fst b) /\
                     Forall supported (tree_links (snd b)) /\
                     Forall supported_joint (tree_joints (snd b))) bs.
Proof.
  induction bs as [|[j s] bs IH]; intros Hlk Hem hand_node r H; [constructor|].
  inversion Hlk as [|? ? Hl Hlk']; subst.
  inversion Hem as [|? ? He Hem']; subst.
  cbn [fst snd map foreach] in *.
  destruct (emit_joint fuel self hand_node j) as [r1|e] eqn:Hj; [|discriminate].
  cbn [bind] in H.
  destruct fuel as [|fuel]; [discriminate|].
  rewrite (add_joint_node_step getPath meshlabserver fs_exists getRPY self) in Hj.
  pose proof (build_joint_node_error getRPY self j (root_link s) Hl) as Hb.
  destruct (build_joint j) as [[n c]|e]; [|discriminate].
  destruct Hb as [Hje Hc]. cbn [snd] in Hc. subst c. cbn [bind fst snd] in Hj.
  constructor.
  - cbn [fst snd]. split; [now apply joint_error_None|]. exact (He _ _ _ Hj).
  - exact (IH Hlk' Hem' _ _ H).
Qed.

(** A tree for which the emitter returns lies in the supported subset,
    whatever the fuel. *)
Lemma emit_tree_inv (t : KTree) :
  tree_shaped t ->
  (forall l, In l (tree_links t) -> getLink (urdf_model_ self) (link_name l) = Some l) ->
  forall fuel hand_node r,
    emit_link fuel self hand_node (root_link t) = Ok r ->
    Forall supported (tree_links t) /\ Forall supported_joint (tree_joints t).
Proof.
  induction t as [l bs IH] using KTree_branch_ind.
  intros Hshape Hlook fuel hand_node r H.
  inversion Hshape as [? ? Hcj Hcl Hsub]; subst.
  cbn [tree_links tree_joints root_link] in *.
  destruct fuel as [|fuel]; [discriminate|].
  rewrite (add_link_node_step getPath meshlabserver fs_exists getRPY self) in H.
  pose proof (build_link_node_error getPath meshlabserver fs_exists getRPY self l) as Hb.
  destruct (build_link l) as [n|e]; [|discriminate].
  cbn [bind] in H. rewrite Hcj in H.
  rewrite Forall_forall in IH, Hcl, Hsub.
  pose proof (emit_branches_inv fuel bs) as Hbs.
  specialize (Hbs ltac:(apply Forall_forall; intros b Hb'; rewrite (Hcl b Hb');
                        apply Hlook; right; apply in_flat_map; exists b;
                        split; [exact Hb' | apply TreeFacts.root_in_tree_links])).
  assert (Forall (fun b => forall fuel hand_node r,
            emit_link fuel self hand_node (root_link (snd b)) = Ok r ->
            Forall supported (tree_links (snd b)) /\
            Forall supported_joint (tree_joints (snd b))) bs) as Hsubtrees.
  { apply Forall_forall. intros b Hb' fuel' hn r'. apply (IH b Hb').
    - now apply Hsub.
    - intros l' Hl'. apply Hlook. right. apply in_flat_map. now exists b. }
  specialize (Hbs Hsubtrees _ _ H). rewrite Forall_forall in Hbs.
  split.
  - constructor; [now apply link_error_None|].
    apply Forall_forall. intros l' Hl'. apply in_flat_map in Hl'.
    destruct Hl' as [b [Hb' Hl']]. destruct (Hbs b Hb') as [_ [Hls _]].
    rewrite Forall_forall in Hls. now apply Hls.
  - apply Forall_forall. intros j Hj. apply in_flat_map in Hj.
    destruct Hj as [b [Hb' [<-|Hj]]].
    + now destruct (Hbs b Hb').
    + destruct (Hbs b Hb') as [_ [_ Hjs]]. rewrite Forall_forall in Hjs. now apply Hjs.
Qed.

(** X9. Whatever the model and the fuel, a call of [add_link_node_] that
    returns has left the data and the children of [hand_node] as they were
    and has appended structural nodes only, the node of the link first. *)
Theorem add_link_node_only_appends (fuel : nat) (hand_node : ptree) (link : Link)
    (r : ptree) :
  add_link_node_ getPath meshlabserver fs_exists getRPY fuel self hand_node link = Ok r ->
  data_of r = data_of hand_node /\
  exists n ns,
    build_link_node getPath meshlabserver fs_exists getRPY self link = Ok n /\
    children_of r = (children_of hand_node ++ ("RobotNode", n) :: ns)%list /\
    Forall (fun kn => fst kn = "RobotNode") ns.
Proof.
  intros H. destruct (emit_appends fuel) as [Hl _].
  destruct (Hl _ _ _ H) as [n [ns [Hb [-> Hk]]]].
  split; [reflexivity|]. exists n, ns. auto.
Qed.

End Walk.

Lemma add_link_node_only_appends_witness :
  exists r n ns,
    add_link_node_ sample_getPath quiet_meshlabserver sample_fs_exists sample_getRPY
      4 dms_converter (put empty_ptree "<xmlattr>.Type" "DMS")
      (mesh_link "base_link" [revolute_joint "finger_joint" "finger_link"]) = Ok r /\
    data_of r = "" /\
    children_of r
    = (children_of (put empty_ptree "<xmlattr>.Type" "DMS") ++ ("RobotNode", n) :: ns)%list /\
    List.length ns = 2.
Proof.
  eexists.
  destruct (add_link_node_only_appends sample_getPath quiet_meshlabserver sample_fs_exists
              sample_getRPY dms_converter 4 (put empty_ptree "<xmlattr>.Type" "DMS")
              (mesh_link "base_link" [revolute_joint "finger_joint" "finger_link"])
              _ eq_refl) as [Hd [n [ns [Hb [Hc Hk]]]]].
  exists n, ns. split; [reflexivity|]. split; [exact Hd|]. split; [exact Hc|].
  apply (f_equal (@List.length _)) in Hc. rewrite length_app in Hc.
  cbn in Hc. lia.
Defined.

(* ================================================================== *)
(** * The end-effector node: when it is built, and how it groups *)

Section EndeffectorOutcome.

Variable char_signed : bool.

Lemma nonempty_names_forallb {A : Type} (name : A -> string) (l : list A) :
  forallb (fun x => is_nonempty (name x)) l = true -> nonempty_names (map name l).
Proof.
  unfold nonempty_names. induction l as [|x l IH]; simpl; intros H; [constructor|].
  apply andb_prop in H. destruct H as [Hx Hl]. constructor; [|now apply IH].
  destruct (name x); [discriminate | discriminate].
Qed.

(** Only an empty name stops the loop of [get_actors]. *)
Lemma get_actors_loop_Err (js : list Joint) (m : int_map) (e : error) :
  foreach (fun (actors : int_map) joint =>
             first_char <- Str.at0 (joint_name joint) ;;
             let first_int := char_to_int char_signed first_char in
             match map_find first_int actors with
             | None => Ok (map_set first_int true actors)
             | Some _ => Ok actors
             end) js m = Err e ->
  e = OutOfRange.
Proof.
  revert m; induction js as [|j js IH]; intros m H; [discriminate|].
  cbn [foreach] in H. destruct (joint_name j) as [|c s].
  - cbn in H. congruence.
  - cbn [Str.at0 bind] in H.
    destruct (map_find (char_to_int char_signed c) m); cbn [bind] in H; eapply IH; exact H.
Qed.

(** Only an empty name stops the loop over the actors. *)
Lemma actors_loop_Err (self : UrdfToSimoxXml) (actors : int_map) (node : ptree)
    (e : error) :
  foreach (fun Endeffector_node (iter : Z * bool) =>
             let actor_name := int_to_char (fst iter) in
             Actor_node <- build_actor_node self actor_name ;;
             Ok (add_child Endeffector_node "Actor" Actor_node))
          actors node = Err e ->
  e = OutOfRange.
Proof.
  revert node; induction actors as [|iter actors IH]; intros node H; [discriminate|].
  cbn [foreach] in H. cbv zeta in H.
  rewrite EndeffectorFacts.build_actor_node_eq in H.
  destruct (forallb _ (links_ self)); [|cbn in H; congruence].
  destruct (forallb _ (joints_ self)); [|cbn in H; congruence].
  cbn [bind] in H. eapply IH. exact H.
Qed.

(** The keys of the actor groups are distinct. *)
Lemma actor_keys_NoDup (chars : list ascii) :
  NoDup (map (fun k => string_of_char (int_to_char k))
           (map_keys (classify (map (char_to_int char_signed) chars)))).
Proof.
  apply NoDup_map_NoDup_ForallPairs.
  - intros x y Hx Hy E. injection E as E.
    apply (key_of_image_injective char_signed chars);
      [now apply MapFacts.classify_In | now apply MapFacts.classify_In | exact E].
  - apply ascending_NoDup, MapFacts.classify_sorted.
Qed.

Lemma Forall2_built_key (self : UrdfToSimoxXml) (actors : int_map) (nodes : list ptree)
    (k : Z) :
  Forall2 (fun iter n => build_actor_node self (int_to_char (fst iter)) = Ok n)
          actors nodes ->
  In k (map_keys actors) ->
  exists a, In a nodes /\ build_actor_node self (int_to_char k) = Ok a.
Proof.
  induction 1 as [|iter n actors nodes Hb _ IH]; simpl; [contradiction|].
  intros [<-|Hin].
  - exists n. auto.
  - destruct (IH Hin) as [a [Ha Hbk]]. exists a. auto.
Qed.

Lemma first_char_In (js : list Joint) (j : Joint) (c : ascii) :
  In j js -> first_char (joint_name j) = Some c ->
  In c (first_chars (joint_names js)).
Proof.
  intros Hj Hc. induction js as [|x xs IH]; [contradiction|].
  cbn [joint_names map first_chars]. destruct Hj as [->|Hj].
  - rewrite Hc. now left.
  - destruct (first_char (joint_name x)); [right|]; now apply IH.
Qed.

Lemma first_char_starts (js : list Joint) (c : ascii) :
  In c (first_chars (joint_names js)) ->
  filter (fun j => starts_with c (joint_name j)) js <> [].
Proof.
  unfold joint_names. induction js as [|x xs IH]; [contradiction|].
  cbn [map first_chars filter].
  destruct (joint_name x) as [|c' s]; cbn [first_char starts_with].
  - exact IH.
  - intros [->|Hc].
    + rewrite Ascii.eqb_refl. discriminate.
    + destruct (Ascii.eqb c c'); [discriminate | now apply IH].
Qed.

(** A run of [add_endeffector_node_] that returns has met no empty name. *)
Lemma add_endeffector_node_Ok_names (self : UrdfToSimoxXml) (hand_node hand_node' : ptree)
    (hand_name_upper hand_base hand_tcp hand_gcp base_link : string) :
  add_endeffector_node_ char_signed self hand_node hand_name_upper
    hand_base hand_tcp hand_gcp base_link = Ok hand_node' ->
  nonempty_names (joint_names (joints_ self)) /\
  (joints_ self = [] \/ nonempty_names (link_names (links_ self))).
Proof.
  intros H. apply add_endeffector_node_inv in H.
  destruct H as [e [actors [_ [Hg [HF _]]]]].
  pose proof (get_actors_Ok_nonempty _ _ _ _ Hg) as Hne.
  split; [exact Hne|].
  destruct (joints_ self) as [|j js] eqn:Hjs; [now left | right].
  rewrite <- Hjs in Hne.
  rewrite (get_actors_classify char_signed self [] Hne) in Hg. injection Hg as <-.
  rewrite Hjs in Hne, HF. inversion Hne as [|? ? Hj _]; subst.
  destruct (joint_name j) as [|c s] eqn:Hname; [congruence|].
  destruct (Forall2_built_key self _ _ (char_to_int char_signed c) HF) as [a [_ Hb]].
  { apply MapFacts.classify_In. cbn [joint_names map first_chars]. rewrite Hname.
    now left. }
  rewrite EndeffectorFacts.build_actor_node_eq in Hb.
  destruct (forallb (fun l => is_nonempty (link_name l)) (links_ self)) eqn:Hl;
    [|discriminate].
  now apply nonempty_names_forallb.
Qed.

(** A run of [add_endeffector_node_] that does not return has stopped at an
    empty name. *)
Lemma add_endeffector_node_Err (self : UrdfToSimoxXml) (hand_node : ptree)
    (hand_name_upper hand_base hand_tcp hand_gcp base_link : string) (e : error) :
  add_endeffector_node_ char_signed self hand_node hand_name_upper
    hand_base hand_tcp hand_gcp base_link = Err e ->
  e = OutOfRange.
Proof.
  unfold add_endeffector_node_.
  destruct (get_actors char_signed self []) as [actors|err] eqn:Hg.
  - cbn [bind].
    match goal with
    | |- context [foreach ?body actors ?start] =>
        destruct (foreach body actors start) as [E1|err] eqn:Hloop
    end; [discriminate|].
    cbn [bind]. intros H. injection H as <-.
    eapply actors_loop_Err. exact Hloop.
  - cbn [bind]. intros H. injection H as <-.
    unfold get_actors in Hg. eapply get_actors_loop_Err. exact Hg.
Qed.

(** X10. [add_endeffector_node_] returns exactly when no joint has an empty
    name and, if there is a joint at all, no link has one either; and when
    it does not return, it has stopped with [OutOfRange]. *)
Theorem add_endeffector_node_outcome (self : UrdfToSimoxXml) (hand_node : ptree)
    (hand_name_upper hand_base hand_tcp hand_gcp base_link : string) :
  ((exists hand_node',
       add_endeffector_node_ char_signed self hand_node hand_name_upper
         hand_base hand_tcp hand_gcp base_link = Ok hand_node')
   <-> nonempty_names (joint_names (joints_ self)) /\
       (joints_ self = [] \/ nonempty_names (link_names (links_ self)))) /\
  (forall e,
      add_endeffector_node_ char_signed self hand_node hand_name_upper
        hand_base hand_tcp hand_gcp base_link = Err e ->
      e = OutOfRange).
Proof.
  split; [split|].
  - intros [hand_node' H]. eapply add_endeffector_node_Ok_names. exact H.
  - intros [Hne [Hjs|Hnl]].
    + unfold add_endeffector_node_, get_actors. rewrite Hjs. cbn. eauto.
    + now apply add_endeffector_node_total.
  - intros e. apply add_endeffector_node_Err.
Qed.

(** X11. The actor groups of the node [add_endeffector_node_] adds have
    distinct keys; each joint has a group whose key is the first character
    of its name; and a group lists, first among the links in their order
    and then among the joints in theirs, exactly those whose name starts
    with its key, at least one joint among them. *)
Theorem actor_groups_partition (self : UrdfToSimoxXml) (hand_node hand_node' : ptree)
    (hand_name_upper hand_base hand_tcp hand_gcp base_link : string) :
  add_endeffector_node_ char_signed self hand_node hand_name_upper
    hand_base hand_tcp hand_gcp base_link = Ok hand_node' ->
  exists e,
    hand_node' = add_child hand_node "Endeffector" e /\
    NoDup (actor_keys e) /\
    (forall j, In j (joints_ self) ->
               exists c a, first_char (joint_name j) = Some c /\
                           In a (actor_nodes e) /\ name_of a = string_of_char c) /\
    (forall a, In a (actor_nodes e) ->
               exists c,
                 name_of a = string_of_char c /\
                 member_names a
                 = (map link_name
                      (filter (fun l => starts_with c (link_name l)) (links_ self))
                      ++ map joint_name
                           (filter (fun j => starts_with c (joint_name j)) (joints_ self)))%list /\
                 filter (fun j => starts_with c (joint_name j)) (joints_ self) <> []).
Proof.
  intros H. apply add_endeffector_node_inv in H.
  destruct H as [e [actors [-> [Hg [HF _]]]]].
  exists e. split; [reflexivity|].
  pose proof (get_actors_Ok_nonempty _ _ _ _ Hg) as Hne.
  rewrite (get_actors_classify char_signed self [] Hne) in Hg. injection Hg as <-.
  split; [|split].
  - unfold actor_keys. rewrite (Forall2_built_names _ _ _ HF). apply actor_keys_NoDup.
  - intros j Hj.
    unfold nonempty_names, joint_names in Hne. rewrite Forall_forall in Hne.
    destruct (joint_name j) as [|c s] eqn:Hname.
    { elim (Hne ""); [rewrite <- Hname; now apply in_map | reflexivity]. }
    destruct (Forall2_built_key self _ _ (char_to_int char_signed c) HF) as [a [Ha Hb]].
    { apply MapFacts.classify_In. apply in_map.
      apply (first_char_In _ j c Hj). now rewrite Hname. }
    rewrite OrderFacts.int_to_char_to_int in Hb.
    destruct (EndeffectorFacts.actor_node_facts _ _ _ Hb) as [Hn _].
    exists c, a. auto.
  - intros a Ha.
    destruct (Forall2_built_In _ _ _ _ HF Ha) as [k [Hk Hb]].
    destruct (EndeffectorFacts.actor_node_facts _ _ _ Hb) as [Hn Hm].
    exists (int_to_char k). split; [exact Hn|]. split; [exact Hm|].
    rewrite MapFacts.classify_In in Hk. apply in_map_iff in Hk.
    destruct Hk as [c [<- Hc]]. rewrite OrderFacts.int_to_char_to_int.
    now apply first_char_starts.
Qed.

End EndeffectorOutcome.

Lemma actor_groups_partition_witness :
  exists hand_node' e,
    add_endeffector_node_ true hand_converter empty_ptree "DMS"
      "dms_hand_base" "dms_hand_tcp" "dms_hand_gcp" "base_link" = Ok hand_node' /\
    hand_node' = add_child empty_ptree "Endeffector" e /\
    NoDup (actor_keys e) /\
    (exists c a, first_char "t_joint" = Some c /\
                 In a (actor_nodes e) /\ name_of a = string_of_char c).
Proof.
  eexists.
  destruct (actor_groups_partition true hand_converter empty_ptree _
              "DMS" "dms_hand_base" "dms_hand_tcp" "dms_hand_gcp" "base_link" eq_refl)
    as [e [He [Hnd [Hj _]]]].
  exists e. split; [reflexivity|]. split; [exact He|]. split; [exact Hnd|].
  apply (Hj (revolute_joint "t_joint" "t_link")).
  right. right. left. reflexivity.
Defined.

(* ================================================================== *)
(** * The document as a whole *)

Section Layout.

Variable char_signed : bool.
Variable getPath : string -> string.
Variable meshlabserver : string -> list string * Z.
Variable fs_exists : string -> bool.
Variable getRPY : Rotation -> double * double * double.

(** What a run of [write_xml] that returns has gone through. *)
Lemma write_xml_inv (fuel : nat) (self : UrdfToSimoxXml)
    (output_dir simox_xml_filename path : string) (pt : ptree) :
  write_xml char_signed getPath meshlabserver fs_exists getRPY fuel self
    output_dir simox_xml_filename = Ok (path, pt) ->
  exists link0 n ns e,
    List.length (Str.iter_split "." simox_xml_filename) = 2%nat /\
    hd_error (links_ self) = Some link0 /\
    path = output_dir ++ "/" ++ simox_xml_filename /\
    build_link_node getPath meshlabserver fs_exists getRPY self link0 = Ok n /\
    Forall (fun kn => fst kn = "RobotNode") ns /\
    add_link_node_ getPath meshlabserver fs_exists getRPY fuel self
      (hand_trunk simox_xml_filename (link_name link0)) link0
    = Ok (appended (hand_trunk simox_xml_filename (link_name link0))
            (("RobotNode", n) :: ns)) /\
    add_endeffector_node_ char_signed self
      (appended (hand_trunk simox_xml_filename (link_name link0)) (("RobotNode", n) :: ns))
      (hand_upper simox_xml_filename)
      (hand_lower simox_xml_filename ++ "_hand_base")
      (hand_lower simox_xml_filename ++ "_hand_tcp")
      (hand_lower simox_xml_filename ++ "_hand_gcp")
      (link_name link0)
    = Ok (add_child
            (appended (hand_trunk simox_xml_filename (link_name link0))
               (("RobotNode", n) :: ns))
            "Endeffector" e) /\
    pt = add_child empty_ptree "Robot"
           (add_hand_joints_node_ self
              (add_child
                 (appended (hand_trunk simox_xml_filename (link_name link0))
                    (("RobotNode", n) :: ns))
                 "Endeffector" e)
              (hand_upper simox_xml_filename)).
Proof.
  unfold write_xml.
  destruct (List.length (Str.iter_split "." simox_xml_filename) =? 2)%nat eqn:Hlen;
    [|discriminate].
  cbn [negb]. apply Nat.eqb_eq in Hlen.
  destruct (hd_error (links_ self)) as [link0|]; [|discriminate].
  cbn [deref bind].
  fold (hand_upper simox_xml_filename). fold (hand_lower simox_xml_filename).
  change (add_hand_gcp_node_ _ _)
    with (hand_trunk simox_xml_filename (link_name link0)).
  set (trunk := hand_trunk simox_xml_filename (link_name link0)).
  destruct (add_link_node_ _ _ _ _ fuel self trunk link0) as [r|err] eqn:Hemit;
    [|discriminate].
  cbn [bind].
  destruct (emit_appends getPath meshlabserver fs_exists getRPY self fuel) as [Hl _].
  destruct (Hl _ _ _ Hemit) as [n [ns [Hb [-> Hk]]]].
  destruct (add_endeffector_node_ _ _ _ _ _ _ _ _) as [r'|err] eqn:Hend; [|discriminate].
  cbn [bind]. intros H. injection H as <- <-.
  destruct (add_endeffector_node_inv _ _ _ _ _ _ _ _ _ Hend) as [e [actors [-> _]]].
  exists link0, n, ns, e. repeat (split; [first [reflexivity | assumption]|]).
  reflexivity.
Qed.

(** The children of the robot element. *)
Lemma robot_children (self : UrdfToSimoxXml) (trunk e : ptree)
    (ns : list (string * ptree)) (hand_name_upper : string) :
  exists s,
    add_hand_joints_node_ self (add_child (appended trunk ns) "Endeffector" e)
      hand_name_upper
    = PT (data_of trunk)
         (children_of trunk ++ ns ++ [("Endeffector", e); ("RobotNodeSet", s)])%list /\
    attr s "name" = Some (hand_name_upper ++ " Joints") /\
    member_names s = joint_names (joints_ self) /\
    child_tags s = map (fun _ => "Node") (joints_ self).
Proof.
  unfold add_hand_joints_node_.
  rewrite (PtreeFacts.fold_left_add_child "Node"
             (fun joint => put empty_ptree "<xmlattr>.name" (joint_name joint))).
  eexists. split; [|split; [|split]].
  - unfold add_child, appended. cbn [data_of children_of].
    rewrite <- !app_assoc. reflexivity.
  - reflexivity.
  - unfold member_names.
    rewrite PtreeFacts.children_tagged_app, PtreeFacts.children_tagged_map_same.
    match goal with
    | |- context [children_tagged "Node" (PT ?d (children_of ?x))] =>
        change (children_tagged "Node" (PT d (children_of x))) with (@nil ptree)
    end.
    cbn [app]. rewrite map_map. unfold joint_names. apply map_ext. reflexivity.
  - unfold child_tags. cbn [children_of]. rewrite map_app, filter_app, map_map.
    cbn [map fst filter]. cbn. induction (joints_ self) as [|j js IH]; [reflexivity|].
    cbn. now rewrite IH.
Qed.

End Layout.

Module LayoutFacts.

Lemma add_child_inj (hand_node : ptree) (key : string) (a b : ptree) :
  add_child hand_node key a = add_child hand_node key b -> a = b.
Proof.
  unfold add_child. intros H. injection H as H.
  apply app_inv_head in H. now injection H.
Qed.

Lemma child_tags_app (d : string) (a b : list (string * ptree)) :
  child_tags (PT d (a ++ b)%list) = (child_tags (PT d a) ++ child_tags (PT d b))%list.
Proof. unfold child_tags. cbn [children_of]. now rewrite map_app, filter_app. Qed.

Lemma child_tags_all (d tag : string) (ns : list (string * ptree)) :
  String.eqb tag "<xmlattr>" = false -> String.eqb tag "<xmlcomment>" = false ->
  Forall (fun kn => fst kn = tag) ns ->
  child_tags (PT d ns) = repeat tag (List.length ns).
Proof.
  intros Ha Hc. unfold child_tags. cbn [children_of].
  induction 1 as [|[k n] ns Hk _ IH]; [reflexivity|].
  cbn [fst] in Hk. subst k. cbn [map fst filter List.length repeat].
  rewrite Ha, Hc. cbn [negb andb]. now rewrite IH.
Qed.

End LayoutFacts.

Section Parts.

Variable char_signed : bool.
Variable getPath : string -> string.
Variable meshlabserver : string -> list string * Z.
Variable fs_exists : string -> bool.
Variable getRPY : Rotation -> double * double * double.

(** The flat parts of the end-effector node. *)
Lemma add_endeffector_node_flat (self : UrdfToSimoxXml) (hand_node hand_node' : ptree)
    (hand_name_upper hand_base hand_tcp hand_gcp base_link : string) :
  add_endeffector_node_ char_signed self hand_node hand_name_upper
    hand_base hand_tcp hand_gcp base_link = Ok hand_node' ->
  exists e p st,
    hand_node' = add_child hand_node "Endeffector" e /\
    attr e "name" = Some hand_name_upper /\
    attr e "base" = Some hand_base /\
    attr e "tcp" = Some hand_tcp /\
    attr e "gcp" = Some hand_gcp /\
    children_tagged "Preshape" e = [p] /\
    attr p "name" = Some "Grasp Preshape" /\
    map preshape_entry (children_tagged "Node" p)
    = map (fun j => (joint_name j, Some "radian", Some "0.0")) (joints_ self) /\
    children_tagged "Static" e = [st] /\
    member_names st = [base_link] /\
    child_tags e
    = ("Preshape" :: "Static" :: repeat "Actor" (List.length (actor_nodes e)))%list.
Proof.
  unfold add_endeffector_node_.
  destruct (get_actors char_signed self []) as [actors|err] eqn:Hg; [|discriminate].
  cbn [bind].
  rewrite (PtreeFacts.fold_left_add_child "Node"
             (fun joint =>
                put (put (put empty_ptree "<xmlattr>.name" (joint_name joint))
                         "<xmlattr>.unit" "radian") "<xmlattr>.value" "0.0")).
  match goal with
  | |- context [foreach ?body actors ?start] =>
      set (E0 := start); destruct (foreach body actors E0) as [E1|err] eqn:Hloop;
        [|discriminate]
  end.
  cbn [bind]. intros H. injection H as <-.
  apply EndeffectorFacts.actors_loop in Hloop. destruct Hloop as [nodes [-> HF]].
  set (P := PT "" ([("<xmlattr>", PT "" [("name", PT "Grasp Preshape" [])]);
                    ("<xmlcomment>",
                     PT "This is just a template. Please set values manually!" [])]
                     ++ map (fun x =>
                               ("Node",
                                put (put (put empty_ptree "<xmlattr>.name" (joint_name x))
                                         "<xmlattr>.unit" "radian")
                                    "<xmlattr>.value" "0.0")) (joints_ self))%list).
  set (St := PT "" [("Node", PT "" [("<xmlattr>", PT "" [("name", PT base_link [])])])]).
  assert (E0 = PT "" [("<xmlcomment>",
                       PT "This node is for Simox (e.g., GraspPlanner in Simox)!" []);
                      ("<xmlattr>",
                       PT "" [("name", PT hand_name_upper []); ("base", PT hand_base []);
                              ("tcp", PT hand_tcp []); ("gcp", PT hand_gcp [])]);
                      ("Preshape", P); ("Static", St)]) as HE0 by reflexivity.
  clearbody E0. subst E0. cbn [data_of children_of].
  eexists. exists P, St. split; [reflexivity|].
  assert (forall tag, String.eqb "Actor" tag = false ->
            children_tagged tag
              (PT "" ([("<xmlcomment>",
                        PT "This node is for Simox (e.g., GraspPlanner in Simox)!" []);
                       ("<xmlattr>",
                        PT "" [("name", PT hand_name_upper []); ("base", PT hand_base []);
                               ("tcp", PT hand_tcp []); ("gcp", PT hand_gcp [])]);
                       ("Preshape", P); ("Static", St)]
                        ++ map (fun n => ("Actor", n)) nodes)%list)
            = children_tagged tag
                (PT "" [("<xmlcomment>",
                         PT "This node is for Simox (e.g., GraspPlanner in Simox)!" []);
                        ("<xmlattr>",
                         PT "" [("name", PT hand_name_upper []); ("base", PT hand_base []);
                                ("tcp", PT hand_tcp []); ("gcp", PT hand_gcp [])]);
                        ("Preshape", P); ("Static", St)])) as Hother.
  { intros tag Ht. rewrite PtreeFacts.children_tagged_app.
    rewrite (PtreeFacts.children_tagged_map_other tag "Actor" _ (fun n => n) nodes Ht).
    now rewrite app_nil_r. }
  repeat (split; [reflexivity|]).
  split; [now rewrite Hother|].
  split; [reflexivity|].
  split.
  { subst P. rewrite PtreeFacts.children_tagged_app, PtreeFacts.children_tagged_map_same.
    match goal with
    | |- context [children_tagged "Node" (PT "" ?l)] =>
        change (children_tagged "Node" (PT "" l)) with (@nil ptree)
    end.
    cbn [app]. rewrite map_map. apply map_ext. reflexivity. }
  split; [now rewrite Hother|].
  split; [reflexivity|].
  rewrite LayoutFacts.child_tags_app. unfold actor_nodes.
  rewrite PtreeFacts.children_tagged_app.
  rewrite (PtreeFacts.children_tagged_map_same "Actor" "" (fun n => n) nodes).
  rewrite map_id.
  rewrite (LayoutFacts.child_tags_all "" "Actor" (map (fun n => ("Actor", n)) nodes)) by
    (first [reflexivity | apply Forall_forall; intros x Hx; apply in_map_iff in Hx;
                          destruct Hx as [y [<- _]]; reflexivity]).
  rewrite length_map. reflexivity.
Qed.

(** The parts of a document that [write_xml] returns. *)
Lemma write_xml_parts (fuel : nat) (self : UrdfToSimoxXml)
    (output_dir simox_xml_filename path : string) (pt : ptree) :
  write_xml char_signed getPath meshlabserver fs_exists getRPY fuel self
    output_dir simox_xml_filename = Ok (path, pt) ->
  exists link0 n ns e s,
    List.length (Str.iter_split "." simox_xml_filename) = 2%nat /\
    path = output_dir ++ "/" ++ simox_xml_filename /\
    hd_error (links_ self) = Some link0 /\
    build_link_node getPath meshlabserver fs_exists getRPY self link0 = Ok n /\
    Forall (fun kn => fst kn = "RobotNode") ns /\
    add_link_node_ getPath meshlabserver fs_exists getRPY fuel self
      (hand_trunk simox_xml_filename (link_name link0)) link0
    = Ok (appended (hand_trunk simox_xml_filename (link_name link0))
            (("RobotNode", n) :: ns)) /\
    add_endeffector_node_ char_signed self
      (appended (hand_trunk simox_xml_filename (link_name link0)) (("RobotNode", n) :: ns))
      (hand_upper simox_xml_filename)
      (hand_lower simox_xml_filename ++ "_hand_base")
      (hand_lower simox_xml_filename ++ "_hand_tcp")
      (hand_lower simox_xml_filename ++ "_hand_gcp")
      (link_name link0)
    = Ok (add_child
            (appended (hand_trunk simox_xml_filename (link_name link0))
               (("RobotNode", n) :: ns))
            "Endeffector" e) /\
    children_of pt = [("Robot", robot_of pt)] /\
    robot_of pt
    = PT "" (children_of (hand_trunk simox_xml_filename (link_name link0))
               ++ (("RobotNode", n) :: ns)
               ++ [("Endeffector", e); ("RobotNodeSet", s)])%list /\
    robot_nodes pt
    = (robot_nodes (add_child empty_ptree "Robot"
                      (hand_trunk simox_xml_filename (link_name link0)))
         ++ n :: map snd ns)%list /\
    endeffector_nodes pt = [e] /\
    node_set_nodes pt = [s] /\
    attr s "name" = Some (hand_upper simox_xml_filename ++ " Joints") /\
    member_names s = joint_names (joints_ self) /\
    child_tags s = map (fun _ => "Node") (joints_ self).
Proof.
  intros H. apply write_xml_inv in H.
  destruct H as [link0 [n [ns [e [Hlen [Hhd [Hpath [Hb [Hk [Hemit [Hend ->]]]]]]]]]]].
  destruct (robot_children self (hand_trunk simox_xml_filename (link_name link0)) e
              (("RobotNode", n) :: ns) (hand_upper simox_xml_filename))
    as [s [Hrobot [Hname [Hmem Htags]]]].
  exists link0, n, ns, e, s.
  split; [exact Hlen|]. split; [exact Hpath|].
  split; [exact Hhd|]. split; [exact Hb|]. split; [exact Hk|]. split; [exact Hemit|].
  split; [exact Hend|].
  assert (robot_of (add_child empty_ptree "Robot"
                      (add_hand_joints_node_ self
                         (add_child
                            (appended (hand_trunk simox_xml_filename (link_name link0))
                               (("RobotNode", n) :: ns)) "Endeffector" e)
                         (hand_upper simox_xml_filename)))
          = add_hand_joints_node_ self
              (add_child
                 (appended (hand_trunk simox_xml_filename (link_name link0))
                    (("RobotNode", n) :: ns)) "Endeffector" e)
              (hand_upper simox_xml_filename)) as Hr by reflexivity.
  split; [reflexivity|].
  unfold robot_nodes, endeffector_nodes, node_set_nodes.
  rewrite Hr, Hrobot.
  change (data_of (hand_trunk simox_xml_filename (link_name link0))) with "".
  split; [reflexivity|].
  assert (Forall (fun kn : string * ptree => fst kn = "RobotNode") (("RobotNode", n) :: ns))
    as Hk' by (constructor; [reflexivity | exact Hk]).
  rewrite !PtreeFacts.children_tagged_app.
  rewrite (PtreeFacts.children_tagged_all "RobotNode" "" _ Hk').
  rewrite (PtreeFacts.children_tagged_none "Endeffector" "RobotNode" "" _ eq_refl Hk').
  rewrite (PtreeFacts.children_tagged_none "RobotNodeSet" "RobotNode" "" _ eq_refl Hk').
  split.
  { change (children_tagged "RobotNode" (PT "" [("Endeffector", e); ("RobotNodeSet", s)]))
      with (@nil ptree).
    rewrite app_nil_r. reflexivity. }
  split; [reflexivity|]. split; [reflexivity|].
  auto.
Qed.

End Parts.

Section DocumentTheorems.

Variable char_signed : bool.
Variable getPath : string -> string.
Variable meshlabserver : string -> list string * Z.
Variable fs_exists : string -> bool.
Variable getRPY : Rotation -> double * double * double.

(** X12. Every document [write_xml] returns has the same layout: one
    [Robot] element whose type is the upper-cased stem of the file name and
    whose root node is the synthetic base; under it the base, the tcp and
    the gcp node, the node of the first link of the model, the other
    structural nodes, one end-effector and one node set, in this order. The
    base node refers to the tcp, the gcp and the first link; the
    end-effector bears the robot's type as name, names the three
    synthetic nodes and holds the first link as its only static member; the
    node set is named after the type. The file lies in the directory
    handed to [write_xml]. *)
Theorem write_xml_layout (fuel : nat) (self : UrdfToSimoxXml)
    (output_dir simox_xml_filename path : string) (pt : ptree) :
  write_xml char_signed getPath meshlabserver fs_exists getRPY fuel self
    output_dir simox_xml_filename = Ok (path, pt) ->
  exists link0 b t g l rest e s,
    hd_error (links_ self) = Some link0 /\
    path = output_dir ++ "/" ++ simox_xml_filename /\
    children_of pt = [("Robot", robot_of pt)] /\
    attr (robot_of pt) "Type" = Some (hand_upper simox_xml_filename) /\
    attr (robot_of pt) "RootNode" = Some (hand_lower simox_xml_filename ++ "_hand_base") /\
    child_tags (robot_of pt)
    = (repeat "RobotNode" (4 + List.length rest) ++ ["Endeffector"; "RobotNodeSet"])%list /\
    robot_nodes pt = b :: t :: g :: l :: rest /\
    summary_of b
    = synthetic_summary (hand_lower simox_xml_filename ++ "_hand_base")
        [hand_lower simox_xml_filename ++ "_hand_tcp";
         hand_lower simox_xml_filename ++ "_hand_gcp";
         link_name link0] /\
    summary_of t = synthetic_summary (hand_lower simox_xml_filename ++ "_hand_tcp") [] /\
    summary_of g = synthetic_summary (hand_lower simox_xml_filename ++ "_hand_gcp") [] /\
    summary_of l = link_summary link0 /\
    endeffector_nodes pt = [e] /\
    attr e "name" = Some (hand_upper simox_xml_filename) /\
    attr e "base" = Some (hand_lower simox_xml_filename ++ "_hand_base") /\
    attr e "tcp" = Some (hand_lower simox_xml_filename ++ "_hand_tcp") /\
    attr e "gcp" = Some (hand_lower simox_xml_filename ++ "_hand_gcp") /\
    flat_map member_names (children_tagged "Static" e) = [link_name link0] /\
    node_set_nodes pt = [s] /\
    attr s "name" = Some (hand_upper simox_xml_filename ++ " Joints").
Proof.
  intros H.
  destruct (write_xml_parts _ _ _ _ _ _ _ _ _ _ _ H)
    as (link0 & n & ns & e & s & _ & Hpath & Hhd & Hb & Hk & _ & Hend & Hpt & Hrobot
        & Hnodes & He & Hs & Hsn & _).
  destruct (add_endeffector_node_flat _ _ _ _ _ _ _ _ _ Hend)
    as (e' & p & st & He' & Hen & Heb & Het & Heg & _ & _ & _ & Hst & Hstm & _).
  apply LayoutFacts.add_child_inj in He'. subst e'.
  assert (summary_of n = link_summary link0) as Hsum.
  { pose proof (build_link_node_error getPath meshlabserver fs_exists getRPY self link0) as Hle.
    rewrite Hb in Hle. apply link_error_None in Hle.
    destruct (build_link_node_ok getPath meshlabserver fs_exists getRPY self link0 Hle)
      as [n' [Hb' Hsum]].
    congruence. }
  eexists link0, _, _, _, n, (map snd ns), e, s.
  split; [exact Hhd|]. split; [exact Hpath|]. split; [exact Hpt|].
  rewrite Hrobot.
  split; [reflexivity|]. split; [reflexivity|].
  split.
  { rewrite !LayoutFacts.child_tags_app.
    change (("RobotNode", n) :: ns) with ([("RobotNode", n)] ++ ns)%list.
    rewrite LayoutFacts.child_tags_app.
    rewrite (LayoutFacts.child_tags_all "" "RobotNode" ns eq_refl eq_refl Hk).
    rewrite length_map. reflexivity. }
  split; [rewrite Hnodes; reflexivity|].
  split; [reflexivity|]. split; [reflexivity|]. split; [reflexivity|].
  split; [exact Hsum|].
  split; [exact He|]. split; [exact Hen|]. split; [exact Heb|].
  split; [exact Het|]. split; [exact Heg|].
  split; [rewrite Hst; cbn [flat_map]; now rewrite Hstm|].
  split; [exact Hs | exact Hsn].
Qed.

(** X13. In every document [write_xml] returns for a constructed converter,
    the preshape of the end-effector and the node set list the same names
    in the same order: every joint of the model, in ascending name order
    whatever the order of declaration; each entry of the preshape gives the
    unit radian and the value 0.0. *)
Theorem write_xml_flat_listings (model : Model) (constructed_dir : string) (fuel : nat)
    (self : UrdfToSimoxXml) (output_dir simox_xml_filename path : string) (pt : ptree) :
  construct model constructed_dir = Ok self ->
  write_xml char_signed getPath meshlabserver fs_exists getRPY fuel self
    output_dir simox_xml_filename = Ok (path, pt) ->
  exists e p s,
    endeffector_nodes pt = [e] /\
    children_tagged "Preshape" e = [p] /\
    node_set_nodes pt = [s] /\
    map preshape_entry (children_tagged "Node" p)
    = map (fun j => (joint_name j, Some "radian", Some "0.0")) (joints_ self) /\
    member_names s = joint_names (joints_ self) /\
    child_tags s = repeat "Node" (List.length (joints_ self)) /\
    sorted_by_name (joints_ self) /\
    Permutation (joints_ self) (flat_map child_joints (model_links model)).
Proof.
  intros Hcons H.
  destruct (write_xml_parts _ _ _ _ _ _ _ _ _ _ _ H)
    as (link0 & n & ns & e & s & _ & _ & _ & _ & _ & _ & Hend & _ & _ & _ & He & Hs & _
        & Hm & Ht).
  destruct (add_endeffector_node_flat _ _ _ _ _ _ _ _ _ Hend)
    as (e' & p & st & He' & _ & _ & _ & _ & Hp & _ & Hpe & _).
  apply LayoutFacts.add_child_inj in He'. subst e'.
  exists e, p, s.
  split; [exact He|]. split; [exact Hp|]. split; [exact Hs|].
  split; [exact Hpe|]. split; [exact Hm|].
  split.
  { rewrite Ht. clear. induction (joints_ self) as [|j js IH]; [reflexivity|].
    cbn [map List.length repeat]. now rewrite IH. }
  split; [exact (construct_sorted _ _ _ Hcons)|].
  destruct (construct_inv _ _ _ Hcons) as [_ ->]. cbn [joints_].
  apply OrderFacts.sort_joints_perm.
Qed.

End DocumentTheorems.

Lemma write_xml_layout_witness :
  exists path pt e s,
    sample_write_xml dms_converter "dms.xml" = Ok (path, pt) /\
    path = "/out/dms.xml" /\
    attr (robot_of pt) "Type" = Some "DMS" /\
    attr (robot_of pt) "RootNode" = Some "dms_hand_base" /\
    child_tags (robot_of pt)
    = ["RobotNode"; "RobotNode"; "RobotNode"; "RobotNode"; "RobotNode"; "RobotNode";
       "Endeffector"; "RobotNodeSet"] /\
    endeffector_nodes pt = [e] /\
    attr e "base" = Some "dms_hand_base" /\
    node_set_nodes pt = [s] /\
    attr s "name" = Some "DMS Joints".
Proof.
  destruct (sample_write_xml dms_converter "dms.xml") as [[path pt]|err] eqn:Hrun;
    [|vm_compute in Hrun; discriminate Hrun].
  destruct (write_xml_layout true sample_getPath quiet_meshlabserver sample_fs_exists
              sample_getRPY 4 dms_converter "/out" "dms.xml" path pt Hrun)
    as (link0 & b & t & g & l & rest & e & s & _ & Hpath & _ & Htype & Hroot & Htags
        & Hnodes & _ & _ & _ & _ & He & _ & Hbase & _ & _ & _ & Hs & Hname).
  exists path, pt, e, s.
  split; [reflexivity|]. split; [exact Hpath|]. split; [exact Htype|].
  split; [exact Hroot|].
  split.
  { rewrite Htags. apply (f_equal (@List.length _)) in Hnodes.
    assert (List.length (robot_nodes pt) = 6) as Hlen.
    { unfold sample_write_xml in Hrun. vm_compute in Hrun. injection Hrun as _ <-.
      reflexivity. }
    rewrite Hlen in Hnodes. cbn [List.length] in Hnodes.
    destruct rest as [|r1 [|r2 [|r3 rest]]]; cbn in Hnodes; try lia. reflexivity. }
  split; [exact He|]. split; [exact Hbase|]. split; [exact Hs | exact Hname].
Defined.

Lemma write_xml_flat_listings_witness :
  exists path pt e p s,
    sample_write_xml hand_converter "hand.xml" = Ok (path, pt) /\
    endeffector_nodes pt = [e] /\
    children_tagged "Preshape" e = [p] /\
    node_set_nodes pt = [s] /\
    member_names p = ["f_joint"; "m_joint"; "t_joint"] /\
    member_names s = ["f_joint"; "m_joint"; "t_joint"].
Proof.
  destruct (sample_write_xml hand_converter "hand.xml") as [[path pt]|err] eqn:Hrun;
    [|vm_compute in Hrun; discriminate Hrun].
  destruct (write_xml_flat_listings true sample_getPath quiet_meshlabserver
              sample_fs_exists sample_getRPY hand_model "/out" 4 hand_converter
              "/out" "hand.xml" path pt eq_refl Hrun)
    as (e & p & s & He & Hp & Hs & Hpe & Hm & _).
  exists path, pt, e, p, s.
  split; [reflexivity|]. split; [exact He|]. split; [exact Hp|]. split; [exact Hs|].
  split; [|exact Hm].
  unfold member_names.
  apply (f_equal (map (fun x => fst (fst x)))) in Hpe.
  rewrite !map_map in Hpe. exact Hpe.
Defined.

(* ================================================================== *)
(** * The document of a kinematic tree *)

Lemma slider_well_formed : well_formed slider_model slider_tree.
Proof.
  split; [solve_tree_shaped|]. split; [apply Permutation_refl|].
  split; solve_names.
Qed.

Section TreeTheorems.

Variable char_signed : bool.
Variable getPath : string -> string.
Variable meshlabserver : string -> list string * Z.
Variable fs_exists : string -> bool.
Variable getRPY : Rotation -> double * double * double.

(** In a well-formed tree built by the constructor the lookups of the
    emitter follow the tree. *)
Lemma constructed_lookups (model : Model) (t : KTree) (self : UrdfToSimoxXml)
    (constructed_dir : string) :
  construct model constructed_dir = Ok self ->
  well_formed model t ->
  forall l, In l (tree_links t) -> getLink (urdf_model_ self) (link_name l) = Some l.
Proof.
  intros Hcons [_ [Hperm [Hnd _]]] l Hl.
  destruct (construct_inv _ _ _ Hcons) as [_ ->]. cbn [urdf_model_].
  destruct model as [links]. cbn [model_links] in *.
  apply ModelFacts.getLink_own_name; [exact Hnd|].
  now apply (Permutation_in l (Permutation_sym Hperm)).
Qed.

(** X15. The structural nodes of the document of a supported, well-formed
    tree come in the order of a depth-first walk: after the three synthetic
    nodes, the node of a link, then for each of its joints in declaration
    order the node of the joint followed by the nodes of the tree below it;
    and each node says what its link or joint says. *)
Theorem write_xml_depth_first_order (model : Model) (t : KTree) (self : UrdfToSimoxXml)
    (constructed_dir output_dir simox_xml_filename : string) (fuel : nat) :
  construct model constructed_dir = Ok self ->
  well_formed model t ->
  hd_error (model_links model) = Some (root_link t) ->
  Forall (supported_link getPath meshlabserver fs_exists constructed_dir)
         (model_links model) ->
  Forall supported_joint (tree_joints t) ->
  nonempty_names (link_names (model_links model)) ->
  nonempty_names (joint_names (tree_joints t)) ->
  List.length (Str.iter_split "." simox_xml_filename) = 2%nat ->
  2 * List.length (model_links model) <= fuel ->
  exists pt,
    write_xml char_signed getPath meshlabserver fs_exists getRPY fuel self
      output_dir simox_xml_filename
    = Ok (output_dir ++ "/" ++ simox_xml_filename, pt) /\
    map name_of (robot_nodes pt) = (synthetic_names simox_xml_filename ++ tree_names t)%list /\
    map summary_of (skipn 3 (robot_nodes pt)) = tree_summary t.
Proof.
  intros Hcons Hwf Hroot Hsl Hsj Hnl Hnj Hname Hfuel.
  destruct (write_xml_document char_signed getPath meshlabserver fs_exists getRPY
              model t self constructed_dir output_dir simox_xml_filename fuel
              Hcons Hwf Hroot Hsl Hsj Hnl Hnj Hname Hfuel)
    as (pt & e & s & Hw & _ & Hsum & _).
  exists pt. split; [exact Hw|]. split.
  - apply (f_equal (map s_name)) in Hsum. rewrite map_map in Hsum.
    cbn [map synthetic_summary s_name] in Hsum.
    rewrite TreeFacts.tree_summary_names in Hsum. exact Hsum.
  - rewrite <- skipn_map, Hsum. reflexivity.
Qed.

(** X16. On a well-formed tree whose root is the first link of the model,
    with a file name of two parts and fuel for the depth, [write_xml] stops
    at the first stop of the depth-first walk and with its error: a link
    without visual ([NullDereference]), with a geometry that is no mesh
    ([UnsupportedGeometry]) or with a mesh the delegate refuses, a revolute
    joint without limits ([NullDereference]), a joint that is neither
    revolute nor fixed ([UnsupportedJointType]). If the walk has no stop,
    the run returns a document or stops at an empty name ([OutOfRange]). *)
Theorem write_xml_stops_at_first_error (model : Model) (t : KTree)
    (self : UrdfToSimoxXml)
    (constructed_dir output_dir simox_xml_filename : string) (fuel : nat) :
  construct model constructed_dir = Ok self ->
  well_formed model t ->
  hd_error (model_links model) = Some (root_link t) ->
  List.length (Str.iter_split "." simox_xml_filename) = 2%nat ->
  2 * List.length (model_links model) <= fuel ->
  match first_error (link_error getPath meshlabserver fs_exists constructed_dir) t with
  | Some e =>
      write_xml char_signed getPath meshlabserver fs_exists getRPY fuel self
        output_dir simox_xml_filename = Err e
  | None =>
      (exists pt,
          write_xml char_signed getPath meshlabserver fs_exists getRPY fuel self
            output_dir simox_xml_filename
          = Ok (output_dir ++ "/" ++ simox_xml_filename, pt)) \/
      write_xml char_signed getPath meshlabserver fs_exists getRPY fuel self
        output_dir simox_xml_filename = Err OutOfRange
  end.
Proof.
  intros Hcons Hwf Hroot Hname Hfuel.
  pose proof (constructed_lookups model t self constructed_dir Hcons Hwf) as Hlook.
  destruct (construct_inv _ _ _ Hcons) as [_ Hself].
  assert (links_ self = model_links model) as Hlinks by (now rewrite Hself).
  assert (output_dir_ self = constructed_dir) as Hdir by (now rewrite Hself).
  destruct Hwf as [Hshape [Hperm _]].
  unfold write_xml. rewrite Hname. cbn [Nat.eqb negb].
  rewrite Hlinks, Hroot. cbn [deref bind].
  match goal with
  | |- context [add_link_node_ _ _ _ _ fuel self ?hn _] => set (hn3 := hn)
  end.
  pose proof (emit_tree_outcome getPath meshlabserver fs_exists getRPY self t
                Hshape Hlook fuel hn3) as Hout.
  rewrite Hdir in Hout.
  specialize (Hout ltac:(rewrite <- (Permutation_length Hperm); exact Hfuel)).
  destruct (first_error _ t) as [e|].
  - now rewrite Hout.
  - destruct Hout as [ns ->]. cbn [bind].
    match goal with
    | |- context [add_endeffector_node_ ?a ?b ?c ?d ?e ?f ?g ?h] =>
        destruct (add_endeffector_node_ a b c d e f g h) as [r|err] eqn:Hend
    end.
    + left. cbn [bind]. eauto.
    + right. cbn [bind]. apply add_endeffector_node_Err in Hend. now subst err.
Qed.

(** X17. [write_xml] returns a document for a well-formed tree whose root
    is the first link of the model only if the file name has two parts,
    every link has a visual with a mesh the delegate converts, every joint
    is fixed or revolute with limits, no joint has an empty name and, if
    there is a joint, no link has one: whatever the fuel. *)
Theorem write_xml_returns_only_for_supported (model : Model) (t : KTree)
    (self : UrdfToSimoxXml)
    (constructed_dir output_dir simox_xml_filename path : string) (fuel : nat)
    (pt : ptree) :
  construct model constructed_dir = Ok self ->
  well_formed model t ->
  hd_error (model_links model) = Some (root_link t) ->
  write_xml char_signed getPath meshlabserver fs_exists getRPY fuel self
    output_dir simox_xml_filename = Ok (path, pt) ->
  List.length (Str.iter_split "." simox_xml_filename) = 2%nat /\
  Forall (supported_link getPath meshlabserver fs_exists constructed_dir)
         (model_links model) /\
  Forall supported_joint (tree_joints t) /\
  nonempty_names (joint_names (tree_joints t)) /\
  (tree_joints t = [] \/ nonempty_names (link_names (model_links model))).
Proof.
  intros Hcons Hwf Hroot H.
  pose proof (constructed_lookups model t self constructed_dir Hcons Hwf) as Hlook.
  pose proof (constructed_joints model t Hwf) as Hjoints.
  destruct (construct_inv _ _ _ Hcons) as [_ Hself].
  assert (links_ self = model_links model) as Hlinks by (now rewrite Hself).
  assert (joints_ self = sort_joints (flat_map child_joints (model_links model)))
    as Hjs by (now rewrite Hself).
  assert (output_dir_ self = constructed_dir) as Hdir by (now rewrite Hself).
  destruct Hwf as [Hshape [Hperm _]].
  destruct (write_xml_parts _ _ _ _ _ _ _ _ _ _ _ H)
    as (link0 & n & ns & e & s & Hlen & _ & Hhd & _ & _ & Hemit & Hend & _).
  rewrite Hlinks, Hroot in Hhd. injection Hhd as <-.
  destruct (emit_tree_inv getPath meshlabserver fs_exists getRPY self t Hshape Hlook
              _ _ _ Hemit) as [Hsl Hsj].
  rewrite Hdir in Hsl.
  destruct (add_endeffector_node_Ok_names _ _ _ _ _ _ _ _ _ Hend) as [Hnj Hnl].
  rewrite Hjs in Hnj, Hnl. rewrite Hlinks in Hnl.
  split; [exact Hlen|].
  split; [now rewrite Hperm|].
  split; [exact Hsj|].
  split.
  - eapply ModelFacts.nonempty_names_perm; [|exact Hnj].
    unfold joint_names. now apply Permutation_map.
  - destruct Hnl as [Hnil|Hnl]; [left | now right].
    rewrite Hnil in Hjoints. now apply Permutation_nil in Hjoints.
Qed.

End TreeTheorems.

Lemma write_xml_depth_first_order_witness :
  exists pt,
    write_xml true sample_getPath quiet_meshlabserver sample_fs_exists sample_getRPY
      8 hand_converter "/out" "hand.xml" = Ok ("/out/hand.xml", pt) /\
    map name_of (robot_nodes pt)
    = ["hand_hand_base"; "hand_hand_tcp"; "hand_hand_gcp";
       "base_link"; "t_joint"; "t_link"; "f_joint"; "f_link"; "m_joint"; "m_link"].
Proof.
  assert (well_formed hand_model hand_tree) as Hwf.
  { split; [solve_tree_shaped|]. split; [|split; solve_names].
    unfold hand_model, hand_tree. cbn.
    apply perm_skip.
    apply (perm_trans (l' := [mesh_link "f_link" []; mesh_link "t_link" [];
                              mesh_link "m_link" []])).
    - apply perm_skip, perm_swap.
    - apply perm_swap. }
  destruct (write_xml_depth_first_order true sample_getPath quiet_meshlabserver
              sample_fs_exists sample_getRPY hand_model hand_tree hand_converter
              "/out" "/out" "hand.xml" 8 eq_refl Hwf eq_refl)
    as (pt & Hw & Hn & _).
  - solve_supported_links.
  - solve_supported_joints.
  - solve_names.
  - solve_names.
  - reflexivity.
  - cbn. lia.
  - exists pt. split; [exact Hw | exact Hn].
Defined.

Lemma write_xml_stops_at_first_error_witness :
  write_xml true sample_getPath quiet_meshlabserver sample_fs_exists sample_getRPY
    6 slider_converter "/out" "slider.xml" = Err UnsupportedJointType.
Proof.
  exact (write_xml_stops_at_first_error true sample_getPath quiet_meshlabserver
           sample_fs_exists sample_getRPY slider_model slider_tree slider_converter
           "/out" "/out" "slider.xml" 6 eq_refl slider_well_formed eq_refl eq_refl
           (le_n 6)).
Defined.

Lemma write_xml_returns_only_for_supported_witness :
  exists path pt,
    sample_write_xml dms_converter "dms.xml" = Ok (path, pt) /\
    Forall (supported_link sample_getPath quiet_meshlabserver sample_fs_exists "/out")
           (model_links dms_model) /\
    Forall supported_joint (tree_joints dms_tree).
Proof.
  destruct (sample_write_xml dms_converter "dms.xml") as [[path pt]|err] eqn:Hrun;
    [|vm_compute in Hrun; discriminate Hrun].
  destruct (write_xml_returns_only_for_supported true sample_getPath quiet_meshlabserver
              sample_fs_exists sample_getRPY dms_model dms_tree dms_converter
              "/out" "/out" "dms.xml" path 4 pt eq_refl dms_well_formed eq_refl Hrun)
    as (_ & Hsl & Hsj & _).
  exists path, pt. auto.
Defined.

(* ================================================================== *)
(** * Rendering keeps the order of the numbers *)

Module RoundingFacts.

Local Open Scope Z_scope.

(** [round_thousandths m e] is the integer nearest to [1000 * m * 2^e], and
    even when two integers are as near. *)
Lemma round_spec (m : positive) (e : Z) :
  let r := Z.of_N (round_thousandths m e) in
  let n := Qnum (mag_Q m e) in
  let d := Z.pos (Qden (mag_Q m e)) in
  ((2 * r - 1) * d < 2000 * n /\ 2000 * n < (2 * r + 1) * d) \/
  (((2 * r - 1) * d = 2000 * n \/ 2000 * n = (2 * r + 1) * d) /\ exists k, r = 2 * k).
Proof.
  destruct e as [|p|p]; unfold round_thousandths, mag_Q; cbn [Qnum Qden]; cbv zeta.
  - left. lia.
  - left. rewrite Z.pow_pos_fold, !N2Z.inj_mul, !N2Z.inj_pos, Pos2Z.inj_pow. lia.
  - set (d := Pos.pow 2 p).
    pose proof (N.div_mod (1000 * N.pos m) (N.pos d) ltac:(discriminate)) as Hdm.
    pose proof (N.mod_lt (1000 * N.pos m) (N.pos d) ltac:(discriminate)) as Hlt.
    set (q := N.div (1000 * N.pos m) (N.pos d)) in *.
    set (r := N.modulo (1000 * N.pos m) (N.pos d)) in *.
    assert (1000 * Z.pos m = Z.pos d * Z.of_N q + Z.of_N r) as Hz by lia.
    assert (0 <= Z.of_N r < Z.pos d) as Hr by lia.
    destruct (N.ltb_spec (2 * r) (N.pos d)) as [Ha|Ha].
    + left. nia.
    + destruct (N.ltb_spec (N.pos d) (2 * r)) as [Hb|Hb].
      * left. nia.
      * right. assert (2 * Z.of_N r = Z.pos d) as Htie by lia.
        destruct (N.even q) eqn:Hq.
        -- apply N.even_spec in Hq. destruct Hq as [k Hk].
           split; [right; nia|]. exists (Z.of_N k). lia.
        -- assert (N.odd q = true) as Ho by (rewrite <- N.negb_even, Hq; reflexivity).
           apply N.odd_spec in Ho. destruct Ho as [k Hk].
           split; [left; nia|]. exists (Z.of_N k + 1). lia.
Qed.

(** The nearest integers of two numbers stand as the numbers do. *)
Lemma nearest_monotone (r r' n n' d d' : Z) :
  0 < d -> 0 < d' ->
  ((2 * r - 1) * d < 2000 * n /\ 2000 * n < (2 * r + 1) * d) \/
  (((2 * r - 1) * d = 2000 * n \/ 2000 * n = (2 * r + 1) * d) /\ exists k, r = 2 * k) ->
  ((2 * r' - 1) * d' < 2000 * n' /\ 2000 * n' < (2 * r' + 1) * d') \/
  (((2 * r' - 1) * d' = 2000 * n' \/ 2000 * n' = (2 * r' + 1) * d') /\
   exists k, r' = 2 * k) ->
  n * d' <= n' * d ->
  r <= r'.
Proof.
  intros Hd Hd' Hx Hy Hle.
  destruct (Z_le_gt_dec r r') as [H|Hgt]; [exact H | exfalso].
  assert ((2 * r - 1) * d <= 2000 * n) as Hlow by (destruct Hx as [[? ?]|[[?|?] _]]; nia).
  assert (2000 * n' <= (2 * r' + 1) * d') as Hup by (destruct Hy as [[? ?]|[[?|?] _]]; nia).
  assert ((2 * r - 1) * (d * d') <= (2 * r' + 1) * (d * d')) as Hchain.
  { apply Z.le_trans with (2000 * n * d'); [nia|].
    apply Z.le_trans with (2000 * n' * d); nia. }
  assert (0 < d * d') as Hdd by nia.
  assert (2 * r - 1 <= 2 * r' + 1) as Hr by nia.
  assert (r = r' + 1) as -> by lia.
  assert ((2 * (r' + 1) - 1) * d = 2000 * n) as Hex.
  { assert ((2 * (r' + 1) - 1) * d * d' = 2000 * n * d') as Hm.
    { apply Z.le_antisymm; [nia|].
      apply Z.le_trans with (2000 * n' * d); [nia|].
      replace ((2 * (r' + 1) - 1) * d * d') with ((2 * r' + 1) * d' * d) by ring.
      nia. }
    nia. }
  assert (2000 * n' = (2 * r' + 1) * d') as Hey.
  { assert (2000 * n' * d = (2 * r' + 1) * d' * d) as Hm.
    { apply Z.le_antisymm; [nia|].
      apply Z.le_trans with (2000 * n * d'); [|nia].
      rewrite <- Hex. replace ((2 * (r' + 1) - 1) * d * d') with ((2 * r' + 1) * d' * d) by ring.
      lia. }
    nia. }
  destruct Hx as [[Hx _]|[_ [k Hk]]]; [lia|].
  destruct Hy as [[_ Hy]|[_ [k' Hk']]]; [lia|].
  lia.
Qed.

Lemma round_monotone (m m' : positive) (e e' : Z) :
  (mag_Q m e <= mag_Q m' e')%Q ->
  Z.of_N (round_thousandths m e) <= Z.of_N (round_thousandths m' e').
Proof.
  intros Hle.
  apply (nearest_monotone _ _ (Qnum (mag_Q m e)) (Qnum (mag_Q m' e'))
           (Z.pos (Qden (mag_Q m e))) (Z.pos (Qden (mag_Q m' e')))).
  - reflexivity.
  - reflexivity.
  - apply round_spec.
  - apply round_spec.
  - exact Hle.
Qed.

Lemma mag_Q_pos (m : positive) (e : Z) : (0 < mag_Q m e)%Q.
Proof.
  destruct e as [|p|p]; unfold mag_Q, Qlt; cbn [Qnum Qden]; lia.
Qed.

(** What [to_string_] writes, read back. *)
Lemma parse_to_string (x : double) :
  finite x = true ->
  parse_number (to_string_ x) = Some (Qmake (thousandths_of x) 1000).
Proof.
  intros Hfin. destruct x as [s|s|s|s m e]; try discriminate Hfin.
  - destruct s; reflexivity.
  - destruct (NumberFacts.thousandths_shape (round_thousandths m e))
      as [ip [fp [Hsh [Hne [Hip [Hlen [Hfp Hval]]]]]]].
    destruct (NumberFacts.parse_unsigned ip fp _ Hne Hip Hfp Hval) as [Hpos Hneg].
    rewrite Hlen in Hpos, Hneg.
    change (Z.to_pos (10 ^ Z.of_nat 3)) with 1000%positive in *.
    destruct s; cbn [to_string_ sign_string thousandths_of append]; rewrite Hsh.
    + exact Hneg.
    + exact Hpos.
Qed.

Lemma thousandths_of_monotone (x y : double) :
  finite x = true -> finite y = true ->
  (value x <= value y)%Q -> thousandths_of x <= thousandths_of y.
Proof.
  intros Hx Hy Hle.
  destruct x as [s|s|s|s m e]; try discriminate Hx;
    destruct y as [s'|s'|s'|s' m' e']; try discriminate Hy;
    cbn [value thousandths_of] in *.
  - lia.
  - destruct s'; [|lia].
    pose proof (mag_Q_pos m' e') as Hp. unfold Qle, Qlt, Qopp in *.
    cbn [Qnum Qden] in *. lia.
  - destruct s; [lia|].
    pose proof (mag_Q_pos m e) as Hp. unfold Qle, Qlt in *. cbn [Qnum Qden] in *. lia.
  - destruct s, s'.
    + apply Qopp_le_compat in Hle. rewrite !Qopp_involutive in Hle.
      pose proof (round_monotone _ _ _ _ Hle). lia.
    + lia.
    + pose proof (mag_Q_pos m e) as Hp. pose proof (mag_Q_pos m' e') as Hp'.
      unfold Qle, Qlt, Qopp in *. cbn [Qnum Qden] in *. nia.
    + now apply round_monotone.
Qed.

End RoundingFacts.

(** X18. Rendering keeps the order of finite doubles: when one is at most
    the other, so are the numerals written for them, read as numbers.  A
    lower limit that does not exceed the upper one in the model does not
    exceed it in the document. *)
Theorem to_string_keeps_order (x y : double) :
  finite x = true -> finite y = true ->
  (value x <= value y)%Q ->
  exists qx qy,
    parse_number (to_string_ x) = Some qx /\
    parse_number (to_string_ y) = Some qy /\
    (qx <= qy)%Q.
Proof.
  intros Hx Hy Hle.
  exists (Qmake (thousandths_of x) 1000), (Qmake (thousandths_of y) 1000).
  split; [now apply RoundingFacts.parse_to_string|].
  split; [now apply RoundingFacts.parse_to_string|].
  pose proof (RoundingFacts.thousandths_of_monotone x y Hx Hy Hle) as H.
  unfold Qle. cbn [Qnum Qden]. lia.
Qed.

Lemma to_string_keeps_order_witness :
  exists qx qy,
    parse_number (to_string_ d_m1_57) = Some qx /\
    parse_number (to_string_ d_1_57) = Some qy /\
    (qx <= qy)%Q.
Proof.
  apply (to_string_keeps_order d_m1_57 d_1_57 eq_refl eq_refl).
  vm_compute. discriminate.
Defined.

(* ================================================================== *)
(** * A joint that leads back *)

Section Loop.

Variable char_signed : bool.
Variable getPath : string -> string.
Variable meshlabserver : string -> list string * Z.
Variable fs_exists : string -> bool.
Variable getRPY : Rotation -> double * double * double.
Variable self : UrdfToSimoxXml.

(** The emitter keeps no record of the links it has visited: when the first
    joint of a link leads back to the link, no depth of calls is enough. *)
Lemma loop_exhausts (link : Link) (child_joint : Joint) (rest : list Joint)
    (link_node joint_node : ptree) :
  build_link_node getPath meshlabserver fs_exists getRPY self link = Ok link_node ->
  child_joints link = child_joint :: rest ->
  build_joint_node getRPY self child_joint = Ok (joint_node, link) ->
  forall fuel hand_node,
    add_link_node_ getPath meshlabserver fs_exists getRPY fuel self hand_node link
    = Err OutOfFuel.
Proof.
  intros Hb Hcj Hbj.
  assert (forall fuel,
             (forall hand_node,
                 add_link_node_ getPath meshlabserver fs_exists getRPY fuel self
                   hand_node link = Err OutOfFuel) /\
             (forall hand_node,
                 add_link_node_ getPath meshlabserver fs_exists getRPY (S fuel) self
                   hand_node link = Err OutOfFuel)) as H.
  { induction fuel as [|fuel [IH0 IH1]].
    - split; [reflexivity|]. intros hand_node.
      rewrite add_link_node_step, Hb. cbn [bind]. rewrite Hcj. reflexivity.
    - split; [exact IH1|]. intros hand_node.
      rewrite add_link_node_step, Hb. cbn [bind]. rewrite Hcj. cbn [foreach].
      rewrite add_joint_node_step, Hbj. cbn [bind fst snd]. now rewrite IH0. }
  intros fuel. apply H.
Qed.

(** X19. [write_xml] has no guard against a joint that leads back to the
    link that carries it: when the first joint of the first link does, and
    the link and the joint are otherwise supported, the calls never come to
    an end; with any bound on their depth the run is out of fuel. *)
Theorem write_xml_never_returns_on_loop (link : Link) (links : list Link)
    (child_joint : Joint) (rest : list Joint) (link_node joint_node : ptree)
    (output_dir simox_xml_filename : string) (fuel : nat) :
  links_ self = link :: links ->
  build_link_node getPath meshlabserver fs_exists getRPY self link = Ok link_node ->
  child_joints link = child_joint :: rest ->
  build_joint_node getRPY self child_joint = Ok (joint_node, link) ->
  List.length (Str.iter_split "." simox_xml_filename) = 2%nat ->
  write_xml char_signed getPath meshlabserver fs_exists getRPY fuel self
    output_dir simox_xml_filename = Err OutOfFuel.
Proof.
  intros Hlinks Hb Hcj Hbj Hname.
  unfold write_xml. rewrite Hname, Hlinks. cbn [Nat.eqb negb hd_error deref bind].
  now rewrite (loop_exhausts link child_joint rest link_node joint_node Hb Hcj Hbj).
Qed.

End Loop.

Lemma write_xml_never_returns_on_loop_witness :
  write_xml true sample_getPath quiet_meshlabserver sample_fs_exists sample_getRPY
    1000 looping_converter "/out" "loop.xml" = Err OutOfFuel.
Proof.
  eapply (write_xml_never_returns_on_loop true sample_getPath quiet_meshlabserver
            sample_fs_exists sample_getRPY looping_converter
            (mesh_link "a_link" [revolute_joint "a_joint" "a_link"]) []
            (revolute_joint "a_joint" "a_link") []).
  - reflexivity.
  - reflexivity.
  - reflexivity.
  - reflexivity.
  - reflexivity.
Defined.

(* ================================================================== *)
(** * The synthetic nodes *)

Section Synthetic.

Variable char_signed : bool.
Variable getPath : string -> string.
Variable meshlabserver : string -> list string * Z.
Variable fs_exists : string -> bool.
Variable getRPY : Rotation -> double * double * double.

(** X20. The poses of the synthetic nodes come from no model: in every
    document [write_xml] returns the base node has no transform, the tcp
    node is translated by (-0.010, -0.035, 0.070) m without rotation, and
    the gcp node is translated alike and rolled by 1.000 radian. *)
Theorem write_xml_synthetic_poses (fuel : nat) (self : UrdfToSimoxXml)
    (output_dir simox_xml_filename path : string) (pt : ptree) :
  write_xml char_signed getPath meshlabserver fs_exists getRPY fuel self
    output_dir simox_xml_filename = Ok (path, pt) ->
  exists b t g rest,
    robot_nodes pt = b :: t :: g :: rest /\
    has_child "Transform" b = false /\
    transform_attrs t
    = ([Some "-0.010"; Some "-0.035"; Some "0.070"; Some "m"], [None; None; None; None]) /\
    transform_attrs g
    = ([Some "-0.010"; Some "-0.035"; Some "0.070"; Some "m"],
       [Some "1.000"; Some "0.000"; Some "0.000"; Some "radian"]).
Proof.
  intros H.
  destruct (write_xml_parts _ _ _ _ _ _ _ _ _ _ _ H)
    as (link0 & n & ns & e & s & _ & _ & _ & _ & _ & _ & _ & _ & _ & Hnodes & _).
  rewrite Hnodes. eexists _, _, _, _. split; [reflexivity|].
  split; [reflexivity|]. split; reflexivity.
Qed.

End Synthetic.

Lemma write_xml_synthetic_poses_witness :
  exists path pt b t g rest,
    sample_write_xml dms_converter "dms.xml" = Ok (path, pt) /\
    robot_nodes pt = b :: t :: g :: rest /\
    name_of t = "dms_hand_tcp" /\
    attr (translation_of t) "z" = Some "0.070" /\
    attr (rollpitchyaw_of g) "roll" = Some "1.000".
Proof.
  destruct (sample_write_xml dms_converter "dms.xml") as [[path pt]|err] eqn:Hrun;
    [|vm_compute in Hrun; discriminate Hrun].
  destruct (write_xml_synthetic_poses true sample_getPath quiet_meshlabserver
              sample_fs_exists sample_getRPY 4 dms_converter "/out" "dms.xml" path pt Hrun)
    as (b & t & g & rest & Hnodes & _ & Ht & Hg).
  exists path, pt, b, t, g, rest.
  split; [reflexivity|]. split; [exact Hnodes|].
  split.
  - unfold sample_write_xml in Hrun. vm_compute in Hrun. injection Hrun as _ <-.
    vm_compute in Hnodes. injection Hnodes as _ <- _ _. reflexivity.
  - unfold transform_attrs in Ht, Hg. cbn [map] in Ht, Hg.
    injection Ht as _ _ Hz _. injection Hg as _ _ _ _ Hroll _ _ _.
    split; [exact Hz | exact Hroll].
Defined.

(* ================================================================== *)
(** * The letter case of the file name *)

Module CaseFacts.

Lemma upper_lower_char (c : ascii) : Str.upper_char (Str.lower_char c) = Str.upper_char c.
Proof. destruct c as [[] [] [] [] [] [] [] []]; reflexivity. Qed.

Lemma lower_lower_char (c : ascii) : Str.lower_char (Str.lower_char c) = Str.lower_char c.
Proof. destruct c as [[] [] [] [] [] [] [] []]; reflexivity. Qed.

Lemma lower_char_point (c : ascii) : Ascii.eqb (Str.lower_char c) "." = Ascii.eqb c ".".
Proof. destruct c as [[] [] [] [] [] [] [] []]; reflexivity. Qed.

Lemma upper_lower (s : string) :
  Str.to_upper_copy (Str.to_lower_copy s) = Str.to_upper_copy s.
Proof.
  induction s as [|c s IH]; [reflexivity|].
  cbn [Str.to_upper_copy Str.to_lower_copy Str.map_chars] in *.
  now rewrite upper_lower_char, IH.
Qed.

Lemma lower_lower (s : string) :
  Str.to_lower_copy (Str.to_lower_copy s) = Str.to_lower_copy s.
Proof.
  induction s as [|c s IH]; [reflexivity|].
  cbn [Str.to_lower_copy Str.map_chars] in *.
  now rewrite lower_lower_char, IH.
Qed.

(** Lowering the letters and splitting at "." commute. *)
Lemma iter_split_lower (s : string) :
  Str.iter_split "." (Str.to_lower_copy s)
  = map Str.to_lower_copy (Str.iter_split "." s).
Proof.
  induction s as [|c s IH]; [reflexivity|].
  cbn [Str.to_lower_copy Str.map_chars Str.iter_split] in *.
  rewrite lower_char_point, IH.
  destruct (Ascii.eqb c "."); [reflexivity|].
  destruct (Str.iter_split "." s) as [|seg segs]; reflexivity.
Qed.

Lemma hand_lower_lower (simox_xml_filename : string) :
  hand_lower (Str.to_lower_copy simox_xml_filename) = hand_lower simox_xml_filename.
Proof.
  unfold hand_lower. rewrite iter_split_lower.
  destruct (Str.iter_split "." simox_xml_filename) as [|seg segs]; [reflexivity|].
  cbn [map hd]. apply lower_lower.
Qed.

Lemma hand_upper_lower (simox_xml_filename : string) :
  hand_upper (Str.to_lower_copy simox_xml_filename) = hand_upper simox_xml_filename.
Proof.
  unfold hand_upper. rewrite iter_split_lower.
  destruct (Str.iter_split "." simox_xml_filename) as [|seg segs]; [reflexivity|].
  cbn [map hd]. apply upper_lower.
Qed.

Lemma parts_lower (simox_xml_filename : string) :
  List.length (Str.iter_split "." (Str.to_lower_copy simox_xml_filename))
  = List.length (Str.iter_split "." simox_xml_filename).
Proof. rewrite iter_split_lower. apply length_map. Qed.

End CaseFacts.

Section Case.

Variable char_signed : bool.
Variable getPath : string -> string.
Variable meshlabserver : string -> list string * Z.
Variable fs_exists : string -> bool.
Variable getRPY : Rotation -> double * double * double.

(** X21. The document does not depend on the letter case of the file name:
    for two file names that differ in the case of ASCII letters only,
    [write_xml] ends in the same error or returns the same document. *)
Theorem write_xml_ignores_case (fuel : nat) (self : UrdfToSimoxXml)
    (output_dir simox_xml_filename simox_xml_filename' : string) :
  Str.to_lower_copy simox_xml_filename = Str.to_lower_copy simox_xml_filename' ->
  match write_xml char_signed getPath meshlabserver fs_exists getRPY fuel self
          output_dir simox_xml_filename,
        write_xml char_signed getPath meshlabserver fs_exists getRPY fuel self
          output_dir simox_xml_filename' with
  | Ok (_, pt), Ok (_, pt') => pt = pt'
  | Err e, Err e' => e = e'
  | _, _ => False
  end.
Proof.
  intros Hsame.
  assert (hand_lower simox_xml_filename = hand_lower simox_xml_filename') as Hl
    by (now rewrite <- (CaseFacts.hand_lower_lower simox_xml_filename), Hsame,
          CaseFacts.hand_lower_lower).
  assert (hand_upper simox_xml_filename = hand_upper simox_xml_filename') as Hu
    by (now rewrite <- (CaseFacts.hand_upper_lower simox_xml_filename), Hsame,
          CaseFacts.hand_upper_lower).
  assert (List.length (Str.iter_split "." simox_xml_filename)
          = List.length (Str.iter_split "." simox_xml_filename')) as Hn
    by (now rewrite <- (CaseFacts.parts_lower simox_xml_filename), Hsame,
          CaseFacts.parts_lower).
  unfold write_xml. rewrite Hn.
  destruct (negb _); [reflexivity|].
  destruct (hd_error (links_ self)) as [link0|]; [|reflexivity].
  cbn [deref bind].
  fold (hand_upper simox_xml_filename). fold (hand_lower simox_xml_filename).
  fold (hand_upper simox_xml_filename'). fold (hand_lower simox_xml_filename').
  rewrite Hl, Hu.
  destruct (add_link_node_ _ _ _ _ _ _ _ _) as [r|e]; [|reflexivity].
  cbn [bind].
  destruct (add_endeffector_node_ _ _ _ _ _ _ _ _) as [r'|e]; [|reflexivity].
  reflexivity.
Qed.

End Case.

Lemma write_xml_ignores_case_witness :
  match sample_write_xml dms_converter "DMS.xml", sample_write_xml dms_converter "dms.XML" with
  | Ok (path, pt), Ok (path', pt') =>
      pt = pt' /\ path = "/out/DMS.xml" /\ path' = "/out/dms.XML"
  | _, _ => False
  end.
Proof.
  pose proof (write_xml_ignores_case true sample_getPath quiet_meshlabserver
                sample_fs_exists sample_getRPY 4 dms_converter "/out"
                "DMS.xml" "dms.XML" eq_refl) as H.
  fold (sample_write_xml dms_converter "DMS.xml") in H.
  fold (sample_write_xml dms_converter "dms.XML") in H.
  destruct (sample_write_xml dms_converter "DMS.xml") as [[path pt]|err] eqn:H1;
    [|vm_compute in H1; discriminate H1].
  destruct (sample_write_xml dms_converter "dms.XML") as [[path' pt']|err] eqn:H2;
    [|vm_compute in H2; discriminate H2].
  split; [exact H|].
  unfold sample_write_xml in H1, H2. vm_compute in H1, H2.
  injection H1 as <- _. injection H2 as <- _. split; reflexivity.
Defined.
